(** * rain-today-web: radar timeline, wind field and helpers

    A shallow embedding of the browser script of the weather-map client
    (the two script variants of the repository) and the properties of its
    radar-frame timeline, wind sampler, particle field and glyph layers.

    Conventions of the embedding:
    - module-level [let] variables and the DOM elements the script writes
      become fields of an explicit state record; every function of the
      script is a function on that record;
    - a statement that may throw returns an [Outcome], and a
      [try { } catch { }] block is [try_catch];
    - [async] functions are cut at their [await]: the part after it takes
      the outcome of the awaited request as an argument;
    - JavaScript numbers are binary64 floats ([PrimFloat]) where the code
      does arithmetic on measurements, and [Z] or [nat] where it counts
      or indexes; [Math.sin] and [Math.cos], whose results the language
      leaves to the platform, are parameters of the wind sampler;
    - objects that the script mutates in place (the particles) live on a
      heap and are held by reference. *)

From Stdlib Require Import ZArith List Bool Lia Ascii String Floats.
From stdpp Require Import base option list gmap.

Import ListNotations.
Local Open Scope Z_scope.
#[local] Set Warnings "-inexact-float".

(** ** Outcome of a statement: normal completion or a thrown exception,
    each with the state reached *)

Inductive Outcome (S A : Type) : Type :=
| Returns (a : A) (s : S)
| Throws (msg : string) (s : S).
Arguments Returns {S A} a s.
Arguments Throws {S A} msg s.

(** [c; k]: the rest [k] runs only when [c] completes normally. *)
Definition and_then {S A B} (c : Outcome S A) (k : A -> S -> Outcome S B)
  : Outcome S B :=
  match c with
  | Returns a s => k a s
  | Throws m s => Throws m s
  end.

(** [try { body } catch (err) { handler }]: the handler runs in the state
    the body had reached when it threw. *)
Definition try_catch {S A} (body : Outcome S A)
    (handler : string -> S -> Outcome S A) : Outcome S A :=
  match body with
  | Returns a s => Returns a s
  | Throws m s => handler m s
  end.

(** The state an outcome ends in. *)
Definition final_state {S A} (c : Outcome S A) : S :=
  match c with
  | Returns _ s => s
  | Throws _ s => s
  end.

Definition throws {S A} (c : Outcome S A) : bool :=
  match c with
  | Returns _ _ => false
  | Throws _ _ => true
  end.

(** ** Helpers (section HELPERS of the script) *)

Module Helpers.

Local Open Scope float_scope.

(** [Math.min] and [Math.max] on binary64 values: NaN is contagious and
    the negative zero is below the positive one. *)
Definition is_neg_zero (x : float) : bool :=
  match PrimFloat.classify x with NZero => true | _ => false end.

Definition Math_min (x y : float) : float :=
  match PrimFloat.compare x y with
  | FLt => x
  | FGt => y
  | FEq => if is_neg_zero x then x else y
  | FNotComparable => nan
  end.

Definition Math_max (x y : float) : float :=
  match PrimFloat.compare x y with
  | FLt => y
  | FGt => x
  | FEq => if is_neg_zero x then y else x
  | FNotComparable => nan
  end.

(** [function clamp(v,a,b){ return Math.max(a, Math.min(b, v)); }] *)
Definition clamp (v a b : float) : float := Math_max a (Math_min b v).

(** [x > y] on numbers *)
Definition gt (x y : float) : bool := PrimFloat.ltb y x.

(** [x || 0] on a number: 0, -0 and NaN are falsy. *)
Definition or_zero (x : float) : float :=
  if PrimFloat.is_nan x || PrimFloat.is_zero x then 0 else x.

Definition windColor (kmh : float) : string :=
  if PrimFloat.leb kmh 15 then "rgba(102,204,255,0.95)"%string
  else if PrimFloat.leb kmh 35 then "rgba(51,204,102,0.95)"%string
  else if PrimFloat.leb kmh 60 then "rgba(255,153,0,0.95)"%string
  else "rgba(153,0,255,0.95)"%string.

(** *** computeRainEvent15 *)

Record RainEvent := {
  startMin : option Z;      (* [null] is [None] *)
  durationMin : Z;
  totalMm : float
}.

Definition TH : float := 0.1.

(** first loop: [for (i=0; ...) if (arr[i] > TH){ start = i; break; }] *)
Fixpoint find_start (arr : list float) (i : nat) : option nat :=
  match arr with
  | [] => None
  | a :: rest => if gt a TH then Some i else find_start rest (S i)
  end.

(** second loop, entered at [i = start]: accumulates while the sample
    is above the threshold, breaks at the first one that is not.
    Returns [(total, end)]. *)
Fixpoint accumulate (arr : list float) (i : nat) (total : float) (end_ : nat)
  : float * nat :=
  match arr with
  | [] => (total, end_)
  | a :: rest =>
      if gt a TH then accumulate rest (S i) (total + a) i
      else (total, end_)
  end.

Definition computeRainEvent15 (arr : list float) : RainEvent :=
  match arr with
  | [] => {| startMin := None; durationMin := 0; totalMm := 0 |}
  | _ =>
      match find_start arr 0 with
      | None => {| startMin := None; durationMin := 0; totalMm := 0 |}
      | Some start =>
          let '(total, end_) := accumulate (drop start arr) start 0 start in
          {| startMin := Some (Z.of_nat start * 15)%Z;
             durationMin := ((Z.of_nat end_ - Z.of_nat start + 1) * 15)%Z;
             totalMm := total |}
      end
  end.

(** *** escapeHtml *)

(** [s.replaceAll(c, rep)] for a pattern of one character. None of the
    replacement strings of [escapeHtml] contains a [$], so the
    replacement is inserted literally. *)
Fixpoint replaceAll (c : ascii) (rep : string) (s : string) : string :=
  match s with
  | EmptyString => EmptyString
  | String a rest =>
      if Ascii.eqb a c then (rep ++ replaceAll c rep rest)%string
      else String a (replaceAll c rep rest)
  end.

Definition ch_amp : ascii := "&"%char.
Definition ch_lt : ascii := "<"%char.
Definition ch_gt : ascii := ">"%char.
Definition ch_dquote : ascii := "034"%char.
Definition ch_squote : ascii := "'"%char.

Definition escapeHtml (str : string) : string :=
  replaceAll ch_squote "&#039;"
    (replaceAll ch_dquote "&quot;"
      (replaceAll ch_gt "&gt;"
        (replaceAll ch_lt "&lt;"
          (replaceAll ch_amp "&amp;" str)))).

(** The five entities [escapeHtml] writes. *)
Definition entities : list string :=
  ["&amp;"; "&lt;"; "&gt;"; "&quot;"; "&#039;"]%string.

(** Number of occurrences of a character in a string. *)
Fixpoint occurrences (c : ascii) (s : string) : nat :=
  match s with
  | EmptyString => O
  | String a rest => ((if Ascii.eqb a c then 1 else 0) + occurrences c rest)%nat
  end.

End Helpers.

(** ** Toasts: the markup [pushToast] assigns to [toast.innerHTML] *)

Module Toasts.
Import Helpers.
Local Open Scope string_scope.

(** The destructured argument of [pushToast]; an absent property
    ([undefined]) is [None]. [onAction] is a callback and takes no part
    in the markup. *)
Record ToastArgs := {
  icon : option string;
  title : option string;
  message : option string;
  time : option string;
  actionText : option string
}.

(** [x || dflt] on an optional string: [undefined] and the empty string
    are falsy. *)
Definition or_default (x : option string) (dflt : string) : string :=
  match x with
  | None => dflt
  | Some EmptyString => dflt
  | Some s => s
  end.

Definition truthy (x : option string) : bool :=
  match x with
  | None => false
  | Some EmptyString => false
  | Some _ => true
  end.

Definition q : string := String ch_dquote EmptyString.

(** The template literal of [pushToast], with its line breaks. *)
Definition toast_innerHTML (t : ToastArgs) : string :=
  "
    <div class=" ++ q ++ "icon" ++ q ++ ">" ++ escapeHtml (or_default (icon t) "ℹ️") ++ "</div>
    <div>
      <div class=" ++ q ++ "title" ++ q ++ ">" ++ escapeHtml (or_default (title t) EmptyString) ++ "</div>
      <div class=" ++ q ++ "meta" ++ q ++ ">" ++ escapeHtml (or_default (message t) EmptyString) ++ "</div>
      <div class=" ++ q ++ "meta" ++ q ++ " style=" ++ q ++ "margin-top:4px" ++ q ++ ">" ++ escapeHtml (or_default (time t) EmptyString) ++ "</div>
    </div>
    <div class=" ++ q ++ "toast-row" ++ q ++ ">
      " ++ (if truthy (actionText t)
            then "<button class=" ++ q ++ "action" ++ q ++ ">"
                 ++ escapeHtml (or_default (actionText t) EmptyString) ++ "</button>"
            else EmptyString) ++ "
      <button class=" ++ q ++ "close" ++ q ++ " title=" ++ q ++ "Fermer" ++ q ++ ">✕</button>
    </div>
  ".

End Toasts.

(** ** Vocabulary for the properties of [escapeHtml] *)

Module EscapeSpec.
Import Helpers.
Local Open Scope string_scope.

(** What [escapeHtml] writes for one character. *)
Definition escapeChar (a : ascii) : string :=
  if Ascii.eqb a ch_amp then "&amp;"
  else if Ascii.eqb a ch_lt then "&lt;"
  else if Ascii.eqb a ch_gt then "&gt;"
  else if Ascii.eqb a ch_dquote then "&quot;"
  else if Ascii.eqb a ch_squote then "&#039;"
  else String a EmptyString.

Fixpoint escapeEach (s : string) : string :=
  match s with
  | EmptyString => EmptyString
  | String a rest => escapeChar a ++ escapeEach rest
  end.

(** [starts_with e t]: the string [t] starts with [e]. *)
Fixpoint starts_with (e t : string) : bool :=
  match e with
  | EmptyString => true
  | String a e' =>
      match t with
      | EmptyString => false
      | String b t' => Ascii.eqb a b && starts_with e' t'
      end
  end.

(** [begins_entity t]: [t] starts with one of the five entities. *)
Definition begins_entity (t : string) : bool :=
  existsb (fun e => starts_with e t) entities.

(** Every ampersand of [t] starts an entity. *)
Fixpoint amps_ok (t : string) : bool :=
  match t with
  | EmptyString => true
  | String a rest =>
      (if Ascii.eqb a ch_amp then begins_entity t else true) && amps_ok rest
  end.

End EscapeSpec.

(** ** Radar timeline: data shared by the two script variants *)

Module Timeline.
Local Open Scope string_scope.

(** One entry of the RainViewer catalog: [{ time, path }]. *)
Record RadarFrame := {
  time : Z;          (* unix seconds *)
  path : string
}.

(** The options the script passes to [L.tileLayer], and the URL template
    the layer currently shows. *)
Record TileLayer := {
  url : string;
  pane : string;
  opacity : float;
  tileSize : Z;
  zoomOffset : Z;
  maxNativeZoom : Z;
  maxZoom : Z;
  errorTileUrl : string
}.

Definition set_url (u : string) (l : TileLayer) : TileLayer :=
  {| url := u; pane := pane l; opacity := opacity l; tileSize := tileSize l;
     zoomOffset := zoomOffset l; maxNativeZoom := maxNativeZoom l;
     maxZoom := maxZoom l; errorTileUrl := errorTileUrl l |}.

(** An integer-valued JavaScript number, or NaN. [frameIndex] becomes
    NaN when the tick divides by the length of an empty list. *)
Inductive JsInt :=
| NaN
| Int (z : Z).

(** [(a + 1) % n] *)
Definition succ_mod (a : JsInt) (n : nat) : JsInt :=
  match a, n with
  | Int z, S _ => Int (Z.rem (z + 1) (Z.of_nat n))
  | _, _ => NaN
  end.

(** [arr[i]]: [undefined] ([None]) outside [0 .. length-1] and at NaN. *)
Definition at_index {A} (arr : list A) (i : JsInt) : option A :=
  match i with
  | NaN => None
  | Int z => if (z <? 0)%Z then None else arr !! Z.to_nat z
  end.

Record State := {
  map_ready : bool;   (* the variable [map] holds the Leaflet map *)
  radarLayer : option TileLayer;   (* [null] is [None] *)
  radarOnMap : bool;   (* [map.hasLayer(radarLayer)] *)
  frames : list RadarFrame;
  frameIndex : JsInt;
  anim : option positive;   (* handle of the running interval, [null] is [None] *)
  intervals : list positive;   (* interval timers of the tick callback that are armed *)
  nextTimer : positive;   (* next handle [setInterval] hands out *)
  statusText : string;   (* [statusEl.textContent] *)
  sliderMin : Z;   (* [sliderEl.min] *)
  sliderMax : Z;   (* [sliderEl.max] *)
  sliderValue : JsInt;   (* [sliderEl.value] *)
  playBtnText : string;   (* [playBtnEl.textContent] *)
  timeLabelText : string;   (* [timeLabelEl.textContent] *)
  radarToggle : bool;   (* [radarToggle.checked] *)
  rainAutoToggle : bool;   (* [rainAutoToggle.checked] *)
  tzOffsetMin : Z   (* offset of the local time zone from UTC, in minutes *)
}.

Definition set_map_ready (v : bool) (s : State) : State :=
  {| map_ready := v; radarLayer := radarLayer s;
     radarOnMap := radarOnMap s; frames := frames s;
     frameIndex := frameIndex s; anim := anim s; intervals := intervals s;
     nextTimer := nextTimer s; statusText := statusText s;
     sliderMin := sliderMin s; sliderMax := sliderMax s;
     sliderValue := sliderValue s; playBtnText := playBtnText s;
     timeLabelText := timeLabelText s; radarToggle := radarToggle s;
     rainAutoToggle := rainAutoToggle s; tzOffsetMin := tzOffsetMin s |}.

Definition set_radarLayer (v : option TileLayer) (s : State) : State :=
  {| map_ready := map_ready s; radarLayer := v; radarOnMap := radarOnMap s;
     frames := frames s; frameIndex := frameIndex s; anim := anim s;
     intervals := intervals s; nextTimer := nextTimer s;
     statusText := statusText s; sliderMin := sliderMin s;
     sliderMax := sliderMax s; sliderValue := sliderValue s;
     playBtnText := playBtnText s; timeLabelText := timeLabelText s;
     radarToggle := radarToggle s; rainAutoToggle := rainAutoToggle s;
     tzOffsetMin := tzOffsetMin s |}.

Definition set_radarOnMap (v : bool) (s : State) : State :=
  {| map_ready := map_ready s; radarLayer := radarLayer s; radarOnMap := v;
     frames := frames s; frameIndex := frameIndex s; anim := anim s;
     intervals := intervals s; nextTimer := nextTimer s;
     statusText := statusText s; sliderMin := sliderMin s;
     sliderMax := sliderMax s; sliderValue := sliderValue s;
     playBtnText := playBtnText s; timeLabelText := timeLabelText s;
     radarToggle := radarToggle s; rainAutoToggle := rainAutoToggle s;
     tzOffsetMin := tzOffsetMin s |}.

Definition set_frames (v : list RadarFrame) (s : State) : State :=
  {| map_ready := map_ready s; radarLayer := radarLayer s;
     radarOnMap := radarOnMap s; frames := v; frameIndex := frameIndex s;
     anim := anim s; intervals := intervals s; nextTimer := nextTimer s;
     statusText := statusText s; sliderMin := sliderMin s;
     sliderMax := sliderMax s; sliderValue := sliderValue s;
     playBtnText := playBtnText s; timeLabelText := timeLabelText s;
     radarToggle := radarToggle s; rainAutoToggle := rainAutoToggle s;
     tzOffsetMin := tzOffsetMin s |}.

Definition set_frameIndex (v : JsInt) (s : State) : State :=
  {| map_ready := map_ready s; radarLayer := radarLayer s;
     radarOnMap := radarOnMap s; frames := frames s; frameIndex := v;
     anim := anim s; intervals := intervals s; nextTimer := nextTimer s;
     statusText := statusText s; sliderMin := sliderMin s;
     sliderMax := sliderMax s; sliderValue := sliderValue s;
     playBtnText := playBtnText s; timeLabelText := timeLabelText s;
     radarToggle := radarToggle s; rainAutoToggle := rainAutoToggle s;
     tzOffsetMin := tzOffsetMin s |}.

Definition set_anim (v : option positive) (s : State) : State :=
  {| map_ready := map_ready s; radarLayer := radarLayer s;
     radarOnMap := radarOnMap s; frames := frames s;
     frameIndex := frameIndex s; anim := v; intervals := intervals s;
     nextTimer := nextTimer s; statusText := statusText s;
     sliderMin := sliderMin s; sliderMax := sliderMax s;
     sliderValue := sliderValue s; playBtnText := playBtnText s;
     timeLabelText := timeLabelText s; radarToggle := radarToggle s;
     rainAutoToggle := rainAutoToggle s; tzOffsetMin := tzOffsetMin s |}.

Definition set_intervals (v : list positive) (s : State) : State :=
  {| map_ready := map_ready s; radarLayer := radarLayer s;
     radarOnMap := radarOnMap s; frames := frames s;
     frameIndex := frameIndex s; anim := anim s; intervals := v;
     nextTimer := nextTimer s; statusText := statusText s;
     sliderMin := sliderMin s; sliderMax := sliderMax s;
     sliderValue := sliderValue s; playBtnText := playBtnText s;
     timeLabelText := timeLabelText s; radarToggle := radarToggle s;
     rainAutoToggle := rainAutoToggle s; tzOffsetMin := tzOffsetMin s |}.

Definition set_nextTimer (v : positive) (s : State) : State :=
  {| map_ready := map_ready s; radarLayer := radarLayer s;
     radarOnMap := radarOnMap s; frames := frames s;
     frameIndex := frameIndex s; anim := anim s; intervals := intervals s;
     nextTimer := v; statusText := statusText s; sliderMin := sliderMin s;
     sliderMax := sliderMax s; sliderValue := sliderValue s;
     playBtnText := playBtnText s; timeLabelText := timeLabelText s;
     radarToggle := radarToggle s; rainAutoToggle := rainAutoToggle s;
     tzOffsetMin := tzOffsetMin s |}.

Definition set_statusText (v : string) (s : State) : State :=
  {| map_ready := map_ready s; radarLayer := radarLayer s;
     radarOnMap := radarOnMap s; frames := frames s;
     frameIndex := frameIndex s; anim := anim s; intervals := intervals s;
     nextTimer := nextTimer s; statusText := v; sliderMin := sliderMin s;
     sliderMax := sliderMax s; sliderValue := sliderValue s;
     playBtnText := playBtnText s; timeLabelText := timeLabelText s;
     radarToggle := radarToggle s; rainAutoToggle := rainAutoToggle s;
     tzOffsetMin := tzOffsetMin s |}.

Definition set_sliderMin (v : Z) (s : State) : State :=
  {| map_ready := map_ready s; radarLayer := radarLayer s;
     radarOnMap := radarOnMap s; frames := frames s;
     frameIndex := frameIndex s; anim := anim s; intervals := intervals s;
     nextTimer := nextTimer s; statusText := statusText s; sliderMin := v;
     sliderMax := sliderMax s; sliderValue := sliderValue s;
     playBtnText := playBtnText s; timeLabelText := timeLabelText s;
     radarToggle := radarToggle s; rainAutoToggle := rainAutoToggle s;
     tzOffsetMin := tzOffsetMin s |}.

Definition set_sliderMax (v : Z) (s : State) : State :=
  {| map_ready := map_ready s; radarLayer := radarLayer s;
     radarOnMap := radarOnMap s; frames := frames s;
     frameIndex := frameIndex s; anim := anim s; intervals := intervals s;
     nextTimer := nextTimer s; statusText := statusText s;
     sliderMin := sliderMin s; sliderMax := v;
     sliderValue := sliderValue s; playBtnText := playBtnText s;
     timeLabelText := timeLabelText s; radarToggle := radarToggle s;
     rainAutoToggle := rainAutoToggle s; tzOffsetMin := tzOffsetMin s |}.

Definition set_sliderValue (v : JsInt) (s : State) : State :=
  {| map_ready := map_ready s; radarLayer := radarLayer s;
     radarOnMap := radarOnMap s; frames := frames s;
     frameIndex := frameIndex s; anim := anim s; intervals := intervals s;
     nextTimer := nextTimer s; statusText := statusText s;
     sliderMin := sliderMin s; sliderMax := sliderMax s; sliderValue := v;
     playBtnText := playBtnText s; timeLabelText := timeLabelText s;
     radarToggle := radarToggle s; rainAutoToggle := rainAutoToggle s;
     tzOffsetMin := tzOffsetMin s |}.

Definition set_playBtnText (v : string) (s : State) : State :=
  {| map_ready := map_ready s; radarLayer := radarLayer s;
     radarOnMap := radarOnMap s; frames := frames s;
     frameIndex := frameIndex s; anim := anim s; intervals := intervals s;
     nextTimer := nextTimer s; statusText := statusText s;
     sliderMin := sliderMin s; sliderMax := sliderMax s;
     sliderValue := sliderValue s; playBtnText := v;
     timeLabelText := timeLabelText s; radarToggle := radarToggle s;
     rainAutoToggle := rainAutoToggle s; tzOffsetMin := tzOffsetMin s |}.

Definition set_timeLabelText (v : string) (s : State) : State :=
  {| map_ready := map_ready s; radarLayer := radarLayer s;
     radarOnMap := radarOnMap s; frames := frames s;
     frameIndex := frameIndex s; anim := anim s; intervals := intervals s;
     nextTimer := nextTimer s; statusText := statusText s;
     sliderMin := sliderMin s; sliderMax := sliderMax s;
     sliderValue := sliderValue s; playBtnText := playBtnText s;
     timeLabelText := v; radarToggle := radarToggle s;
     rainAutoToggle := rainAutoToggle s; tzOffsetMin := tzOffsetMin s |}.

Definition set_radarToggle (v : bool) (s : State) : State :=
  {| map_ready := map_ready s; radarLayer := radarLayer s;
     radarOnMap := radarOnMap s; frames := frames s;
     frameIndex := frameIndex s; anim := anim s; intervals := intervals s;
     nextTimer := nextTimer s; statusText := statusText s;
     sliderMin := sliderMin s; sliderMax := sliderMax s;
     sliderValue := sliderValue s; playBtnText := playBtnText s;
     timeLabelText := timeLabelText s; radarToggle := v;
     rainAutoToggle := rainAutoToggle s; tzOffsetMin := tzOffsetMin s |}.

Definition set_rainAutoToggle (v : bool) (s : State) : State :=
  {| map_ready := map_ready s; radarLayer := radarLayer s;
     radarOnMap := radarOnMap s; frames := frames s;
     frameIndex := frameIndex s; anim := anim s; intervals := intervals s;
     nextTimer := nextTimer s; statusText := statusText s;
     sliderMin := sliderMin s; sliderMax := sliderMax s;
     sliderValue := sliderValue s; playBtnText := playBtnText s;
     timeLabelText := timeLabelText s; radarToggle := radarToggle s;
     rainAutoToggle := v; tzOffsetMin := tzOffsetMin s |}.

Definition set_tzOffsetMin (v : Z) (s : State) : State :=
  {| map_ready := map_ready s; radarLayer := radarLayer s;
     radarOnMap := radarOnMap s; frames := frames s;
     frameIndex := frameIndex s; anim := anim s; intervals := intervals s;
     nextTimer := nextTimer s; statusText := statusText s;
     sliderMin := sliderMin s; sliderMax := sliderMax s;
     sliderValue := sliderValue s; playBtnText := playBtnText s;
     timeLabelText := timeLabelText s; radarToggle := radarToggle s;
     rainAutoToggle := rainAutoToggle s; tzOffsetMin := v |}.
(** Outcome of [await fetch(url)] followed by [await res.json()]. *)
Inductive FetchResult (A : Type) :=
| NetworkError            (* [fetch] rejects *)
| ParseError              (* [res.json()] rejects *)
| Json (data : A).
Arguments NetworkError {A}.
Arguments ParseError {A}.
Arguments Json {A} data.

Definition is_failure {A} (r : FetchResult A) : bool :=
  match r with
  | Json _ => false
  | _ => true
  end.

(** The catalog document: [{ radar: { past: [...], nowcast: [...] } }];
    the document may be [null] and each property may be absent. *)
Record RadarCatalog := {
  past : option (list RadarFrame);
  nowcast : option (list RadarFrame)
}.
Record CatalogData := {
  radar : option RadarCatalog
}.

(** Modelled from the platform: [Date.prototype.toLocaleTimeString] with
    locale fr-FR and two-digit hour and minute, which is not code of the
    script. It prints the local wall-clock time as HH:MM. *)
Definition digit (d : Z) : ascii := ascii_of_nat (48 + Z.to_nat d).
Definition two_digits (n : Z) : string :=
  String (digit (n / 10)) (String (digit (n mod 10)) EmptyString).
Definition toLocaleTimeString (offsetMin : Z) (ms : Z) : string :=
  let secs := ((ms / 1000) + offsetMin * 60) mod 86400 in
  two_digits (secs / 3600) ++ ":" ++ two_digits ((secs mod 3600) / 60).

Definition transparentPng : string :=
  "data:image/png;base64,iVBORw0KGgoAAAANSUhEUgAAAAEAAAABCAQAAAC1HAwCAAAAC0lEQVR42mP8z8AABgAD/ctB9n8AAAAASUVORK5CYII=".

(** [setInterval(cb, 700)]: arms a timer and returns its handle. *)
Definition setInterval (s : State) : positive * State :=
  let h := nextTimer s in
  (h, set_nextTimer (Pos.succ h) (set_intervals (h :: intervals s) s)).

(** [clearInterval(h)] *)
Definition clearInterval (h : positive) (s : State) : State :=
  set_intervals (List.filter (fun k => negb (Pos.eqb k h)) (intervals s)) s.

End Timeline.

(** ** Radar timeline of the variant that keeps the nowcast frames
    (tiles of 256 px, [startRadarAuto] / [stopRadarAuto]) *)

Module Part001.
Import Timeline.
Local Open Scope string_scope.

Definition tileUrl (f : RadarFrame) : string :=
  "https://tilecache.rainviewer.com" ++ path f ++ "/256/{z}/{x}/{y}/2/1_1.png".

Definition newRadarLayer (u : string) : TileLayer :=
  {| url := u; pane := "radarPane"; opacity := 0.85%float; tileSize := 256;
     zoomOffset := 0; maxNativeZoom := 7; maxZoom := 19;
     errorTileUrl := transparentPng |}.

Definition showRadarFrame (i : JsInt) (s : State) : State :=
  match at_index (frames s) i with
  | None => s                                   (* [!frames[i]] *)
  | Some f =>
      if negb (map_ready s) then s              (* [!map] *)
      else
        let u := tileUrl f in
        match radarLayer s with
        | None =>
            set_radarOnMap true (set_radarLayer (Some (newRadarLayer u)) s)
        | Some l =>
            let s1 := set_radarLayer (Some (set_url u l)) s in
            if radarToggle s1 && negb (radarOnMap s1)
            then set_radarOnMap true s1
            else s1
        end
  end.

Definition updateTimeLabel (s : State) : State :=
  match at_index (frames s) (frameIndex s) with
  | None => s
  | Some f =>
      set_timeLabelText (toLocaleTimeString (tzOffsetMin s) (time f * 1000)) s
  end.

(** [loadRadarFrames] up to its first [await]. *)
Definition loadRadarFrames_begin (s : State) : State :=
  set_statusText "Chargement radar…" s.

(** [(data && data.radar && data.radar.past) ? data.radar.past : []],
    and the same for [nowcast]. *)
Definition catalog_list (prop : RadarCatalog -> option (list RadarFrame))
    (data : option CatalogData) : list RadarFrame :=
  match data with
  | Some d =>
      match radar d with
      | Some r => match prop r with Some l => l | None => [] end
      | None => []
      end
  | None => []
  end.

(** The body of the [try] block once the request has settled. *)
Definition loadRadarFrames_try (r : FetchResult (option CatalogData)) (s : State)
  : Outcome State unit :=
  match r with
  | NetworkError => Throws "TypeError: Failed to fetch" s
  | ParseError => Throws "SyntaxError: Unexpected token" s
  | Json data =>
      let past_ := catalog_list past data in
      let nowcast_ := catalog_list nowcast data in
      let s := set_frames (past_ ++ nowcast_)%list s in
      if (length (frames s) =? 0)%nat
      then Returns tt (set_statusText "Radar indisponible" s)
      else
        let s := set_frameIndex (Int (Z.max 0 (Z.of_nat (length past_) - 1))) s in
        let s := set_sliderMin 0 s in
        let s := set_sliderMax (Z.of_nat (length (frames s)) - 1) s in
        let s := set_sliderValue (frameIndex s) s in
        let s := showRadarFrame (frameIndex s) s in
        let s := updateTimeLabel s in
        Returns tt (set_statusText "Radar prêt" s)
  end.

(** [loadRadarFrames] after the [await]s: the [try] block and its
    [catch], which reports the error and swallows it. *)
Definition loadRadarFrames_settle (r : FetchResult (option CatalogData)) (s : State)
  : Outcome State unit :=
  try_catch (loadRadarFrames_try r s)
            (fun err s' => Returns tt (set_statusText "Erreur radar" s')).

(** The callback [startRadarAuto] hands to [setInterval]. *)
Definition tick (s : State) : State :=
  let s := set_frameIndex (succ_mod (frameIndex s) (length (frames s))) s in
  let s := set_sliderValue (frameIndex s) s in
  let s := showRadarFrame (frameIndex s) s in
  updateTimeLabel s.

(** [if (anim || !frames.length) return;]: a handle is a positive
    integer, so [anim] is truthy exactly when it is not [null]. *)
Definition startRadarAuto (s : State) : State :=
  match anim s with
  | Some _ => s
  | None =>
      if (length (frames s) =? 0)%nat then s
      else
        let s := set_playBtnText "⏸" s in
        let '(h, s) := setInterval s in
        set_anim (Some h) s
  end.

Definition stopRadarAuto (s : State) : State :=
  match anim s with
  | None => s
  | Some h => set_anim None (clearInterval h s)
  end.

(** *** Event handlers *)

(** [sliderEl] "input": the browser has stored the chosen value [v]. *)
Definition onSliderInput (v : Z) (s : State) : State :=
  let s := set_sliderValue (Int v) s in
  let s := set_frameIndex (sliderValue s) s in
  let s := showRadarFrame (frameIndex s) s in
  updateTimeLabel s.

(** [playBtnEl] "click" *)
Definition onPlayClick (s : State) : State :=
  if (length (frames s) =? 0)%nat then s
  else
    match anim s with
    | Some _ =>
        let s := stopRadarAuto s in
        let s := set_rainAutoToggle false s in
        set_playBtnText "▶" s
    | None =>
        let s := set_rainAutoToggle true s in
        let s := startRadarAuto s in
        set_playBtnText "⏸" s
    end.

(** [rainAutoToggle] "change": the browser has stored [checked]. *)
Definition onRainAutoChange (checked : bool) (s : State) : State :=
  let s := set_rainAutoToggle checked s in
  if rainAutoToggle s then startRadarAuto s else stopRadarAuto s.

(** [radarToggle] "change" *)
Definition onRadarToggleChange (checked : bool) (s : State) : State :=
  let s := set_radarToggle checked s in
  match radarLayer s with
  | None => s
  | Some _ => set_radarOnMap (radarToggle s) s
  end.

(** The radar part of [initMap]: the map is created, [loadRadarFrames()]
    runs up to its [await] and [startRadarAuto()] is called at once. *)
Definition initMap (s : State) : State :=
  let s := set_map_ready true s in
  let s := loadRadarFrames_begin s in
  startRadarAuto s.

Inductive Event :=
| InitMap
| CatalogSettles (r : FetchResult (option CatalogData))
| SliderInput (v : Z)
| PlayClick
| RainAutoChange (checked : bool)
| RadarToggleChange (checked : bool)
| IntervalFires (h : positive).

Definition step (e : Event) (s : State) : State :=
  match e with
  | InitMap => initMap s
  | CatalogSettles r =>
      final_state (loadRadarFrames_settle r s)
  | SliderInput v => onSliderInput v s
  | PlayClick => onPlayClick s
  | RainAutoChange b => onRainAutoChange b s
  | RadarToggleChange b => onRadarToggleChange b s
  | IntervalFires h =>
      if existsb (Pos.eqb h) (intervals s) then tick s else s
  end.

Definition run (evs : list Event) (s : State) : State :=
  fold_left (fun st e => step e st) evs s.

(** The module-level initialisers of the script; the texts and settings
    that come from the page are left as they are in [page]. *)
Definition initial (page : State) : State :=
  set_map_ready false
    (set_radarLayer None
      (set_radarOnMap false
        (set_frames []
          (set_frameIndex (Int 0)
            (set_anim None
              (set_intervals []
                (set_nextTimer 1%positive page))))))).

(** [show(index)] of the specification: the display request followed by
    the label update, as every caller writes them. *)
Definition show (i : JsInt) (s : State) : State :=
  updateTimeLabel (showRadarFrame i s).

(** [index] lies in [0 .. n-1]. *)
Definition in_range (i : JsInt) (n : nat) : Prop :=
  match i with
  | NaN => False
  | Int z => 0 <= z < Z.of_nat n
  end.

(** The URL template the radar layer shows, if the layer exists. *)
Definition displayed_url (s : State) : option string :=
  option_map url (radarLayer s).

(** The sentence of the specification about [show], for a candidate
    reading [sh] of that operation. *)
Definition show_contract (sh : JsInt -> State -> State) : Prop :=
  forall (s : State) (i : JsInt),
    frames s <> [] ->
    (in_range i (length (frames s)) ->
     exists f, at_index (frames s) i = Some f /\
       displayed_url (sh i s) = Some (tileUrl f) /\
       timeLabelText (sh i s)
         = toLocaleTimeString (tzOffsetMin s) (time f * 1000)) /\
    (~ in_range i (length (frames s)) -> sh i s = s).

(** The second reading: the caller's assignment to [frameIndex] counted
    as part of the operation, as in the slider and tick handlers. *)
Definition show_at (i : JsInt) (s : State) : State :=
  show i (set_frameIndex i s).

(** The timer handle and the armed timers agree. *)
Definition timers_consistent (s : State) : Prop :=
  intervals s = match anim s with Some h => [h] | None => [] end.

End Part001.

(** ** Radar timeline of the variant that shows the past frames only
    (tiles of 512 px, [startAnim] / [stopAnim]) *)

Module Part000.
Import Timeline.
Local Open Scope string_scope.

(** This variant calls [showRadarFrame] but does not declare it: the
    statements that set the tile URL stand at the top level of the
    script. The call therefore throws a ReferenceError. *)
Definition showRadarFrame (i : JsInt) (s : State) : Outcome State unit :=
  Throws "ReferenceError: showRadarFrame is not defined" s.

(** [arr.slice(-12)]: the last 12 elements. *)
Definition slice_last12 {A} (arr : list A) : list A :=
  drop (length arr - 12) arr.

(** [data?.radar?.past || []] *)
Definition past_or_empty (data : option CatalogData) : list RadarFrame :=
  match data with
  | Some d =>
      match radar d with
      | Some r => match past r with Some l => l | None => [] end
      | None => []
      end
  | None => []
  end.

(** [frames[frameIndex].time] throws when the entry is [undefined]. *)
Definition updateFrameUI (s : State) : Outcome State unit :=
  if (length (frames s) =? 0)%nat then Returns tt s
  else
    match at_index (frames s) (frameIndex s) with
    | None => Throws "TypeError: cannot read properties of undefined" s
    | Some f =>
        Returns tt
          (set_timeLabelText (toLocaleTimeString (tzOffsetMin s) (time f * 1000)) s)
    end.

Definition loadRadarFrames_try (r : FetchResult (option CatalogData)) (s : State)
  : Outcome State unit :=
  match r with
  | NetworkError => Throws "TypeError: Failed to fetch" s
  | ParseError => Throws "SyntaxError: Unexpected token" s
  | Json data =>
      let s := set_frames (slice_last12 (past_or_empty data)) s in
      if (length (frames s) =? 0)%nat then Throws "Error: No radar frames" s
      else
        let s := set_frameIndex (Int (Z.of_nat (length (frames s)) - 1)) s in
        let s := set_sliderMax (Z.of_nat (length (frames s)) - 1) s in
        let s := set_sliderValue (frameIndex s) s in
        and_then (showRadarFrame (frameIndex s) s) (fun _ s =>
        and_then (updateFrameUI s) (fun _ s =>
        Returns tt (set_statusText "Radar prêt" s)))
  end.

Definition loadRadarFrames_settle (r : FetchResult (option CatalogData)) (s : State)
  : Outcome State unit :=
  try_catch (loadRadarFrames_try r s)
            (fun err s' => Returns tt (set_statusText "Erreur radar" s')).

(** The callback [startAnim] hands to [setInterval]. *)
Definition tick (s : State) : Outcome State unit :=
  let s := set_frameIndex (succ_mod (frameIndex s) (length (frames s))) s in
  let s := set_sliderValue (frameIndex s) s in
  and_then (showRadarFrame (frameIndex s) s) (fun _ s => updateFrameUI s).

(** [startAnim] does not look at [anim] before it arms a timer. *)
Definition startAnim (s : State) : State :=
  if (length (frames s) =? 0)%nat || negb (radarToggle s) then s
  else
    let s := set_playBtnText "⏸" s in
    let '(h, s) := setInterval s in
    set_anim (Some h) s.

Definition stopAnim (s : State) : State :=
  let s := match anim s with
           | Some h => clearInterval h s
           | None => s
           end in
  let s := set_anim None s in
  set_playBtnText "▶" s.

(** [playBtnEl] "click": [if (anim) stopAnim(); else startAnim();] *)
Definition onPlayClick (s : State) : State :=
  match anim s with
  | Some _ => stopAnim s
  | None => startAnim s
  end.

(** [rainAutoToggle] "change" *)
Definition onRainAutoChange (checked : bool) (s : State) : State :=
  let s := set_rainAutoToggle checked s in
  if negb (rainAutoToggle s) then stopAnim s else s.

End Part000.

(** ** Sample data for the examples *)

Module Samples.
Import Timeline.
Local Open Scope string_scope.

Definition frame (t : Z) : RadarFrame :=
  {| time := t; path := "/v2/radar/" ++ two_digits (t / 600 mod 100) |}.

(** Ten past frames, ten minutes apart, and two nowcast frames. *)
Definition past10 : list RadarFrame :=
  List.map (fun k => frame (1700000000 + 600 * k)) [0; 1; 2; 3; 4; 5; 6; 7; 8; 9].
Definition nowcast2 : list RadarFrame :=
  List.map (fun k => frame (1700000000 + 600 * k)) [10; 11].

(** The page before the script has run. *)
Definition page : State :=
  {| map_ready := false; radarLayer := None; radarOnMap := false;
     frames := []; frameIndex := Int 0; anim := None; intervals := [];
     nextTimer := 1%positive; statusText := EmptyString;
     sliderMin := 0; sliderMax := 0; sliderValue := Int 0;
     playBtnText := "⏸"; timeLabelText := "--:--";
     radarToggle := true; rainAutoToggle := true; tzOffsetMin := 60 |}.

Definition catalog : option CatalogData :=
  Some {| radar := Some {| past := Some past10; nowcast := Some nowcast2 |} |}.

(** The state once the map is set up and the catalog has arrived. *)
Definition loaded : State :=
  Part001.run [Part001.InitMap; Part001.CatalogSettles (Json catalog)]
              (Part001.initial page).

(** A frame list is present while the variable [map] is still
    undefined. *)
Definition frames_without_map : State := set_frames past10 page.

(** Playback has been started with the play button. *)
Definition playing : State := Part001.step Part001.PlayClick loaded.

End Samples.

(** ** Particle field (section WIND of the script, the same in both
    variants) and the resize listeners of the two variants *)

Module Wind.
Import Helpers.
Local Open Scope float_scope.

Record Particle := {
  x : float;
  y : float;
  age : float
}.

(** What [fetchPointWind] returns: [{ spd, deg, u, v }]. *)
Record WindSample := {
  spd : float;
  deg : float;
  u : float;
  v : float
}.

Inductive DrawCmd :=
| FillRect (style : string) (w h : float)
| ClearRect (w h : float)
| StrokeLine (style : string) (lineWidth x0 y0 x1 y1 : float).

(** A reference to a particle object. *)
Definition loc := nat.

Record State := {
  innerWidth : float;   (* [window.innerWidth] *)
  innerHeight : float;   (* [window.innerHeight] *)
  devicePixelRatio : float;   (* [window.devicePixelRatio] *)
  dark : bool;   (* the page body has the class dark *)
  canvasWidth : float;   (* [windCanvas.width] *)
  canvasHeight : float;   (* [windCanvas.height] *)
  styleWidth : float;   (* [windCanvas.style.width], in px *)
  styleHeight : float;   (* [windCanvas.style.height], in px *)
  transformScale : float;   (* scale of the transform of [windCtx] *)
  drawn : list DrawCmd;   (* what has been painted on the canvas, oldest first *)
  windRunning : bool;
  windParticles : list loc;   (* the array, as references to its objects *)
  heap : gmap loc Particle;   (* the particle objects *)
  nextLoc : loc;   (* next reference an object creation yields *)
  windCenter : WindSample;
  random : nat -> float;   (* the values [Math.random()] returns, in call order *)
  draws : nat;   (* number of calls of [Math.random()] so far *)
  rafPending : nat   (* callbacks queued by [requestAnimationFrame] *)
}.

Definition set_innerWidth (val : float) (s : State) : State :=
  {| innerWidth := val; innerHeight := innerHeight s;
     devicePixelRatio := devicePixelRatio s; dark := dark s;
     canvasWidth := canvasWidth s; canvasHeight := canvasHeight s;
     styleWidth := styleWidth s; styleHeight := styleHeight s;
     transformScale := transformScale s; drawn := drawn s;
     windRunning := windRunning s; windParticles := windParticles s;
     heap := heap s; nextLoc := nextLoc s; windCenter := windCenter s;
     random := random s; draws := draws s; rafPending := rafPending s |}.

Definition set_innerHeight (val : float) (s : State) : State :=
  {| innerWidth := innerWidth s; innerHeight := val;
     devicePixelRatio := devicePixelRatio s; dark := dark s;
     canvasWidth := canvasWidth s; canvasHeight := canvasHeight s;
     styleWidth := styleWidth s; styleHeight := styleHeight s;
     transformScale := transformScale s; drawn := drawn s;
     windRunning := windRunning s; windParticles := windParticles s;
     heap := heap s; nextLoc := nextLoc s; windCenter := windCenter s;
     random := random s; draws := draws s; rafPending := rafPending s |}.

Definition set_devicePixelRatio (val : float) (s : State) : State :=
  {| innerWidth := innerWidth s; innerHeight := innerHeight s;
     devicePixelRatio := val; dark := dark s; canvasWidth := canvasWidth s;
     canvasHeight := canvasHeight s; styleWidth := styleWidth s;
     styleHeight := styleHeight s; transformScale := transformScale s;
     drawn := drawn s; windRunning := windRunning s;
     windParticles := windParticles s; heap := heap s;
     nextLoc := nextLoc s; windCenter := windCenter s; random := random s;
     draws := draws s; rafPending := rafPending s |}.

Definition set_dark (val : bool) (s : State) : State :=
  {| innerWidth := innerWidth s; innerHeight := innerHeight s;
     devicePixelRatio := devicePixelRatio s; dark := val;
     canvasWidth := canvasWidth s; canvasHeight := canvasHeight s;
     styleWidth := styleWidth s; styleHeight := styleHeight s;
     transformScale := transformScale s; drawn := drawn s;
     windRunning := windRunning s; windParticles := windParticles s;
     heap := heap s; nextLoc := nextLoc s; windCenter := windCenter s;
     random := random s; draws := draws s; rafPending := rafPending s |}.

Definition set_canvasWidth (val : float) (s : State) : State :=
  {| innerWidth := innerWidth s; innerHeight := innerHeight s;
     devicePixelRatio := devicePixelRatio s; dark := dark s;
     canvasWidth := val; canvasHeight := canvasHeight s;
     styleWidth := styleWidth s; styleHeight := styleHeight s;
     transformScale := transformScale s; drawn := drawn s;
     windRunning := windRunning s; windParticles := windParticles s;
     heap := heap s; nextLoc := nextLoc s; windCenter := windCenter s;
     random := random s; draws := draws s; rafPending := rafPending s |}.

Definition set_canvasHeight (val : float) (s : State) : State :=
  {| innerWidth := innerWidth s; innerHeight := innerHeight s;
     devicePixelRatio := devicePixelRatio s; dark := dark s;
     canvasWidth := canvasWidth s; canvasHeight := val;
     styleWidth := styleWidth s; styleHeight := styleHeight s;
     transformScale := transformScale s; drawn := drawn s;
     windRunning := windRunning s; windParticles := windParticles s;
     heap := heap s; nextLoc := nextLoc s; windCenter := windCenter s;
     random := random s; draws := draws s; rafPending := rafPending s |}.

Definition set_styleWidth (val : float) (s : State) : State :=
  {| innerWidth := innerWidth s; innerHeight := innerHeight s;
     devicePixelRatio := devicePixelRatio s; dark := dark s;
     canvasWidth := canvasWidth s; canvasHeight := canvasHeight s;
     styleWidth := val; styleHeight := styleHeight s;
     transformScale := transformScale s; drawn := drawn s;
     windRunning := windRunning s; windParticles := windParticles s;
     heap := heap s; nextLoc := nextLoc s; windCenter := windCenter s;
     random := random s; draws := draws s; rafPending := rafPending s |}.

Definition set_styleHeight (val : float) (s : State) : State :=
  {| innerWidth := innerWidth s; innerHeight := innerHeight s;
     devicePixelRatio := devicePixelRatio s; dark := dark s;
     canvasWidth := canvasWidth s; canvasHeight := canvasHeight s;
     styleWidth := styleWidth s; styleHeight := val;
     transformScale := transformScale s; drawn := drawn s;
     windRunning := windRunning s; windParticles := windParticles s;
     heap := heap s; nextLoc := nextLoc s; windCenter := windCenter s;
     random := random s; draws := draws s; rafPending := rafPending s |}.

Definition set_transformScale (val : float) (s : State) : State :=
  {| innerWidth := innerWidth s; innerHeight := innerHeight s;
     devicePixelRatio := devicePixelRatio s; dark := dark s;
     canvasWidth := canvasWidth s; canvasHeight := canvasHeight s;
     styleWidth := styleWidth s; styleHeight := styleHeight s;
     transformScale := val; drawn := drawn s; windRunning := windRunning s;
     windParticles := windParticles s; heap := heap s;
     nextLoc := nextLoc s; windCenter := windCenter s; random := random s;
     draws := draws s; rafPending := rafPending s |}.

Definition set_drawn (val : list DrawCmd) (s : State) : State :=
  {| innerWidth := innerWidth s; innerHeight := innerHeight s;
     devicePixelRatio := devicePixelRatio s; dark := dark s;
     canvasWidth := canvasWidth s; canvasHeight := canvasHeight s;
     styleWidth := styleWidth s; styleHeight := styleHeight s;
     transformScale := transformScale s; drawn := val;
     windRunning := windRunning s; windParticles := windParticles s;
     heap := heap s; nextLoc := nextLoc s; windCenter := windCenter s;
     random := random s; draws := draws s; rafPending := rafPending s |}.

Definition set_windRunning (val : bool) (s : State) : State :=
  {| innerWidth := innerWidth s; innerHeight := innerHeight s;
     devicePixelRatio := devicePixelRatio s; dark := dark s;
     canvasWidth := canvasWidth s; canvasHeight := canvasHeight s;
     styleWidth := styleWidth s; styleHeight := styleHeight s;
     transformScale := transformScale s; drawn := drawn s;
     windRunning := val; windParticles := windParticles s; heap := heap s;
     nextLoc := nextLoc s; windCenter := windCenter s; random := random s;
     draws := draws s; rafPending := rafPending s |}.

Definition set_windParticles (val : list loc) (s : State) : State :=
  {| innerWidth := innerWidth s; innerHeight := innerHeight s;
     devicePixelRatio := devicePixelRatio s; dark := dark s;
     canvasWidth := canvasWidth s; canvasHeight := canvasHeight s;
     styleWidth := styleWidth s; styleHeight := styleHeight s;
     transformScale := transformScale s; drawn := drawn s;
     windRunning := windRunning s; windParticles := val; heap := heap s;
     nextLoc := nextLoc s; windCenter := windCenter s; random := random s;
     draws := draws s; rafPending := rafPending s |}.

Definition set_heap (val : gmap loc Particle) (s : State) : State :=
  {| innerWidth := innerWidth s; innerHeight := innerHeight s;
     devicePixelRatio := devicePixelRatio s; dark := dark s;
     canvasWidth := canvasWidth s; canvasHeight := canvasHeight s;
     styleWidth := styleWidth s; styleHeight := styleHeight s;
     transformScale := transformScale s; drawn := drawn s;
     windRunning := windRunning s; windParticles := windParticles s;
     heap := val; nextLoc := nextLoc s; windCenter := windCenter s;
     random := random s; draws := draws s; rafPending := rafPending s |}.

Definition set_nextLoc (val : loc) (s : State) : State :=
  {| innerWidth := innerWidth s; innerHeight := innerHeight s;
     devicePixelRatio := devicePixelRatio s; dark := dark s;
     canvasWidth := canvasWidth s; canvasHeight := canvasHeight s;
     styleWidth := styleWidth s; styleHeight := styleHeight s;
     transformScale := transformScale s; drawn := drawn s;
     windRunning := windRunning s; windParticles := windParticles s;
     heap := heap s; nextLoc := val; windCenter := windCenter s;
     random := random s; draws := draws s; rafPending := rafPending s |}.

Definition set_windCenter (val : WindSample) (s : State) : State :=
  {| innerWidth := innerWidth s; innerHeight := innerHeight s;
     devicePixelRatio := devicePixelRatio s; dark := dark s;
     canvasWidth := canvasWidth s; canvasHeight := canvasHeight s;
     styleWidth := styleWidth s; styleHeight := styleHeight s;
     transformScale := transformScale s; drawn := drawn s;
     windRunning := windRunning s; windParticles := windParticles s;
     heap := heap s; nextLoc := nextLoc s; windCenter := val;
     random := random s; draws := draws s; rafPending := rafPending s |}.

Definition set_random (val : nat -> float) (s : State) : State :=
  {| innerWidth := innerWidth s; innerHeight := innerHeight s;
     devicePixelRatio := devicePixelRatio s; dark := dark s;
     canvasWidth := canvasWidth s; canvasHeight := canvasHeight s;
     styleWidth := styleWidth s; styleHeight := styleHeight s;
     transformScale := transformScale s; drawn := drawn s;
     windRunning := windRunning s; windParticles := windParticles s;
     heap := heap s; nextLoc := nextLoc s; windCenter := windCenter s;
     random := val; draws := draws s; rafPending := rafPending s |}.

Definition set_draws (val : nat) (s : State) : State :=
  {| innerWidth := innerWidth s; innerHeight := innerHeight s;
     devicePixelRatio := devicePixelRatio s; dark := dark s;
     canvasWidth := canvasWidth s; canvasHeight := canvasHeight s;
     styleWidth := styleWidth s; styleHeight := styleHeight s;
     transformScale := transformScale s; drawn := drawn s;
     windRunning := windRunning s; windParticles := windParticles s;
     heap := heap s; nextLoc := nextLoc s; windCenter := windCenter s;
     random := random s; draws := val; rafPending := rafPending s |}.

Definition set_rafPending (val : nat) (s : State) : State :=
  {| innerWidth := innerWidth s; innerHeight := innerHeight s;
     devicePixelRatio := devicePixelRatio s; dark := dark s;
     canvasWidth := canvasWidth s; canvasHeight := canvasHeight s;
     styleWidth := styleWidth s; styleHeight := styleHeight s;
     transformScale := transformScale s; drawn := drawn s;
     windRunning := windRunning s; windParticles := windParticles s;
     heap := heap s; nextLoc := nextLoc s; windCenter := windCenter s;
     random := random s; draws := draws s; rafPending := val |}.
(** [Math.floor] on a binary64 value. *)
Definition Math_floor (a : float) : float :=
  match Prim2SF a with
  | S754_finite sgn m e =>
      if (0 <=? e)%Z then a
      else
        let q := Z.shiftr (Z.pos m) (- e) in
        let exact := (Z.shiftl q (- e) =? Z.pos m)%Z in
        let n := if sgn then (if exact then q else q + 1)%Z else q in
        let f := PrimFloat.of_uint63 (Uint63.of_Z n) in
        if sgn then - f else f
  | _ => a
  end.

(** [a || 1] on a number *)
Definition or_one (a : float) : float :=
  if PrimFloat.is_nan a || PrimFloat.is_zero a then 1 else a.

(** [newParticle]: three calls of [Math.random()], in the order of the
    object literal. *)
Definition newParticle (s : State) : Particle * State :=
  let k := draws s in
  ({| x := random s k * innerWidth s;
      y := random s (k + 1)%nat * innerHeight s;
      age := random s (k + 2)%nat * 120 |},
   set_draws (k + 3)%nat s).

(** [windParticles.push(newParticle())]: the new object gets a
    reference of its own. *)
Definition push_new (s : State) : State :=
  let '(p, s) := newParticle s in
  let l := nextLoc s in
  let s := set_heap (<[l := p]> (heap s)) s in
  let s := set_nextLoc (S l) s in
  set_windParticles (windParticles s ++ [l]) s.

Fixpoint repeat_push (count : nat) (s : State) : State :=
  match count with
  | O => s
  | S c => repeat_push c (push_new s)
  end.

Definition count : nat := 650.

Definition initParticles (s : State) : State :=
  repeat_push count (set_windParticles [] s).

Definition clearCanvas (s : State) : State :=
  set_drawn (drawn s ++ [ClearRect (innerWidth s) (innerHeight s)]) s.

(** The new position and age of a particle, before the respawn test. *)
Definition advect (w : WindSample) (speedFactor : float) (p : Particle) : Particle :=
  {| x := x p + (u w * 0.07) * speedFactor;
     y := y p + (v w * -0.07) * speedFactor;
     age := age p + 1 |}.

(** The respawn test of the loop. *)
Definition expired (s : State) (p : Particle) : bool :=
  (x p <? 0) || (innerWidth s <? x p) || (y p <? 0) || (innerHeight s <? y p)
  || (150 <? age p).

(** The body of [for (const p of windParticles)] for the object [l]:
    the fields of the object are assigned in place, and a respawn copies
    the fields of a new particle into the same object
    ([Object.assign(p, newParticle())]). *)
Definition stepParticle (style : string) (speedFactor : float)
    (s : State) (l : loc) : State :=
  match heap s !! l with
  | None => s
  | Some p0 =>
      let p := advect (windCenter s) speedFactor p0 in
      let s := set_heap (<[l := p]> (heap s)) s in
      let s := set_drawn (drawn s ++ [StrokeLine style 1 (x p0) (y p0) (x p) (y p)]) s in
      if expired s p
      then let '(q, s) := newParticle s in set_heap (<[l := q]> (heap s)) s
      else s
  end.

Definition loopParticles (s : State) : State :=
  if negb (windRunning s) then s
  else
    let fill := if dark s then "rgba(0,0,0,0.10)"%string
                else "rgba(255,255,255,0.10)"%string in
    let s := set_drawn (drawn s ++ [FillRect fill (innerWidth s) (innerHeight s)]) s in
    let style := windColor (spd (windCenter s)) in
    let spd_ := or_zero (spd (windCenter s)) in
    let speedFactor := clamp (spd_ / 25) 0.2 2.6 in
    let s := fold_left (stepParticle style speedFactor) (windParticles s) s in
    set_rafPending (S (rafPending s)) s.

Definition startWindParticles (s : State) : State :=
  let s := set_windRunning true s in
  let s := initParticles s in
  loopParticles s.

Definition stopWindParticles (s : State) : State :=
  let s := set_windRunning false s in
  let s := set_windParticles [] s in
  clearCanvas s.

(** The browser runs one queued animation-frame callback. *)
Definition animationFrame (s : State) : State :=
  match rafPending s with
  | O => s
  | S k => loopParticles (set_rafPending k s)
  end.

(** [refreshCenterWind] once its sample has arrived: [if (w) windCenter = w]. *)
Definition refreshCenterWind_settle (w : option WindSample) (s : State) : State :=
  match w with
  | Some w => set_windCenter w s
  | None => s
  end.

(** The browser has given the window a new size. *)
Definition windowResized (w h : float) (s : State) : State :=
  set_innerHeight h (set_innerWidth w s).

(** Assigning the width or height of a canvas clears it. *)
Definition set_canvas_size (w h : float) (s : State) : State :=
  set_drawn [] (set_canvasHeight h (set_canvasWidth w s)).

(** *** Variant with 512 px tiles *)

Definition resizeCanvas (s : State) : State :=
  set_canvas_size (innerWidth s) (innerHeight s) s.

(** Its "resize" listener:
    [() => { resizeCanvas(); if (windRunning) initParticles(); }] *)
Definition resizeListener000 (s : State) : State :=
  let s := resizeCanvas s in
  if windRunning s then initParticles s else s.

(** *** Variant with 256 px tiles *)

Definition resizeWindCanvas (s : State) : State :=
  let dpr := or_one (devicePixelRatio s) in
  let s := set_canvas_size (Math_floor (innerWidth s * dpr))
                           (Math_floor (innerHeight s * dpr)) s in
  let s := set_styleWidth (innerWidth s) s in
  let s := set_styleHeight (innerHeight s) s in
  set_transformScale dpr s.

(** Its "resize" listener is [resizeWindCanvas] itself. *)
Definition resizeListener001 (s : State) : State := resizeWindCanvas s.

(** The particle drawn as number [k] by an initialisation that starts
    after [d] calls of [Math.random()], in a window of [w] by [h]. *)
Definition drawn_particle (rnd : nat -> float) (d : nat) (w h : float) (k : nat)
  : Particle :=
  {| x := rnd (d + 3 * k)%nat * w;
     y := rnd (d + 3 * k + 1)%nat * h;
     age := rnd (d + 3 * k + 2)%nat * 120 |}.

(** Every reference of the pool leads to an object. *)
Definition pool_valid (s : State) : Prop :=
  forall l, l ∈ windParticles s -> is_Some (heap s !! l).

End Wind.

(** ** Sample data for the particle field *)

Module WindSamples.
Import Wind.
Local Open Scope float_scope.

(** A fixed sequence in [0, 1) standing for [Math.random()]. *)
Definition pseudo_random (k : nat) : float :=
  PrimFloat.of_uint63 (Uint63.of_Z ((Z.of_nat k * 7919 + 13) mod 1000)) / 1000.

(** A window of 1280 by 720 px with an east wind of 12 km/h, before the
    particle field is started. *)
Definition page : State :=
  {| innerWidth := 1280; innerHeight := 720; devicePixelRatio := 1.5;
     dark := false; canvasWidth := 1280; canvasHeight := 720;
     styleWidth := 1280; styleHeight := 720; transformScale := 1;
     drawn := []; windRunning := false; windParticles := []; heap := ∅;
     nextLoc := O; windCenter := {| spd := 12; deg := 90; u := -12; v := 0 |};
     random := pseudo_random; draws := O; rafPending := O |}.

(** The field is running with a pool of a single particle that has
    reached the age of 150. *)
Definition one_old_particle : State :=
  set_windRunning true
    (set_windParticles [O]
      (set_nextLoc 1%nat
        (set_heap {[ O := {| x := 100; y := 100; age := 150 |} ]} page))).

End WindSamples.

(** ** Glyph layers: wind arrows and rain direction *)

Module Glyph.
Import Helpers.
Local Open Scope float_scope.

Inductive Kind :=
| wind
| rain.

(** A marker with the arguments its icon was built from. *)
Record Marker := {
  lat : float;
  lon : float;
  icon_spd : float;
  icon_deg : float;
  icon_kind : Kind
}.

(** [map.getBounds()] *)
Record Bounds := {
  south : float;
  north : float;
  west : float;
  east : float
}.

(** The identity Leaflet gives a layer. *)
Definition layer_id := nat.

Record LeafletMap := {
  layers : gset layer_id;        (* the layers that are on the map *)
  bounds : Bounds
}.

Definition removeLayer (l : layer_id) (m : LeafletMap) : LeafletMap :=
  {| layers := layers m ∖ {[ l ]}; bounds := bounds m |}.

Definition addLayer (l : layer_id) (m : LeafletMap) : LeafletMap :=
  {| layers := layers m ∪ {[ l ]}; bounds := bounds m |}.

Record State := {
  map : option LeafletMap;   (* [undefined] before [initMap] is [None] *)
  windArrowLayer : option layer_id;   (* [null] is [None] *)
  rainDirLayer : option layer_id;   (* [null] is [None] *)
  groups : gmap layer_id (list Marker);   (* the markers added to each layer group *)
  nextLayer : layer_id;   (* next identity a layer creation yields *)
  windCenter : Wind.WindSample
}.

Definition set_map (val : option LeafletMap) (s : State) : State :=
  {| map := val; windArrowLayer := windArrowLayer s;
     rainDirLayer := rainDirLayer s; groups := groups s;
     nextLayer := nextLayer s; windCenter := windCenter s |}.

Definition set_windArrowLayer (val : option layer_id) (s : State) : State :=
  {| map := map s; windArrowLayer := val; rainDirLayer := rainDirLayer s;
     groups := groups s; nextLayer := nextLayer s;
     windCenter := windCenter s |}.

Definition set_rainDirLayer (val : option layer_id) (s : State) : State :=
  {| map := map s; windArrowLayer := windArrowLayer s; rainDirLayer := val;
     groups := groups s; nextLayer := nextLayer s;
     windCenter := windCenter s |}.

Definition set_groups (val : gmap layer_id (list Marker)) (s : State) : State :=
  {| map := map s; windArrowLayer := windArrowLayer s;
     rainDirLayer := rainDirLayer s; groups := val;
     nextLayer := nextLayer s; windCenter := windCenter s |}.

Definition set_nextLayer (val : layer_id) (s : State) : State :=
  {| map := map s; windArrowLayer := windArrowLayer s;
     rainDirLayer := rainDirLayer s; groups := groups s; nextLayer := val;
     windCenter := windCenter s |}.

Definition set_windCenter (val : Wind.WindSample) (s : State) : State :=
  {| map := map s; windArrowLayer := windArrowLayer s;
     rainDirLayer := rainDirLayer s; groups := groups s;
     nextLayer := nextLayer s; windCenter := val |}.
(** [map.removeLayer(...)] on an undefined [map] throws. *)
Definition clearWindArrows (s : State) : Outcome State unit :=
  match windArrowLayer s with
  | None => Returns tt s
  | Some l =>
      match map s with
      | None => Throws "TypeError: map is undefined" s
      | Some m =>
          let s := set_map (Some (removeLayer l m)) s in
          Returns tt (set_windArrowLayer None s)
      end
  end.

Definition clearRainDirection (s : State) : Outcome State unit :=
  match rainDirLayer s with
  | None => Returns tt s
  | Some l =>
      match map s with
      | None => Throws "TypeError: map is undefined" s
      | Some m =>
          let s := set_map (Some (removeLayer l m)) s in
          Returns tt (set_rainDirLayer None s)
      end
  end.

Definition of_nat (n : nat) : float := PrimFloat.of_uint63 (Uint63.of_Z (Z.of_nat n)).

(** The two nested loops that fill [pts]: rows from south to north, and
    within a row from west to east. *)
Definition lattice (nx ny : nat) (b : Bounds) : list (float * float) :=
  List.flat_map (fun yy =>
    List.map (fun xx =>
      (south b + (north b - south b) * (of_nat yy / of_nat (ny - 1)),
       west b + (east b - west b) * (of_nat xx / of_nat (nx - 1))))
      (seq 0 nx))
    (seq 0 ny).

(** [L.layerGroup([], ...).addTo(map)] *)
Definition new_group_on_map (m : LeafletMap) (s : State) : layer_id * State :=
  let l := nextLayer s in
  let s := set_nextLayer (S l) s in
  let s := set_groups (<[l := []]> (groups s)) s in
  (l, set_map (Some (addLayer l m)) s).

(** [L.marker(...).addTo(group)] *)
Definition add_marker (l : layer_id) (mk : Marker) (s : State) : State :=
  set_groups (<[l := default [] (groups s !! l) ++ [mk]]> (groups s)) s.

Definition drawRainDirection (s : State) : Outcome State unit :=
  match map s with
  | None => Returns tt s
  | Some _ =>
      and_then (clearRainDirection s) (fun _ s =>
        match map s with
        | None => Throws "TypeError: map is undefined" s
        | Some m =>
            let pts := lattice 7 5 (bounds m) in
            let '(l, s) := new_group_on_map m s in
            let s := set_rainDirLayer (Some l) s in
            Returns tt
              (fold_left (fun s p =>
                 add_marker l
                   {| lat := fst p; lon := snd p;
                      icon_spd := Math_max 10 (Wind.spd (windCenter s));
                      icon_deg := Wind.deg (windCenter s);
                      icon_kind := rain |} s)
                 pts s)
        end)
  end.

(** [drawWindArrows] up to its first [await]: the old layer is cleared,
    the lattice computed and an empty layer group put on the map. *)
Definition drawWindArrows_begin (s : State)
  : Outcome State (list (float * float)) :=
  match map s with
  | None => Returns [] s
  | Some _ =>
      and_then (clearWindArrows s) (fun _ s =>
        match map s with
        | None => Throws "TypeError: map is undefined" s
        | Some m =>
            let pts := lattice 9 6 (bounds m) in
            let '(l, s) := new_group_on_map m s in
            Returns pts (set_windArrowLayer (Some l) s)
        end)
  end.

(** The two layer kinds side by side. *)
Definition clear (k : Kind) : State -> Outcome State unit :=
  match k with
  | wind => clearWindArrows
  | rain => clearRainDirection
  end.

Definition layer_ref (k : Kind) : State -> option layer_id :=
  match k with
  | wind => windArrowLayer
  | rain => rainDirLayer
  end.

Definition layers_on_map (s : State) : option (gset layer_id) :=
  option_map layers (map s).

End Glyph.

Module GlyphSamples.
Import Glyph.
Local Open Scope float_scope.

(** A map over northern France, no glyph layer yet. *)
Definition page : State :=
  {| map := Some {| layers := {[ O ]};
                    bounds := {| south := 48; north := 50; west := 1; east := 4 |} |};
     windArrowLayer := None; rainDirLayer := None; groups := ∅;
     nextLayer := 1%nat;
     windCenter := {| Wind.spd := 12; Wind.deg := 90; Wind.u := -12; Wind.v := 0 |} |}.

(** The rain-direction layer has been drawn. *)
Definition with_rain : State := final_state (drawRainDirection page).

(** The wind-arrow layer has been started on top of it. *)
Definition with_both : State := final_state (drawWindArrows_begin with_rain).

(** The map in that state: the base layer 0 and the two glyph layers. *)
Definition map_with_both : LeafletMap :=
  {| layers := {[ O; 1%nat; 2%nat ]};
     bounds := {| south := 48; north := 50; west := 1; east := 4 |} |}.

End GlyphSamples.

(** ** Forecast helpers: the wind peak of the coming hours *)

Module Forecast.
Import Helpers.
Local Open Scope float_scope.

(** [{ minutes, kmh }] *)
Record Peak := {
  minutes : Z;
  kmh : float
}.

(** The loop of [findWindPeakSoon] over the entries it visits, from
    index [i] on; [best] is [(best.i, best.kmh)]. *)
Fixpoint scan (arr : list float) (i : nat) (best : nat * float) : nat * float :=
  match arr with
  | [] => best
  | a :: rest => scan rest (S i) (if gt a (snd best) then (i, a) else best)
  end.

(** [findWindPeakSoon]: [null] ([None]) for an empty array; otherwise
    the loop runs over the first [Math.min(arr.length, 6)] entries. *)
Definition findWindPeakSoon (arr : list float) : option Peak :=
  match arr with
  | [] => None
  | a0 :: _ =>
      let best := scan (take 6 arr) 0 (O, a0) in
      Some {| minutes := Z.of_nat (fst best) * 60; kmh := snd best |}
  end.

End Forecast.

(** ** More vocabulary for [escapeHtml] *)

Module EscapeMore.
Import Helpers.
Local Open Scope string_scope.

(** The characters [escapeHtml] rewrites. *)
Definition is_meta (c : ascii) : bool :=
  Ascii.eqb c ch_amp || Ascii.eqb c ch_lt || Ascii.eqb c ch_gt
  || Ascii.eqb c ch_dquote || Ascii.eqb c ch_squote.

Fixpoint count_meta (s : string) : nat :=
  match s with
  | EmptyString => O
  | String a rest => ((if is_meta a then 1 else 0) + count_meta rest)%nat
  end.

(** A reader for the output of [escapeHtml]: each of the five entities
    gives back its character, any other character stands for itself. *)
Fixpoint unescape (s : string) : string :=
  match s with
  | String "&" (String "a" (String "m" (String "p" (String ";" r)))) =>
      String ch_amp (unescape r)
  | String "&" (String "l" (String "t" (String ";" r))) =>
      String ch_lt (unescape r)
  | String "&" (String "g" (String "t" (String ";" r))) =>
      String ch_gt (unescape r)
  | String "&" (String "q" (String "u" (String "o" (String "t" (String ";" r))))) =>
      String ch_dquote (unescape r)
  | String "&" (String "#" (String "0" (String "3" (String "9" (String ";" r))))) =>
      String ch_squote (unescape r)
  | String a r => String a (unescape r)
  | EmptyString => EmptyString
  end.

End EscapeMore.

(** ** Vocabulary for the timeline as a whole *)

Module TimelineSpec.
Import Timeline Part001.

(** What the browser and the script guarantee about the events they
    deliver: a range input reports a value within its bounds, and the
    catalog request, which [initMap] issues after it has created the
    map, settles after that. *)
Definition admissible (e : Event) (s : State) : Prop :=
  match e with
  | SliderInput v => sliderMin s <= v <= sliderMax s
  | CatalogSettles _ => map_ready s = true
  | _ => True
  end.

Fixpoint admissible_run (evs : list Event) (s : State) : Prop :=
  match evs with
  | [] => True
  | e :: rest => admissible e s /\ admissible_run rest (step e s)
  end.

(** The cursor, the slider, the label and the tile layer agree with
    the frame list. *)
Definition in_sync (s : State) : Prop :=
  frames s = [] \/
  exists (z : Z) (f : RadarFrame),
    map_ready s = true /\
    frameIndex s = Int z /\
    0 <= z < Z.of_nat (length (frames s)) /\
    at_index (frames s) (Int z) = Some f /\
    sliderMin s = 0 /\
    sliderMax s = Z.of_nat (length (frames s)) - 1 /\
    sliderValue s = Int z /\
    timeLabelText s = toLocaleTimeString (tzOffsetMin s) (time f * 1000) /\
    displayed_url s = Some (tileUrl f).

(** A session: the map is set up, the catalog arrives, the user starts
    playback, the timer fires twice and the user drags the slider. *)
Definition session : list Event :=
  [InitMap; CatalogSettles (Json Samples.catalog); PlayClick;
   IntervalFires 1%positive; IntervalFires 1%positive; SliderInput 3].

End TimelineSpec.

(** ** The particle field under the events of the page *)

Module WindEvents.
Import Wind.

(** The click handler of the theme button in the variant with 512 px
    tiles: the theme flips and a running field starts over on a cleared
    canvas. *)
Definition themeClick000 (s : State) : State :=
  let s := set_dark (negb (dark s)) s in
  if windRunning s then initParticles (clearCanvas s) else s.

(** The same handler in the other variant only flips the theme. *)
Definition themeClick001 (s : State) : State :=
  set_dark (negb (dark s)) s.

(** [windParticlesToggle] "change" *)
Definition onParticlesToggle (checked : bool) (s : State) : State :=
  if checked then startWindParticles s else stopWindParticles s.

Inductive Event :=
| ParticlesToggle (checked : bool)
| AnimationFrame
| Resized000 (w h : float)
| Resized001 (w h : float)
| ThemeClick000
| ThemeClick001
| CenterWindSettles (w : option WindSample).

Definition step (e : Event) (s : State) : State :=
  match e with
  | ParticlesToggle b => onParticlesToggle b s
  | AnimationFrame => animationFrame s
  | Resized000 w h => resizeListener000 (windowResized w h s)
  | Resized001 w h => resizeListener001 (windowResized w h s)
  | ThemeClick000 => themeClick000 s
  | ThemeClick001 => themeClick001 s
  | CenterWindSettles w => refreshCenterWind_settle w s
  end.

Definition run (evs : list Event) (s : State) : State :=
  fold_left (fun st e => step e st) evs s.

(** While the field runs its pool holds 650 distinct objects; while it
    does not, the pool is empty. *)
Definition pool_ok (s : State) : Prop :=
  (windRunning s = true ->
     length (windParticles s) = count /\ NoDup (windParticles s) /\ pool_valid s) /\
  (windRunning s = false -> windParticles s = []).

End WindEvents.

(** ** Wind arrows: the batches of [drawWindArrows] *)

Module Arrows.
Import Glyph.

(** The slices [pts.slice(i, i + size)] for [i = 0, size, 2 size, ...]
    while [i < pts.length]; the list gets shorter with every slice, so
    its length bounds the number of rounds. *)
Fixpoint batches_from {A} (rounds size : nat) (pts : list A) : list (list A) :=
  match rounds with
  | O => []
  | S r =>
      match pts with
      | [] => []
      | _ => take size pts :: batches_from r size (drop size pts)
      end
  end.

Definition batches {A} (size : nat) (pts : list A) : list (list A) :=
  batches_from (length pts) size pts.

Definition batchSize : nat := 8.

(** The marker drawn for a lattice point: [if (!w) w = windCenter]. *)
Definition marker_for (center : Wind.WindSample) (p : float * float)
    (w : option Wind.WindSample) : Marker :=
  let w := default center w in
  {| lat := fst p; lon := snd p;
     icon_spd := Wind.spd w; icon_deg := Wind.deg w; icon_kind := wind |}.

(** [L.marker(...).addTo(windArrowLayer)]: the variable is read when the
    marker is added, and adding to [null] throws. *)
Definition add_arrow (p : float * float) (w : option Wind.WindSample)
    (s : State) : Outcome State unit :=
  match windArrowLayer s with
  | None => Throws "TypeError: windArrowLayer is null" s
  | Some l => Returns tt (add_marker l (marker_for (windCenter s) p w) s)
  end.

(** [res.forEach(...)] once the samples of a batch have settled; [res]
    holds [null] for a sample that failed. *)
Fixpoint drawWindArrows_batch (batch : list (float * float))
    (res : list (option Wind.WindSample)) (s : State) : Outcome State unit :=
  match batch, res with
  | p :: batch', w :: res' =>
      and_then (add_arrow p w s) (fun _ s => drawWindArrows_batch batch' res' s)
  | _, _ => Returns tt s
  end.

(** The loop over the batches when nothing else happens in between;
    [sample p] is what [fetchPointWind] resolves to for the point [p]. *)
Fixpoint drawWindArrows_loop (sample : float * float -> option Wind.WindSample)
    (bs : list (list (float * float))) (s : State) : Outcome State unit :=
  match bs with
  | [] => Returns tt s
  | b :: rest =>
      and_then (drawWindArrows_batch b (List.map sample b) s)
               (fun _ s => drawWindArrows_loop sample rest s)
  end.

Definition drawWindArrows (sample : float * float -> option Wind.WindSample)
    (s : State) : Outcome State unit :=
  and_then (drawWindArrows_begin s)
           (fun pts s => drawWindArrows_loop sample (batches batchSize pts) s).

(** The map after a layer has been replaced by a new one. *)
Definition replaced (old : option layer_id) (new : layer_id)
    (ls : gset layer_id) : gset layer_id :=
  match old with
  | Some l => (ls ∖ {[ l ]}) ∪ {[ new ]}
  | None => ls ∪ {[ new ]}
  end.

(** The marker of the rain-direction layer at a lattice point. *)
Definition rain_marker (center : Wind.WindSample) (p : float * float) : Marker :=
  {| lat := fst p; lon := snd p;
     icon_spd := Helpers.Math_max 10 (Wind.spd center);
     icon_deg := Wind.deg center; icon_kind := rain |}.

(** What adding markers to one group leaves alone. *)
Definition only_group_changed (l : layer_id) (s s' : State) : Prop :=
  map s' = map s /\ windArrowLayer s' = windArrowLayer s /\
  rainDirLayer s' = rainDirLayer s /\ nextLayer s' = nextLayer s /\
  windCenter s' = windCenter s /\
  forall l', l' <> l -> groups s' !! l' = groups s !! l'.

(** A sampler for the examples: the points of the southern edge fail. *)
Definition flaky (p : float * float) : option Wind.WindSample :=
  if PrimFloat.leb (fst p) 48
  then None
  else Some {| Wind.spd := fst p; Wind.deg := 270; Wind.u := fst p; Wind.v := 0 |}.

(** A batch of eight lattice points over the sample map: the last two
    points of the southern row, whose samples fail, and the first six of
    the next row. *)
Definition batch8 : list (float * float) :=
  take 8 (drop 7 (lattice 9 6 (bounds GlyphSamples.map_with_both))).

End Arrows.

(** ** Base-map switch *)

Module Basemap.

Record State := {
  map : option (gset Glyph.layer_id);   (* the layers on the map; [undefined] is [None] *)
  baseOSM : Glyph.layer_id;
  baseSat : Glyph.layer_id;
  bmOsm_active : bool;   (* [bmOsm.classList] has "active" *)
  bmSat_active : bool    (* [bmSat.classList] has "active" *)
}.

Definition hasLayer (l : Glyph.layer_id) (m : gset Glyph.layer_id) : bool :=
  bool_decide (l ∈ m).

(** [if (map.hasLayer(a)) map.removeLayer(a); if (!map.hasLayer(b)) b.addTo(map);] *)
Definition swap_layers (a b : Glyph.layer_id) (m : gset Glyph.layer_id)
  : gset Glyph.layer_id :=
  let m := if hasLayer a m then m ∖ {[ a ]} else m in
  if negb (hasLayer b m) then m ∪ {[ b ]} else m.

Definition setBasemap (which : string) (s : State) : State :=
  match map s with
  | None => s
  | Some m =>
      if String.eqb which "osm" then
        {| map := Some (swap_layers (baseSat s) (baseOSM s) m);
           baseOSM := baseOSM s; baseSat := baseSat s;
           bmOsm_active := true; bmSat_active := false |}
      else
        {| map := Some (swap_layers (baseOSM s) (baseSat s) m);
           baseOSM := baseOSM s; baseSat := baseSat s;
           bmOsm_active := false; bmSat_active := true |}
  end.

(** The layer a call selects and the one it retires. *)
Definition chosen (which : string) (s : State) : Glyph.layer_id :=
  if String.eqb which "osm" then baseOSM s else baseSat s.

Definition retired (which : string) (s : State) : Glyph.layer_id :=
  if String.eqb which "osm" then baseSat s else baseOSM s.

(** A page after [initMap]: the street map is on, with a marker and a
    radar layer beside it. *)
Definition page : State :=
  {| map := Some ({[ 1%nat ]} ∪ {[ 3%nat ]} ∪ {[ 4%nat ]});
     baseOSM := 1%nat; baseSat := 2%nat;
     bmOsm_active := true; bmSat_active := false |}.

End Basemap.

(** ** Theme button *)

Module Theme.

Record State := {
  dark : bool;                  (* [document.body.classList] has "dark" *)
  rt_theme : option string;     (* [localStorage.getItem("rt_theme")], [null] is [None] *)
  themeBtnText : string
}.

Definition sun : string := "☀️".
Definition moon : string := "🌙".

Definition saved_is (saved : option string) (v : string) : bool :=
  match saved with
  | Some x => String.eqb x v
  | None => false
  end.

(** The variant with 256 px tiles: a saved "dark" adds the class, nothing
    removes it, and the button shows the theme a click would give. *)
Definition initTheme001 (s : State) : State :=
  let d := if saved_is (rt_theme s) "dark" then true else dark s in
  {| dark := d; rt_theme := rt_theme s;
     themeBtnText := if d then sun else moon |}.

Definition themeClick001 (s : State) : State :=
  let d := negb (dark s) in
  {| dark := d;
     rt_theme := Some (if d then "dark" else "light")%string;
     themeBtnText := if d then sun else moon |}.

(** [!saved]: [null] and the empty string *)
Definition no_pref (saved : option string) : bool :=
  match saved with
  | None => true
  | Some x => String.eqb x EmptyString
  end.

(** The variant with 512 px tiles: a saved "light" removes the class, and
    without a saved choice the page goes dark from 20 h to 6 h. [hour] is
    [new Date().getHours()]. *)
Definition initTheme000 (hour : Z) (s : State) : State :=
  let d := if saved_is (rt_theme s) "dark" then true else dark s in
  let d := if saved_is (rt_theme s) "light" then false else d in
  let d := if no_pref (rt_theme s) && ((20 <=? hour) || (hour <=? 6))
           then true else d in
  {| dark := d; rt_theme := rt_theme s; themeBtnText := themeBtnText s |}.

Definition themeClick000 (s : State) : State :=
  let d := negb (dark s) in
  {| dark := d;
     rt_theme := Some (if d then "dark" else "light")%string;
     themeBtnText := themeBtnText s |}.

(** Loading the page again: the markup decides the class and the text,
    the storage stays. *)
Definition reload (markup_dark : bool) (markup_text : string) (s : State) : State :=
  {| dark := markup_dark; rt_theme := rt_theme s; themeBtnText := markup_text |}.

End Theme.

(** ** Short names *)

Module Names.

(** A JavaScript string as the sequence of its UTF-16 code units, the
    unit [length] and [slice] count in. *)
Definition JsString := list N.

Definition comma : N := 44.        (* "," *)
Definition ellipsis : N := 8230.   (* "…" *)

(** [t.split(",")[0]]: what stands before the first comma, all of [t]
    when it has none. *)
Fixpoint before_comma (t : JsString) : JsString :=
  match t with
  | [] => []
  | c :: rest => if N.eqb c comma then [] else c :: before_comma rest
  end.

(** [s || ""]: [null], [undefined] and the empty string give the empty
    string. *)
Definition or_empty (s : option JsString) : JsString :=
  match s with
  | Some t => t
  | None => []
  end.

Definition shortName (s : option JsString) : JsString :=
  let t := before_comma (or_empty s) in
  if (22 <? length t)%nat then take 22 t ++ [ellipsis] else t.

End Names.

(** ** Bands of the legend *)

Module Bands.
Local Open Scope float_scope.

Definition rainCategory (mmPerH : float) : string :=
  if PrimFloat.leb mmPerH 0.2 then "faible"%string
  else if PrimFloat.leb mmPerH 2 then "modérée"%string
  else if PrimFloat.leb mmPerH 10 then "forte"%string
  else "très forte"%string.

Definition windCategory (kmh : float) : string :=
  if PrimFloat.leb kmh 15 then "calme"%string
  else if PrimFloat.leb kmh 35 then "modéré"%string
  else if PrimFloat.leb kmh 60 then "fort"%string
  else "très fort"%string.

Definition snowCategory (cmPerH : float) : string :=
  if PrimFloat.leb cmPerH 0.2 then "faible"%string
  else if PrimFloat.leb cmPerH 1 then "modérée"%string
  else if PrimFloat.leb cmPerH 3 then "forte"%string
  else "très forte"%string.

(** The place of a label in its scale, from the mildest (0) to the
    strongest (3). *)
Definition severity (label : string) : nat :=
  if String.eqb label "calme" || String.eqb label "faible" then 0
  else if String.eqb label "modéré" || String.eqb label "modérée" then 1
  else if String.eqb label "fort" || String.eqb label "forte" then 2
  else 3.

End Bands.

(** ** Favorites *)

Module Favorites.
Local Open Scope float_scope.

Record Fav := {
  name : string;
  lat : float;
  lon : float
}.

(** What [localStorage] holds under [FAV_KEY]. Arrays are those
    [setFavs] wrote: [JSON.stringify] and [JSON.parse] give the names
    and the finite coordinates back unchanged. *)
Inductive Stored :=
| Absent                       (* [getItem] gives [null] or the empty string *)
| Unparseable                  (* [JSON.parse] throws *)
| Array (favs : list Fav)
| NotArray.                    (* JSON of another shape *)

Record State := {
  store : Stored;
  favList : list Fav;                (* the chips of [favList], by the favorite each shows *)
  toasts : list Toasts.ToastArgs     (* the toasts pushed, oldest first *)
}.

Definition set_store (val : Stored) (s : State) : State :=
  {| store := val; favList := favList s; toasts := toasts s |}.

Definition set_favList (val : list Fav) (s : State) : State :=
  {| store := store s; favList := val; toasts := toasts s |}.

Definition pushToast (t : Toasts.ToastArgs) (s : State) : State :=
  {| store := store s; favList := favList s; toasts := toasts s ++ [t] |}.

(** [getFavs]: [None] stands for a parsed value that is no array. *)
Definition getFavs (s : State) : option (list Fav) :=
  match store s with
  | Absent => Some []
  | Unparseable => Some []
  | Array favs => Some favs
  | NotArray => None
  end.

Definition setFavs (favs : list Fav) (s : State) : State :=
  set_store (Array favs) s.

(** [favList.innerHTML = ""; favs.forEach(f => ... favList.appendChild(chip))] *)
Definition renderFavs (s : State) : Outcome State unit :=
  match getFavs s with
  | None => Throws "TypeError: favs.forEach is not a function" (set_favList [] s)
  | Some favs => Returns tt (set_favList favs s)
  end.

Section Distance.

(** The great-circle distance of the script, in kilometres. *)
Variable distKm : float -> float -> float -> float -> float.

(** [x => distKm(x.lat, x.lon, lat, lon) > d] *)
Definition farther (d lat0 lon0 : float) (x : Fav) : bool :=
  Helpers.gt (distKm (lat x) (lon x) lat0 lon0) d.

Definition added_toast (f : Fav) : Toasts.ToastArgs :=
  {| Toasts.icon := Some "⭐"%string;
     Toasts.title := Some "Ajouté aux favoris"%string;
     Toasts.message := Some (name f);
     Toasts.time := Some "À l’instant"%string;
     Toasts.actionText := Some "Voir"%string |}.

Definition addFavorite (f : Fav) (s : State) : Outcome State unit :=
  match getFavs s with
  | None => Throws "TypeError: favs.filter is not a function" s
  | Some favs =>
      let favs := List.filter (farther 0.3 (lat f) (lon f)) favs in
      let favs := f :: favs in
      let favs := take 5 favs in
      let s := setFavs favs s in
      and_then (renderFavs s) (fun _ s =>
      Returns tt (pushToast (added_toast f) s))
  end.

Definition removeFavorite (lat0 lon0 : float) (s : State) : Outcome State unit :=
  match getFavs s with
  | None => Throws "TypeError: favs.filter is not a function" s
  | Some favs =>
      let favs := List.filter (farther 0.001 lat0 lon0) favs in
      let s := setFavs favs s in
      renderFavs s
  end.

Inductive Event :=
| Add (f : Fav)                  (* [addFavBtn] click, with the favorite it builds *)
| Remove (lat0 lon0 : float).    (* click on the cross of a chip *)

Definition step (e : Event) (s : State) : State :=
  match e with
  | Add f => final_state (addFavorite f s)
  | Remove lat0 lon0 => final_state (removeFavorite lat0 lon0 s)
  end.

Definition run (evs : list Event) (s : State) : State :=
  fold_left (fun st e => step e st) evs s.

(** Every favorite lies more than 300 m from each one saved after it
    (the list has the newest first). *)
Fixpoint spaced (favs : list Fav) : Prop :=
  match favs with
  | [] => True
  | x :: older =>
      Forall (fun y => farther 0.3 (lat x) (lon x) y = true) older /\ spaced older
  end.

(** Storage and chips agree, at most five favorites are saved, and they
    are spaced. *)
Definition consistent (s : State) : Prop :=
  exists favs : list Fav,
    getFavs s = Some favs /\ favList s = favs /\
    (length favs <= 5)%nat /\ spaced favs.

End Distance.

(** A browser that has never saved a favorite, after the first
    [renderFavs] of [initMap]. *)
Definition fresh : State :=
  {| store := Absent; favList := []; toasts := [] |}.

Definition paris : Fav := {| name := "Paris"; lat := 48.85; lon := 2.35 |}.
Definition lyon : Fav := {| name := "Lyon"; lat := 45.76; lon := 4.84 |}.

(** A stand-in distance for the examples: the larger of the two
    coordinate differences, in units of 100 km. *)
Definition grid_distance (lat1 lon1 lat2 lon2 : float) : float :=
  Helpers.Math_max (abs (lat2 - lat1)) (abs (lon2 - lon1)) * 100.

End Favorites.

(** ** Numbers and the compass *)

Module Numbers.
Local Open Scope Z_scope.

(** The binary64 value of a whole number. *)
Definition of_Z (z : Z) : float :=
  SF2Prim (binary_normalize prec emax z 0 false).

Definition signed (s : bool) (m : positive) : Z :=
  if s then Z.neg m else Z.pos m.

(** [x % y] on numbers: the remainder of the division truncated towards
    zero, exact, with the sign of the dividend. It is NaN for an infinite
    dividend and for a zero divisor, and the dividend itself for an
    infinite divisor. *)
Definition remainder (x y : float) : float :=
  match Prim2SF x, Prim2SF y with
  | S754_nan, _ => nan
  | _, S754_nan => nan
  | S754_infinity _, _ => nan
  | _, S754_zero _ => nan
  | S754_zero _, _ => x
  | S754_finite _ _ _, S754_infinity _ => x
  | S754_finite sx mx ex, S754_finite _ my ey =>
      let e := Z.min ex ey in
      let r := Z.rem (Z.pos mx * 2 ^ (ex - e)) (Z.pos my * 2 ^ (ey - e)) in
      SF2Prim (binary_normalize prec emax (if sx then - r else r) e sx)
  end.

(** [Math.round(x)]: the whole number nearest to [x], the larger one at
    a tie; a result of zero keeps the sign of [x]; NaN, the infinities
    and the zeros are returned as they are. *)
Definition Math_round (x : float) : float :=
  match Prim2SF x with
  | S754_finite s m e =>
      if 0 <=? e then x
      else
        let n := (2 * signed s m + 2 ^ (- e)) / 2 ^ (1 - e) in
        SF2Prim (binary_normalize prec emax n 0 s)
  | _ => x
  end.

(** The whole number a float stands for, if it stands for one. *)
Definition to_Z (x : float) : option Z :=
  match Prim2SF x with
  | S754_zero _ => Some 0
  | S754_finite s m e =>
      if 0 <=? e then Some (signed s m * 2 ^ e)
      else if Z.pos m mod 2 ^ (- e) =? 0
           then Some (signed s m / 2 ^ (- e))
           else None
  | _ => None
  end.

(** [arr[i]] for a number [i]: the element at an index that is a whole
    number within the array, [undefined] for any other number. *)
Definition element {A} (arr : list A) (i : float) : option A :=
  match to_Z i with
  | Some z =>
      if (0 <=? z) && (z <? Z.of_nat (length arr)) then arr !! Z.to_nat z
      else None
  | None => None
  end.

End Numbers.

Module Compass.
Import Numbers.
Local Open Scope float_scope.

Definition dirs : list string :=
  ["N"; "NNE"; "NE"; "ENE"; "E"; "ESE"; "SE"; "SSE";
   "S"; "SSW"; "SW"; "WSW"; "W"; "WNW"; "NW"; "NNW"]%string.

(** [undefined] is [None]. *)
Definition degToCardinal (deg : float) : option string :=
  let i := remainder (Math_round (remainder deg 360 / 22.5)) 16 in
  element dirs i.

Definition windFromText (deg : float) : option string := degToCardinal deg.

(** The sector a whole number of degrees falls in: the multiple of 22.5
    degrees nearest to it. *)
Definition sector (d : Z) : Z := ((4 * d + 45) / 90)%Z.

Definition agrees (d : Z) : bool :=
  bool_decide (degToCardinal (of_Z d) = dirs !! Z.to_nat (sector d mod 16)).

Definition undefined_at (d : Z) : bool :=
  bool_decide (degToCardinal (of_Z d) = None).

(** The whole numbers from [lo], [n] of them. *)
Definition range (lo : Z) (n : nat) : list Z :=
  List.map (fun i => (lo + Z.of_nat i)%Z) (seq 0 n).

End Compass.

(** ** In-site alerts *)

From Stdlib Require Import DecimalString DecimalPos DecimalZ.

Module Alerts.
Import Helpers.
Local Open Scope Z_scope.

(** [map.getCenter()] *)
Record Center := {
  lat : float;
  lng : float
}.

(** The forecast document of [checkAlerts]; an absent property is
    [None]. *)
Record Minutely := { precipitation : option (list float) }.
Record HourlyWind := { windspeed_10m : option (list float) }.
Record Data := {
  minutely_15 : option Minutely;
  hourly : option HourlyWind
}.

(** What [localStorage] holds under [ALERT_KEY]: nothing, text that does
    not parse, or the object [setAlertState] wrote, from keys to the
    time in milliseconds of the last toast. *)
Inductive Stored :=
| Absent
| Unparseable
| Object (st : gmap string Z).

(** The two toasts of [checkAlerts], by the values their texts are
    built from. *)
Inductive Alert :=
| RainSoon (startMin durationMin : Z) (totalMm : float)
| WindSoon (minutes : Z) (kmh : float).

Record State := {
  map : option Center;     (* [undefined] before [initMap] is [None] *)
  alerts : Stored;
  toasts : list Alert      (* the toasts pushed, oldest first *)
}.

Definition getAlertState (s : State) : gmap string Z :=
  match alerts s with
  | Object st => st
  | _ => ∅
  end.

Definition setAlertState (st : gmap string Z) (s : State) : State :=
  {| map := map s; alerts := Object st; toasts := toasts s |}.

Definition pushToast (a : Alert) (s : State) : State :=
  {| map := map s; alerts := alerts s; toasts := toasts s ++ [a] |}.

(** [st[key] || 0] *)
Definition last_of (st : gmap string Z) (key : string) : Z :=
  match st !! key with
  | Some t => t
  | None => 0
  end.

(** The text of a whole number in a template literal. *)
Definition decimal (z : Z) : string := NilZero.string_of_int (Z.to_int z).

(** [a ? a : []] on the arrays of the document *)
Definition rain_series (data : Data) : list float :=
  match minutely_15 data with
  | Some m => match precipitation m with Some a => a | None => [] end
  | None => []
  end.

Definition wind_series (data : Data) : list float :=
  match hourly data with
  | Some h => match windspeed_10m h with Some a => a | None => [] end
  | None => []
  end.

Section Text.

(** The text of a number in a template literal, used on the results of
    [Math.round]. *)
Variable number_text : float -> string.

Definition place (c : Center) : string :=
  (number_text (Numbers.Math_round (lat c * 100)%float) ++ "_" ++
   number_text (Numbers.Math_round (lng c * 100)%float))%string.

Definition rain_key (c : Center) (startMin : Z) : string :=
  ("rain_" ++ place c ++ "_" ++ decimal startMin)%string.

Definition wind_key (c : Center) (minutes : Z) (kmh : float) : string :=
  ("wind_" ++ place c ++ "_" ++ decimal minutes ++ "_" ++
   number_text (Numbers.Math_round kmh))%string.

(** The block "Rain soon": [st] is the local object, threaded to the
    next block. *)
Definition rain_block (c : Center) (data : Data) (now : Z)
    (st : gmap string Z) (s : State) : gmap string Z * State :=
  let ev := computeRainEvent15 (rain_series data) in
  match startMin ev with
  | Some sm =>
      if sm <=? 90 then
        let key := rain_key c sm in
        let last := last_of st key in
        if 20 * 60 * 1000 <? now - last then
          let st := <[key := now]> st in
          let s := setAlertState st s in
          (st, pushToast (RainSoon sm (durationMin ev) (totalMm ev)) s)
        else (st, s)
      else (st, s)
  | None => (st, s)
  end.

(** The block "Wind peak soon". *)
Definition wind_block (c : Center) (data : Data) (now : Z)
    (st : gmap string Z) (s : State) : gmap string Z * State :=
  match Forecast.findWindPeakSoon (wind_series data) with
  | Some windPeak =>
      if (Forecast.minutes windPeak <=? 180)
         && PrimFloat.leb 60 (Forecast.kmh windPeak) then
        let key := wind_key c (Forecast.minutes windPeak) (Forecast.kmh windPeak) in
        let last := last_of st key in
        if 30 * 60 * 1000 <? now - last then
          let st := <[key := now]> st in
          let s := setAlertState st s in
          (st, pushToast (WindSoon (Forecast.minutes windPeak)
                            (Numbers.Math_round (Forecast.kmh windPeak))) s)
        else (st, s)
      else (st, s)
  | None => (st, s)
  end.

(** [checkAlerts] up to its first [await]: the centre it read, or
    [None] when it returned at once. *)
Definition checkAlerts_begin (s : State) : option Center := map s.

(** [checkAlerts] from the [await]s on: [r] is how the request ended and
    [now] is [Date.now()]. A thrown exception rejects the promise. *)
Definition checkAlerts_settle (c : Center)
    (r : Timeline.FetchResult (option Data)) (now : Z) (s : State)
  : Outcome State unit :=
  match r with
  | Timeline.NetworkError => Throws "TypeError: Failed to fetch" s
  | Timeline.ParseError => Throws "SyntaxError: Unexpected token" s
  | Timeline.Json None => Throws "TypeError: data is null" s
  | Timeline.Json (Some data) =>
      let st := getAlertState s in
      let '(st, s) := rain_block c data now st s in
      let '(_, s) := wind_block c data now st s in
      Returns tt s
  end.

(** [checkAlerts().catch(()=>{})], as [startAlertLoop] and its timer
    run it *)
Definition alert_tick (r : Timeline.FetchResult (option Data)) (now : Z)
    (s : State) : State :=
  match checkAlerts_begin s with
  | None => s
  | Some c =>
      final_state (try_catch (checkAlerts_settle c r now s)
                             (fun _ s => Returns tt s))
  end.

(** *** Vocabulary for the two blocks *)

(** The alert a forecast calls for, with its key, before the cooldown is
    looked at. *)
Definition rain_alert (c : Center) (data : Data) : option (string * Alert) :=
  let ev := computeRainEvent15 (rain_series data) in
  match startMin ev with
  | Some sm =>
      if sm <=? 90
      then Some (rain_key c sm, RainSoon sm (durationMin ev) (totalMm ev))
      else None
  | None => None
  end.

Definition wind_alert (c : Center) (data : Data) : option (string * Alert) :=
  match Forecast.findWindPeakSoon (wind_series data) with
  | Some windPeak =>
      if (Forecast.minutes windPeak <=? 180)
         && PrimFloat.leb 60 (Forecast.kmh windPeak)
      then Some (wind_key c (Forecast.minutes windPeak) (Forecast.kmh windPeak),
                 WindSoon (Forecast.minutes windPeak)
                          (Numbers.Math_round (Forecast.kmh windPeak)))
      else None
  | None => None
  end.

(** The alert is called for and the cooldown of its key has run out. *)
Definition due (al : option (string * Alert)) (cooldown now : Z)
    (st : gmap string Z) : bool :=
  match al with
  | Some (key, _) => cooldown <? now - last_of st key
  | None => false
  end.

(** What a block does with the alert called for. *)
Definition block (al : option (string * Alert)) (cooldown now : Z)
    (st : gmap string Z) (s : State) : gmap string Z * State :=
  match al with
  | Some (key, a) =>
      if cooldown <? now - last_of st key
      then (<[key := now]> st, pushToast a (setAlertState (<[key := now]> st) s))
      else (st, s)
  | None => (st, s)
  end.

End Text.

(** The toasts a step pushed. *)
Definition pushed (before after : State) : list Alert :=
  drop (length (toasts before)) (toasts after).

Definition is_rain (a : Alert) : bool :=
  match a with
  | RainSoon _ _ _ => true
  | WindSoon _ _ => false
  end.

Definition is_wind (a : Alert) : bool := negb (is_rain a).

(** A stand-in for the text of a number in the examples. *)
Definition whole_text (x : float) : string :=
  match Numbers.to_Z x with
  | Some z => decimal z
  | None => "NaN"
  end.

Definition paris : Center := {| lat := 48.85; lng := 2.35 |}.

(** Rain above the threshold from the third quarter of an hour on, and
    a gale in the second hour. *)
Definition storm : Data :=
  {| minutely_15 := Some {| precipitation := Some [0; 0; 0.4; 1.2; 0.3; 0]%float |};
     hourly := Some {| windspeed_10m := Some [40; 72.4; 55]%float |} |}.

(** The same weather a quarter of an hour later. *)
Definition storm_nearer : Data :=
  {| minutely_15 := Some {| precipitation := Some [0; 0.4; 1.2; 0.3; 0; 0]%float |};
     hourly := Some {| windspeed_10m := Some [40; 72.4; 55]%float |} |}.

Definition page : State :=
  {| map := Some paris; alerts := Absent; toasts := [] |}.

(** 14 November 2023, 22:13:20 UTC, as [Date.now()] gives it. *)
Definition an_evening : Z := 1700000000000.

End Alerts.

(** ** Vector field sampler: [fetchPointWind]

    The numbers are binary64 floats. [Math.sin] and [Math.cos] are
    parameters: the language asks of them an approximation of the sine
    and the cosine and leaves the result to the platform. *)

Module Sampler.
Local Open Scope float_scope.

(** The [hourly] part of the forecast document; a property may be
    absent. *)
Record Hourly := {
  windspeed_10m : option (list float);
  winddirection_10m : option (list float)
}.
Record Forecast := {
  hourly : option Hourly
}.

(** [{ spd, deg, u, v }]; [spd] and [deg] are [undefined] ([None]) when
    they were read from an empty array. *)
Record WindSample := {
  spd : option float;
  deg : option float;
  u : float;
  v : float
}.

(** [Math.PI] *)
Definition Math_PI : float := 3.141592653589793.

(** [undefined] as an operand of arithmetic is NaN. *)
Definition to_number (a : option float) : float :=
  match a with
  | Some x => x
  | None => nan
  end.

(** [arr[0]] *)
Definition first (arr : list float) : option float :=
  match arr with
  | a :: _ => Some a
  | [] => None
  end.

Definition result {S A} (dflt : A) (c : Outcome S A) : A :=
  match c with
  | Returns a _ => a
  | Throws _ _ => dflt
  end.

Section Platform.

Variable Math_sin : float -> float.
Variable Math_cos : float -> float.

(** The body of the [try] block once the request has settled. Reading
    [data.hourly.windspeed_10m[0]] throws when the document is [null] or
    lacks [hourly] or one of the two arrays. *)
Definition fetchPointWind_try (r : Timeline.FetchResult (option Forecast))
  : Outcome unit (option WindSample) :=
  match r with
  | Timeline.NetworkError => Throws "TypeError: Failed to fetch" tt
  | Timeline.ParseError => Throws "SyntaxError: Unexpected token" tt
  | Timeline.Json None => Throws "TypeError: data is null" tt
  | Timeline.Json (Some data) =>
      match hourly data with
      | None => Throws "TypeError: data.hourly is undefined" tt
      | Some h =>
          match windspeed_10m h, winddirection_10m h with
          | Some speeds, Some dirs =>
              let spd := first speeds in
              let deg := first dirs in
              (* Convert FROM to flow TO (deg+180) *)
              let toDeg := Numbers.remainder (to_number deg + 180) 360 in
              let toRad := (toDeg * Math_PI) / 180 in
              let u := Math_sin toRad * to_number spd in
              let v := Math_cos toRad * to_number spd in
              Returns (Some {| spd := spd; deg := deg; u := u; v := v |}) tt
          | _, _ => Throws "TypeError: array is undefined" tt
          end
      end
  end.

(** [fetchPointWind] after its [await]s; [null] is [None]. *)
Definition fetchPointWind_settle (r : Timeline.FetchResult (option Forecast))
  : option WindSample :=
  result None
    (try_catch (fetchPointWind_try r) (fun err _ => Returns None tt)).

End Platform.

(** A forecast whose first hourly entry has the given speed and source
    bearing. *)
Definition forecast (speed bearing : float) (speeds dirs : list float)
  : Timeline.FetchResult (option Forecast) :=
  Timeline.Json
    (Some {| hourly := Some {| windspeed_10m := Some (speed :: speeds);
                                winddirection_10m := Some (bearing :: dirs) |} |}).

(** The flow bearing of a whole source bearing, in radians as the script
    computes it. *)
Definition flow_radians (d : Z) : float :=
  (Numbers.of_Z ((d + 180) mod 360) * Math_PI) / 180.

Definition turns_exactly (d : Z) : bool :=
  PrimFloat.Leibniz.eqb (Numbers.remainder (Numbers.of_Z d + 180) 360)
                        (Numbers.of_Z ((d + 180) mod 360)).

End Sampler.

(** ** Vocabulary for the results of [fetchPointWind] *)

Module SamplerSpec.
Import Sampler.

(** The forecast document has both hourly arrays. *)
Definition has_arrays (r : Timeline.FetchResult (option Forecast)) : bool :=
  match r with
  | Timeline.Json (Some data) =>
      match hourly data with
      | Some h =>
          match windspeed_10m h, winddirection_10m h with
          | Some _, Some _ => true
          | _, _ => false
          end
      | None => false
      end
  | _ => false
  end.

(** A forecast whose hourly arrays are both empty. *)
Definition empty_forecast : Timeline.FetchResult (option Forecast) :=
  Timeline.Json
    (Some {| hourly := Some {| windspeed_10m := Some [];
                                winddirection_10m := Some [] |} |}).

End SamplerSpec.

(** ** A platform for the examples

    Sine and cosine evaluated by their series on fixed-point numbers of
    300 binary digits and rounded to the nearest binary64 number, which
    is what an accurate [Math.sin] or [Math.cos] returns for an argument
    of moderate size. *)

Module Libm.
Local Open Scope Z_scope.

(** The integer [a] stands for the number a / 2^300. *)
Definition bits : Z := 300.
Definition one : Z := 2 ^ bits.

Definition mul (a b : Z) : Z := (a * b) / one.

(** arctan(1/n) as the alternating series of the powers of 1/n;
    [power] is (1/n)^(2k+1). *)
Fixpoint atan_inv_from (fuel : nat) (n k power : Z) : Z :=
  match fuel with
  | O => 0
  | S f => power / (2 * k + 1) - atan_inv_from f n (k + 1) (power / (n * n))
  end.

Definition atan_inv (n : Z) : Z := atan_inv_from 220 n 0 (one / n).

(** Machin's formula: pi = 16 arctan(1/5) - 4 arctan(1/239). *)
Definition pi : Z := 16 * atan_inv 5 - 4 * atan_inv 239.

(** The alternating series t - t x^2/((n+1)(n+2)) + ..., from the term
    [term] of index [n]: the cosine from (0, 1), the sine from (1, x). *)
Fixpoint series (fuel : nat) (x2 n term : Z) : Z :=
  match fuel with
  | O => 0
  | S f => term - series f x2 (n + 2) (mul term x2 / ((n + 1) * (n + 2)))
  end.

Definition cos_fixed (x : Z) : Z := series 90 (mul x x) 0 one.
Definition sin_fixed (x : Z) : Z := series 90 (mul x x) 1 x.

(** A finite float as a fixed-point number. *)
Definition to_fixed (x : float) : option Z :=
  match Prim2SF x with
  | S754_zero _ => Some 0
  | S754_finite s m e => Some (Z.shiftl (Numbers.signed s m) (e + bits))
  | _ => None
  end.

(** The binary64 number nearest to a fixed-point number. *)
Definition of_fixed (a : Z) : float :=
  SF2Prim (binary_normalize prec emax a (- bits) false).

(** Whole turns are dropped before the series is summed. *)
Definition sin (x : float) : float :=
  match to_fixed x with
  | Some a => if a =? 0 then x else of_fixed (sin_fixed (a mod (2 * pi)))
  | None => nan
  end.

Definition cos (x : float) : float :=
  match to_fixed x with
  | Some a => of_fixed (cos_fixed (a mod (2 * pi)))
  | None => nan
  end.

End Libm.

(** ** Playback of the variant with [startAnim] / [stopAnim] under the
    events of the page *)

Module Playback000.
Import Timeline.

Inductive Event :=
| CatalogSettles (r : FetchResult (option CatalogData))
| PlayClick
| RainAutoChange (checked : bool)
| IntervalFires (h : positive).

(** A callback that throws ends there; the state it has reached
    stays. *)
Definition step (e : Event) (s : State) : State :=
  match e with
  | CatalogSettles r => final_state (Part000.loadRadarFrames_settle r s)
  | PlayClick => Part000.onPlayClick s
  | RainAutoChange b => Part000.onRainAutoChange b s
  | IntervalFires h =>
      if existsb (Pos.eqb h) (intervals s)
      then final_state (Part000.tick s)
      else s
  end.

Definition run (evs : list Event) (s : State) : State :=
  fold_left (fun st e => step e st) evs s.

End Playback000.

(** C3. computeRainEvent15 on the series [0, 0, 0.05, 0.3, 0.4, 0.0, 0.2]
    returns startMin = 45, durationMin = 30 and totalMm = 0.7: the event
    starts at index 3, covers the two consecutive samples above the
    threshold 0.1, and the 0.2 after the gap is not counted. The total is
    the binary64 sum 0.3 + 0.4, which is the binary64 number 0.7. *)
Theorem computeRainEvent15_series :
  Helpers.computeRainEvent15 [0; 0; 0.05; 0.3; 0.4; 0.0; 0.2]%float
  = {| Helpers.startMin := Some 45;
       Helpers.durationMin := 30;
       Helpers.totalMm := 0.7%float |}.
Proof. vm_compute. reflexivity. Qed.

(** ** Properties of [escapeHtml] *)

Section EscapeHtml.
Import Helpers EscapeSpec.
Local Open Scope string_scope.

Lemma append_cons a (s t : string) : String a s ++ t = String a (s ++ t).
Proof. reflexivity. Qed.

Lemma append_assoc (s t u : string) : (s ++ t) ++ u = s ++ (t ++ u).
Proof.
  induction s as [|a s IH]; [reflexivity|].
  rewrite !append_cons, IH. reflexivity.
Qed.

Lemma replaceAll_app c rep s t :
  replaceAll c rep (s ++ t) = replaceAll c rep s ++ replaceAll c rep t.
Proof.
  induction s as [|a s IH]; [reflexivity|].
  rewrite append_cons. cbn [replaceAll].
  destruct (Ascii.eqb a c); rewrite IH.
  - symmetry. apply append_assoc.
  - reflexivity.
Qed.


(** The five passes amount to one pass that rewrites each character on
    its own: no later pass touches what an earlier one wrote. *)
Lemma escapeHtml_escapeEach s : escapeHtml s = escapeEach s.
Proof.
  unfold escapeHtml.
  induction s as [|a s IH]; [reflexivity|].
  cbn [escapeEach replaceAll]. unfold escapeChar.
  destruct (Ascii.eqb a ch_amp) eqn:E1.
  { rewrite !replaceAll_app, IH. reflexivity. }
  cbn [replaceAll].
  destruct (Ascii.eqb a ch_lt) eqn:E2.
  { rewrite !replaceAll_app, IH. reflexivity. }
  cbn [replaceAll].
  destruct (Ascii.eqb a ch_gt) eqn:E3.
  { rewrite !replaceAll_app, IH. reflexivity. }
  cbn [replaceAll].
  destruct (Ascii.eqb a ch_dquote) eqn:E4.
  { rewrite !replaceAll_app, IH. reflexivity. }
  cbn [replaceAll].
  destruct (Ascii.eqb a ch_squote) eqn:E5.
  { rewrite IH. reflexivity. }
  rewrite IH. reflexivity.
Qed.

Lemma occurrences_app c s t :
  occurrences c (s ++ t) = (occurrences c s + occurrences c t)%nat.
Proof.
  induction s as [|a s IH]; [reflexivity|].
  rewrite append_cons. cbn [occurrences]. rewrite IH. lia.
Qed.

Lemma escapeChar_clean a c :
  In c [ch_lt; ch_gt; ch_dquote; ch_squote] -> occurrences c (escapeChar a) = O.
Proof.
  intros Hc. unfold escapeChar.
  destruct (Ascii.eqb a ch_amp) eqn:E1;
    [|destruct (Ascii.eqb a ch_lt) eqn:E2;
      [|destruct (Ascii.eqb a ch_gt) eqn:E3;
        [|destruct (Ascii.eqb a ch_dquote) eqn:E4;
          [|destruct (Ascii.eqb a ch_squote) eqn:E5]]]];
    cbn in Hc; destruct Hc as [<-|[<-|[<-|[<-|[]]]]];
    try reflexivity;
    cbn [occurrences]; rewrite ?E2, ?E3, ?E4, ?E5; reflexivity.
Qed.

Lemma escapeHtml_clean s c :
  In c [ch_lt; ch_gt; ch_dquote; ch_squote] -> occurrences c (escapeHtml s) = O.
Proof.
  intros Hc. rewrite escapeHtml_escapeEach.
  induction s as [|a s IH]; [reflexivity|].
  cbn [escapeEach]. rewrite occurrences_app, IH, escapeChar_clean by assumption.
  reflexivity.
Qed.



Lemma amps_ok_escapeChar a r :
  amps_ok r = true -> amps_ok (escapeChar a ++ r) = true.
Proof.
  intros Hr. unfold escapeChar.
  destruct (Ascii.eqb a ch_amp) eqn:E1;
    [|destruct (Ascii.eqb a ch_lt) eqn:E2;
      [|destruct (Ascii.eqb a ch_gt) eqn:E3;
        [|destruct (Ascii.eqb a ch_dquote) eqn:E4;
          [|destruct (Ascii.eqb a ch_squote) eqn:E5]]]];
    rewrite !append_cons; change (EmptyString ++ r) with r;
    cbn [amps_ok]; rewrite Hr, ?E1; reflexivity.
Qed.

Lemma amps_ok_escapeHtml s : amps_ok (escapeHtml s) = true.
Proof.
  rewrite escapeHtml_escapeEach.
  induction s as [|a s IH]; [reflexivity|].
  cbn [escapeEach]. apply amps_ok_escapeChar, IH.
Qed.

Lemma amps_ok_split t pre post :
  amps_ok t = true -> t = pre ++ String ch_amp post ->
  begins_entity (String ch_amp post) = true.
Proof.
  revert t. induction pre as [|b pre IH]; intros t Ht ->.
  - change (EmptyString ++ String ch_amp post) with (String ch_amp post) in Ht.
    cbn [amps_ok] in Ht. rewrite Ascii.eqb_refl in Ht.
    apply andb_true_iff in Ht. apply Ht.
  - rewrite append_cons in Ht. cbn [amps_ok] in Ht.
    apply andb_true_iff in Ht. eapply IH; [apply Ht|reflexivity].
Qed.

End EscapeHtml.

(** C10. For every input string, the output of escapeHtml holds none of
    the characters <, >, double quote and single quote, and each of its
    ampersands starts one of the five entities (the ampersand is replaced
    first, so the entities written later are not escaped again). Hence
    the fields pushToast interpolates through escapeHtml add no tag to the
    toast markup: its < and > are those of the template, 14 of each
    without the action button and 16 with it, whatever the fields hold. *)
Theorem escapeHtml_neutralises_markup :
  forall (s : string) (t : Toasts.ToastArgs),
    Helpers.occurrences Helpers.ch_lt (Helpers.escapeHtml s) = O /\
    Helpers.occurrences Helpers.ch_gt (Helpers.escapeHtml s) = O /\
    Helpers.occurrences Helpers.ch_dquote (Helpers.escapeHtml s) = O /\
    Helpers.occurrences Helpers.ch_squote (Helpers.escapeHtml s) = O /\
    EscapeSpec.amps_ok (Helpers.escapeHtml s) = true /\
    Helpers.occurrences Helpers.ch_lt (Toasts.toast_innerHTML t)
      = (if Toasts.truthy (Toasts.actionText t) then 16 else 14)%nat /\
    Helpers.occurrences Helpers.ch_gt (Toasts.toast_innerHTML t)
      = (if Toasts.truthy (Toasts.actionText t) then 16 else 14)%nat.
Proof.
  intros s t.
  repeat split; try (apply escapeHtml_clean; cbn; tauto).
  - apply amps_ok_escapeHtml.
  - unfold Toasts.toast_innerHTML.
    destruct (Toasts.truthy (Toasts.actionText t));
      rewrite !occurrences_app, !escapeHtml_clean by (cbn; tauto);
      reflexivity.
  - unfold Toasts.toast_innerHTML.
    destruct (Toasts.truthy (Toasts.actionText t));
      rewrite !occurrences_app, !escapeHtml_clean by (cbn; tauto);
      reflexivity.
Qed.

(** ** Tactics *)

(** Destructs every [match] and [if] of the goal, then closes it by
    computation. *)
Ltac split_cases :=
  repeat match goal with
         | |- context [match ?x with _ => _ end] => destruct x eqn:?
         end;
  try reflexivity.

(** ** Radar timeline with nowcast frames: loading *)

Section Part001Load.
Import Timeline Part001.
Local Open Scope string_scope.

(** What the display request and the label update leave alone. *)
Lemma showRadarFrame_keeps i s :
  let s' := showRadarFrame i s in
  frames s' = frames s /\ frameIndex s' = frameIndex s /\
  anim s' = anim s /\ intervals s' = intervals s /\
  nextTimer s' = nextTimer s /\ statusText s' = statusText s /\
  sliderMin s' = sliderMin s /\ sliderMax s' = sliderMax s /\
  sliderValue s' = sliderValue s /\ timeLabelText s' = timeLabelText s /\
  tzOffsetMin s' = tzOffsetMin s /\ map_ready s' = map_ready s.
Proof. unfold showRadarFrame. cbv zeta. split_cases; repeat split. Qed.

Lemma updateTimeLabel_keeps s :
  let s' := updateTimeLabel s in
  frames s' = frames s /\ frameIndex s' = frameIndex s /\
  anim s' = anim s /\ intervals s' = intervals s /\
  nextTimer s' = nextTimer s /\ statusText s' = statusText s /\
  sliderMin s' = sliderMin s /\ sliderMax s' = sliderMax s /\
  sliderValue s' = sliderValue s /\ radarLayer s' = radarLayer s /\
  radarOnMap s' = radarOnMap s /\ map_ready s' = map_ready s.
Proof. unfold updateTimeLabel. cbv zeta. split_cases; repeat split. Qed.

(** The successful path of [loadRadarFrames], for a catalog that lists
    at least one frame. *)
Lemma loadRadarFrames_success s (p n : list RadarFrame) :
  (p ++ n)%list <> [] ->
  exists s',
    loadRadarFrames_settle
      (Json (Some {| radar := Some {| past := Some p; nowcast := Some n |} |})) s
    = Returns tt s' /\
    frames s' = (p ++ n)%list /\
    frameIndex s' = Int (Z.max 0 (Z.of_nat (length p) - 1)) /\
    sliderMin s' = 0 /\
    sliderMax s' = Z.of_nat (length (p ++ n)%list) - 1 /\
    sliderValue s' = frameIndex s' /\
    statusText s' = "Radar prêt".
Proof.
  intros Hne.
  unfold loadRadarFrames_settle, loadRadarFrames_try, try_catch.
  cbn [catalog_list radar past nowcast].
  cbn [frames set_frames].
  destruct (length (p ++ n)%list =? 0)%nat eqn:Hlen.
  { apply Nat.eqb_eq in Hlen. destruct (p ++ n)%list; [congruence|discriminate]. }
  eexists. split; [reflexivity|].
  set (s1 := set_sliderValue _ _).
  pose proof (showRadarFrame_keeps (frameIndex s1) s1) as Hs.
  pose proof (updateTimeLabel_keeps (showRadarFrame (frameIndex s1) s1)) as Hu.
  cbv zeta in Hs, Hu.
  destruct Hs as (Hs1 & Hs2 & _ & _ & _ & _ & Hs7 & Hs8 & Hs9 & _).
  destruct Hu as (Hu1 & Hu2 & _ & _ & _ & _ & Hu7 & Hu8 & Hu9 & _).
  cbn [frames frameIndex sliderMin sliderMax sliderValue statusText set_statusText].
  rewrite Hu1, Hu2, Hu7, Hu8, Hu9, Hs1, Hs2, Hs7, Hs8, Hs9.
  subst s1. cbn. repeat split; reflexivity.
Qed.

End Part001Load.

(** C1, as the two variants have it. When the catalog request succeeds
    with 10 past and 2 nowcast frames, loadRadarFrames of the variant
    that appends the nowcast frames completes normally, replaces the
    frame list with the 12 frames (the past ones followed by the nowcast
    ones, in the order the catalog gives them), sets frameIndex to 9, the
    index of the last past frame, and sets the slider bounds to 0 and 11
    (and its value to 9). In the variant that keeps the last twelve past
    frames and no nowcast frame, the frame list is the 10 past frames,
    frameIndex is 9 and the slider ends at 9, where it stands. *)
Theorem loadRadarFrames_ten_past_two_nowcast :
  forall (s : Timeline.State) (p n : list Timeline.RadarFrame),
    length p = 10%nat -> length n = 2%nat ->
    let catalog :=
      Timeline.Json
        (Some {| Timeline.radar :=
                   Some {| Timeline.past := Some p;
                           Timeline.nowcast := Some n |} |}) in
    (exists s',
      Part001.loadRadarFrames_settle catalog s = Returns tt s' /\
      Timeline.frames s' = (p ++ n)%list /\
      length (Timeline.frames s') = 12%nat /\
      Timeline.frameIndex s' = Timeline.Int 9 /\
      Timeline.sliderMin s' = 0 /\
      Timeline.sliderMax s' = 11 /\
      Timeline.sliderValue s' = Timeline.Int 9) /\
    (exists s',
      Part000.loadRadarFrames_settle catalog s = Returns tt s' /\
      Timeline.frames s' = p /\
      length (Timeline.frames s') = 10%nat /\
      Timeline.frameIndex s' = Timeline.Int 9 /\
      Timeline.sliderMax s' = 9 /\
      Timeline.sliderValue s' = Timeline.Int 9).
Proof.
  intros s p n Hp Hn catalog. subst catalog. split.
  - destruct (loadRadarFrames_success s p n)
      as (s' & Hrun & Hf & Hi & Hmin & Hmax & Hval & _).
    { destruct p; [discriminate|]. discriminate. }
    exists s'. rewrite Hval, Hi, Hmax, Hf, length_app, Hp, Hn.
    repeat split; try assumption; reflexivity.
  - do 11 (destruct p as [|? p]; try discriminate Hp).
    eexists. split; [reflexivity|]. repeat split.
Qed.

Lemma loadRadarFrames_ten_past_two_nowcast_witness :
  (exists s',
    Part001.loadRadarFrames_settle (Timeline.Json Samples.catalog) Samples.page
    = Returns tt s' /\
    Timeline.frames s' = (Samples.past10 ++ Samples.nowcast2)%list /\
    length (Timeline.frames s') = 12%nat /\
    Timeline.frameIndex s' = Timeline.Int 9 /\
    Timeline.sliderMin s' = 0 /\
    Timeline.sliderMax s' = 11 /\
    Timeline.sliderValue s' = Timeline.Int 9) /\
  (exists s',
    Part000.loadRadarFrames_settle (Timeline.Json Samples.catalog) Samples.page
    = Returns tt s' /\
    Timeline.frames s' = Samples.past10 /\
    length (Timeline.frames s') = 10%nat /\
    Timeline.frameIndex s' = Timeline.Int 9 /\
    Timeline.sliderMax s' = 9 /\
    Timeline.sliderValue s' = Timeline.Int 9).
Proof.
  apply (loadRadarFrames_ten_past_two_nowcast
           Samples.page Samples.past10 Samples.nowcast2); reflexivity.
Defined.

(** The sentence of C1 read on the variant that shows the past frames
    only: after loading the sample catalog of 10 past and 2 nowcast
    frames its list does not hold the 12 frames and its slider does not
    end at 11. *)
Lemma Part000_load_drops_nowcast :
  ~ exists s',
      Part000.loadRadarFrames_settle (Timeline.Json Samples.catalog) Samples.page
      = Returns tt s' /\
      Timeline.frames s' = (Samples.past10 ++ Samples.nowcast2)%list /\
      Timeline.frameIndex s' = Timeline.Int 9 /\
      Timeline.sliderMin s' = 0 /\
      Timeline.sliderMax s' = 11.
Proof.
  intros (s' & E & _ & _ & _ & Hmax).
  assert (H : Timeline.sliderMax
                (final_state (Part000.loadRadarFrames_settle
                                (Timeline.Json Samples.catalog) Samples.page)) = 9)
    by reflexivity.
  rewrite E in H. cbn [final_state] in H. rewrite H in Hmax. discriminate Hmax.
Qed.

(** The other variant keeps the last twelve past frames and no nowcast
    frame: with the same catalog its list has 10 frames and the slider
    ends at 9. Its call to the undeclared [showRadarFrame] then throws,
    and the [catch] reports an error. *)
Lemma Part000_load_ten_past_two_nowcast :
  exists s',
    Part000.loadRadarFrames_settle (Timeline.Json Samples.catalog) Samples.page
    = Returns tt s' /\
    Timeline.frames s' = Samples.past10 /\
    Timeline.frameIndex s' = Timeline.Int 9 /\
    Timeline.sliderMax s' = 9 /\
    Timeline.statusText s' = "Erreur radar"%string.
Proof. eexists. repeat split; reflexivity. Qed.

(** ** Loading fails softly *)

(** C4. If the catalog request or the parsing of its response fails,
    loadRadarFrames leaves the frame list and frameIndex as they were,
    sets the status text to the error string and completes normally: the
    exception does not reach the caller. The whole state is the one
    before the call with the status text replaced. Both variants of the
    script behave so. *)
Theorem loadRadarFrames_fails_softly :
  forall (s : Timeline.State) (r : Timeline.FetchResult (option Timeline.CatalogData)),
    Timeline.is_failure r = true ->
    let after := Timeline.set_statusText "Erreur radar"%string s in
    Part001.loadRadarFrames_settle r (Part001.loadRadarFrames_begin s)
      = Returns tt after /\
    Part000.loadRadarFrames_settle r s = Returns tt after /\
    Timeline.frames after = Timeline.frames s /\
    Timeline.frameIndex after = Timeline.frameIndex s /\
    Timeline.statusText after = "Erreur radar"%string.
Proof.
  intros s r Hr after.
  destruct r as [| |data]; [| |discriminate Hr]; repeat split.
Qed.

Lemma loadRadarFrames_fails_softly_witness :
  let after := Timeline.set_statusText "Erreur radar"%string Samples.loaded in
  Part001.loadRadarFrames_settle Timeline.ParseError
      (Part001.loadRadarFrames_begin Samples.loaded)
    = Returns tt after /\
  Part000.loadRadarFrames_settle Timeline.ParseError Samples.loaded
    = Returns tt after /\
  Timeline.frames after = Timeline.frames Samples.loaded /\
  Timeline.frameIndex after = Timeline.frameIndex Samples.loaded /\
  Timeline.statusText after = "Erreur radar"%string.
Proof.
  apply (loadRadarFrames_fails_softly Samples.loaded Timeline.ParseError).
  reflexivity.
Defined.

(** Whatever the request yields, no exception leaves [loadRadarFrames]. *)
Lemma loadRadarFrames_never_throws s r :
  throws (Part001.loadRadarFrames_settle r s) = false /\
  throws (Part000.loadRadarFrames_settle r s) = false.
Proof.
  split.
  - destruct r; try reflexivity.
    unfold Part001.loadRadarFrames_settle, Part001.loadRadarFrames_try.
    cbv zeta. destruct (_ =? _)%nat; reflexivity.
  - destruct r; try reflexivity.
    unfold Part000.loadRadarFrames_settle, Part000.loadRadarFrames_try.
    cbv zeta. destruct (_ =? _)%nat; reflexivity.
Qed.

(** ** Playback: one timer at most *)

Section Playback.
Import Timeline Part001.

Lemma tick_keeps_timers s :
  anim (tick s) = anim s /\ intervals (tick s) = intervals s.
Proof.
  unfold tick, updateTimeLabel, showRadarFrame. cbv zeta.
  split; split_cases.
Qed.

Lemma onSliderInput_keeps_timers v s :
  anim (onSliderInput v s) = anim s /\
  intervals (onSliderInput v s) = intervals s.
Proof.
  unfold onSliderInput, updateTimeLabel, showRadarFrame. cbv zeta.
  split; split_cases.
Qed.

Lemma settle_keeps_timers r s :
  anim (final_state (loadRadarFrames_settle r s)) = anim s /\
  intervals (final_state (loadRadarFrames_settle r s)) = intervals s.
Proof.
  destruct r as [| |data]; try (split; reflexivity).
  unfold loadRadarFrames_settle, loadRadarFrames_try, try_catch. cbv zeta.
  destruct (_ =? _)%nat; [split; reflexivity|].
  cbn [final_state anim intervals set_statusText].
  set (s1 := set_sliderValue _ _).
  pose proof (showRadarFrame_keeps (frameIndex s1) s1) as Hs.
  pose proof (updateTimeLabel_keeps (showRadarFrame (frameIndex s1) s1)) as Hu.
  cbv zeta in Hs, Hu.
  destruct Hs as (_ & _ & Hs3 & Hs4 & _).
  destruct Hu as (_ & _ & Hu3 & Hu4 & _).
  rewrite Hu3, Hu4, Hs3, Hs4. split; reflexivity.
Qed.

Lemma startRadarAuto_noop s h : anim s = Some h -> startRadarAuto s = s.
Proof. intros H. unfold startRadarAuto. rewrite H. reflexivity. Qed.

Lemma startRadarAuto_idempotent s :
  startRadarAuto (startRadarAuto s) = startRadarAuto s.
Proof.
  destruct (anim s) as [h|] eqn:Ha.
  - rewrite !(startRadarAuto_noop s h Ha). reflexivity.
  - destruct (length (frames s) =? 0)%nat eqn:Hl.
    + assert (E : startRadarAuto s = s)
        by (unfold startRadarAuto; rewrite Ha, Hl; reflexivity).
      rewrite !E. reflexivity.
    + apply (startRadarAuto_noop _ (nextTimer s)).
      unfold startRadarAuto. rewrite Ha, Hl. reflexivity.
Qed.

Lemma startRadarAuto_consistent s :
  timers_consistent s -> timers_consistent (startRadarAuto s).
Proof.
  unfold timers_consistent, startRadarAuto.
  destruct (anim s) as [h|] eqn:Ha; [rewrite Ha; trivial|].
  destruct (length (frames s) =? 0)%nat; [rewrite Ha; trivial|].
  intros Hi. cbn. rewrite Hi. reflexivity.
Qed.

Lemma stopRadarAuto_consistent s :
  timers_consistent s -> timers_consistent (stopRadarAuto s).
Proof.
  unfold timers_consistent, stopRadarAuto.
  destruct (anim s) as [h|] eqn:Ha; [|rewrite Ha; trivial].
  intros Hi. cbn. rewrite Hi. cbn. rewrite Pos.eqb_refl. reflexivity.
Qed.

Lemma set_keeps_consistent (f : State -> State) s :
  anim (f s) = anim s -> intervals (f s) = intervals s ->
  timers_consistent s -> timers_consistent (f s).
Proof. unfold timers_consistent. intros -> ->. trivial. Qed.

Lemma step_consistent e s :
  timers_consistent s -> timers_consistent (step e s).
Proof.
  intros H. destruct e as [|r|v| |b|b|h]; cbn [step].
  - unfold initMap. cbv zeta. apply startRadarAuto_consistent. exact H.
  - apply (set_keeps_consistent (fun s => final_state (loadRadarFrames_settle r s)));
      [apply settle_keeps_timers..|exact H].
  - apply (set_keeps_consistent (onSliderInput v));
      [apply onSliderInput_keeps_timers..|exact H].
  - unfold onPlayClick.
    destruct (length (frames s) =? 0)%nat; [exact H|].
    destruct (anim s) as [h|] eqn:Ha; cbv zeta.
    + apply stopRadarAuto_consistent in H.
      unfold timers_consistent in *. exact H.
    + assert (H' : timers_consistent (set_rainAutoToggle true s)) by exact H.
      apply startRadarAuto_consistent in H'.
      unfold timers_consistent in *. exact H'.
  - unfold onRainAutoChange. cbv zeta.
    assert (H' : timers_consistent (set_rainAutoToggle b s)) by exact H.
    destruct (rainAutoToggle _).
    + apply startRadarAuto_consistent, H'.
    + apply stopRadarAuto_consistent, H'.
  - unfold onRadarToggleChange. cbv zeta.
    destruct (radarLayer _); exact H.
  - destruct (existsb _ _); [|exact H].
    apply (set_keeps_consistent tick); [apply tick_keeps_timers..|exact H].
Qed.

Lemma run_consistent evs s :
  timers_consistent s -> timers_consistent (run evs s).
Proof.
  revert s. induction evs as [|e evs IH]; intros s H; [exact H|].
  cbn. apply IH, step_consistent, H.
Qed.

End Playback.

(** The other variant guards at the caller: [startAnim] itself arms a
    new timer whenever it is called, and the play button calls it only
    when the handle is null. Called on a playing timeline, it leaves two
    timers armed. *)
Lemma Part000_startAnim_rearms :
  Timeline.intervals (Part000.startAnim Samples.playing) = [2%positive; 1%positive] /\
  Timeline.anim (Part000.startAnim Samples.playing) = Some 2%positive.
Proof. split; reflexivity. Qed.

Lemma Part000_onPlayClick_consistent s :
  Part001.timers_consistent s ->
  Part001.timers_consistent (Part000.onPlayClick s).
Proof.
  unfold Part001.timers_consistent, Part000.onPlayClick,
    Part000.stopAnim, Part000.startAnim.
  destruct (Timeline.anim s) as [h|] eqn:Ha; intros Hi.
  - cbn. rewrite ?Ha. cbn. rewrite Hi. cbn. rewrite Pos.eqb_refl. reflexivity.
  - destruct (_ || _); cbn; rewrite ?Ha, Hi; reflexivity.
Qed.

Section Playback000Facts.
Import Timeline.

Lemma Part000_stopAnim_consistent s :
  Part001.timers_consistent s -> Part001.timers_consistent (Part000.stopAnim s).
Proof.
  unfold Part001.timers_consistent, Part000.stopAnim.
  destruct (anim s) as [h|] eqn:Ha; intros Hi; cbn; rewrite ?Ha; cbn.
  - rewrite Hi. cbn. rewrite Pos.eqb_refl. reflexivity.
  - exact Hi.
Qed.

Lemma Part000_updateFrameUI_timers s :
  anim (final_state (Part000.updateFrameUI s)) = anim s /\
  intervals (final_state (Part000.updateFrameUI s)) = intervals s.
Proof.
  unfold Part000.updateFrameUI.
  destruct (_ =? _)%nat; [split; reflexivity|].
  destruct (at_index _ _); split; reflexivity.
Qed.

Lemma Part000_tick_timers s :
  anim (final_state (Part000.tick s)) = anim s /\
  intervals (final_state (Part000.tick s)) = intervals s.
Proof. split; reflexivity. Qed.

Lemma Part000_settle_timers r s :
  anim (final_state (Part000.loadRadarFrames_settle r s)) = anim s /\
  intervals (final_state (Part000.loadRadarFrames_settle r s)) = intervals s.
Proof.
  destruct r as [| |data]; try (split; reflexivity).
  unfold Part000.loadRadarFrames_settle, Part000.loadRadarFrames_try.
  cbv zeta. destruct (_ =? _)%nat; split; reflexivity.
Qed.

Lemma Playback000_step_consistent e s :
  Part001.timers_consistent s ->
  Part001.timers_consistent (Playback000.step e s).
Proof.
  intros H. destruct e as [r| |b|h]; cbn [Playback000.step].
  - destruct (Part000_settle_timers r s) as [Ha Hi].
    unfold Part001.timers_consistent. rewrite Ha, Hi. exact H.
  - apply Part000_onPlayClick_consistent, H.
  - unfold Part000.onRainAutoChange. cbv zeta.
    assert (H' : Part001.timers_consistent (set_rainAutoToggle b s)) by exact H.
    destruct (negb _); [apply Part000_stopAnim_consistent, H'|exact H'].
  - destruct (existsb _ _); [|exact H].
    destruct (Part000_tick_timers s) as [Ha Hi].
    unfold Part001.timers_consistent. rewrite Ha, Hi. exact H.
Qed.

Lemma Playback000_run_consistent evs s :
  Part001.timers_consistent s ->
  Part001.timers_consistent (Playback000.run evs s).
Proof.
  revert s. induction evs as [|e evs IH]; intros s H; [exact H|].
  cbn. apply IH, Playback000_step_consistent, H.
Qed.

End Playback000Facts.

(** C2, as the two variants have it. In the variant with startRadarAuto,
    starting playback while the timer is active is a no-op: in every
    state whose timer handle is set, startRadarAuto returns the state
    unchanged, and calling it twice in a row gives the state of one call.
    In every state the script reaches from its initial state, the armed
    interval timers are exactly the one the handle names when it is set,
    and none when it is null: there is never more than one ticking timer,
    and playback runs if and only if the handle is not null. In the
    variant with startAnim the test of the handle stands in the listener
    of the play button, the only caller of startAnim, and the same holds
    of every state reached through the play button, the checkbox of the
    automatic playback, the timer callbacks and the catalog loads. *)
Theorem startRadarAuto_single_timer :
  (forall (s : Timeline.State) (h : positive),
      Timeline.anim s = Some h -> Part001.startRadarAuto s = s) /\
  (forall s : Timeline.State,
      Part001.startRadarAuto (Part001.startRadarAuto s)
      = Part001.startRadarAuto s) /\
  (forall (page : Timeline.State) (evs : list Part001.Event),
      let s := Part001.run evs (Part001.initial page) in
      Part001.timers_consistent s /\
      (length (Timeline.intervals s) <= 1)%nat /\
      (Timeline.intervals s <> [] <-> Timeline.anim s <> None)) /\
  (forall (page : Timeline.State) (evs : list Playback000.Event),
      let s := Playback000.run evs (Part001.initial page) in
      Part001.timers_consistent s /\
      (length (Timeline.intervals s) <= 1)%nat /\
      (Timeline.intervals s <> [] <-> Timeline.anim s <> None)).
Proof.
  assert (Hone : forall s, Part001.timers_consistent s ->
            (length (Timeline.intervals s) <= 1)%nat /\
            (Timeline.intervals s <> [] <-> Timeline.anim s <> None)).
  { intros s H. unfold Part001.timers_consistent in H. rewrite H.
    destruct (Timeline.anim s); cbn; split; try lia; split; congruence. }
  split; [exact startRadarAuto_noop|].
  split; [exact startRadarAuto_idempotent|].
  split.
  - intros page evs s.
    assert (H : Part001.timers_consistent s)
      by (apply run_consistent; reflexivity).
    split; [exact H|apply Hone, H].
  - intros page evs s.
    assert (H : Part001.timers_consistent s)
      by (apply Playback000_run_consistent; reflexivity).
    split; [exact H|apply Hone, H].
Qed.

Lemma startRadarAuto_single_timer_witness :
  Part001.startRadarAuto Samples.playing = Samples.playing.
Proof.
  apply (proj1 startRadarAuto_single_timer Samples.playing 1%positive).
  reflexivity.
Defined.

(** The sentence of C2 read on startAnim: called while the timer is
    active it is no no-op. It arms a second timer and overwrites the
    handle, and a second call differs from the first. *)
Lemma Part000_startAnim_second_timer :
  Timeline.anim Samples.playing = Some 1%positive /\
  Part000.startAnim Samples.playing <> Samples.playing /\
  length (Timeline.intervals (Part000.startAnim Samples.playing)) = 2%nat /\
  Part000.startAnim (Part000.startAnim Samples.playing)
    <> Part000.startAnim Samples.playing.
Proof.
  split; [reflexivity|]. split; [|split; [reflexivity|]].
  - intros H. apply (f_equal Timeline.intervals) in H. discriminate H.
  - intros H. apply (f_equal Timeline.intervals) in H. discriminate H.
Qed.

(** While playback runs over a non-empty list, each tick moves the
    cursor one frame forward and wraps from the last frame to the
    first. *)
Lemma tick_advances s z :
  Timeline.frameIndex s = Timeline.Int z ->
  0 <= z < Z.of_nat (length (Timeline.frames s)) ->
  Timeline.frameIndex (Part001.tick s)
  = Timeline.Int ((z + 1) mod Z.of_nat (length (Timeline.frames s))).
Proof.
  intros Hi Hz. unfold Part001.tick. cbv zeta.
  set (s1 := Timeline.set_sliderValue _ _).
  pose proof (showRadarFrame_keeps (Timeline.frameIndex s1) s1) as Hs.
  pose proof (updateTimeLabel_keeps
                (Part001.showRadarFrame (Timeline.frameIndex s1) s1)) as Hu.
  cbv zeta in Hs, Hu.
  destruct Hs as (_ & Hs2 & _). destruct Hu as (_ & Hu2 & _).
  rewrite Hu2, Hs2. subst s1. cbn. rewrite Hi.
  destruct (length (Timeline.frames s)) as [|n] eqn:Hn; [cbn in Hz; lia|].
  cbn [Timeline.succ_mod]. f_equal. apply Z.rem_mod_nonneg; lia.
Qed.

(** ** Showing a frame *)

Section ShowFrame.
Import Timeline Part001.

Lemma at_index_in_range {A} (arr : list A) i :
  in_range i (length arr) -> exists a, at_index arr i = Some a.
Proof.
  destruct i as [|z]; cbn; [tauto|]. intros [H0 Hn].
  destruct (Z.ltb_spec z 0); [lia|].
  apply lookup_lt_is_Some_2. lia.
Qed.

Lemma at_index_out_of_range {A} (arr : list A) i :
  ~ in_range i (length arr) -> at_index arr i = None.
Proof.
  destruct i as [|z]; cbn; [reflexivity|]. intros Hn.
  destruct (Z.ltb_spec z 0); [reflexivity|].
  apply lookup_ge_None_2. lia.
Qed.

Lemma showRadarFrame_url i s f :
  map_ready s = true -> at_index (frames s) i = Some f ->
  displayed_url (showRadarFrame i s) = Some (tileUrl f).
Proof.
  intros Hm Hf. unfold showRadarFrame, displayed_url. rewrite Hf, Hm. cbn.
  destruct (radarLayer s) as [l|]; cbn; [|reflexivity].
  destruct (radarToggle s && negb (radarOnMap s)); reflexivity.
Qed.

End ShowFrame.

(** C6, as stated, fails for an index that is not the cursor: showing
    frame 0 of the loaded sample timeline, whose cursor is at 9, points
    the tile layer at frame 0 but writes the time of frame 9 into the
    label, because updateTimeLabel reads frames[frameIndex]. Counting the
    caller's assignment to frameIndex as part of the operation does not
    save the sentence: then an index out of range changes frameIndex.
    And while the variable map is undefined, showRadarFrame returns
    before it touches the tile layer, also for an index within the
    list. *)
Lemma show_contract_fails :
  ~ Part001.show_contract Part001.show /\
  ~ Part001.show_contract Part001.show_at /\
  (Part001.in_range (Timeline.Int 0)
     (length (Timeline.frames Samples.frames_without_map)) /\
   Part001.displayed_url
     (Part001.show (Timeline.Int 0) Samples.frames_without_map) = None).
Proof.
  split; [|split]; [intros H|intros H|].
  - destruct (H Samples.loaded (Timeline.Int 0)) as [Hin _]; [discriminate|].
    destruct Hin as (f & Hf & _ & Hlabel); [split; [lia|reflexivity]|].
    vm_compute in Hf. injection Hf as <-.
    vm_compute in Hlabel. discriminate Hlabel.
  - destruct (H Samples.loaded (Timeline.Int 12)) as [_ Hout]; [discriminate|].
    assert (E : Part001.show_at (Timeline.Int 12) Samples.loaded = Samples.loaded).
    { apply Hout. intros [_ Hlt]. vm_compute in Hlt. discriminate Hlt. }
    apply (f_equal Timeline.frameIndex) in E.
    vm_compute in E. discriminate E.
  - split; [split; [lia|reflexivity]|reflexivity].
Qed.

(** C6, amended. In every state whose map is set up and whose cursor
    frameIndex is the index shown, as it is at each call of the script:
    for an index within the frame list, showRadarFrame followed by
    updateTimeLabel sets the displayed tile URL to that frame's URL (its
    path put into the tile template) and the time label to that frame's
    formatted time, and leaves the frame list and the cursor as they
    were; for an index outside the list the state is unchanged. *)
Theorem show_at_cursor :
  forall (s : Timeline.State) (i : Timeline.JsInt),
    Timeline.map_ready s = true ->
    Timeline.frameIndex s = i ->
    (Part001.in_range i (length (Timeline.frames s)) ->
     exists f, Timeline.at_index (Timeline.frames s) i = Some f /\
       Part001.displayed_url (Part001.show i s) = Some (Part001.tileUrl f) /\
       Timeline.timeLabelText (Part001.show i s)
         = Timeline.toLocaleTimeString (Timeline.tzOffsetMin s)
             (Timeline.time f * 1000) /\
       Timeline.frames (Part001.show i s) = Timeline.frames s /\
       Timeline.frameIndex (Part001.show i s) = i) /\
    (~ Part001.in_range i (length (Timeline.frames s)) ->
     Part001.show i s = s).
Proof.
  intros s i Hm Hi. split.
  - intros Hin. destruct (at_index_in_range _ _ Hin) as [f Hf].
    exists f. split; [exact Hf|].
    pose proof (showRadarFrame_keeps i s) as Hs. cbv zeta in Hs.
    destruct Hs as (Hs1 & Hs2 & _ & _ & _ & _ & _ & _ & _ & _ & Hs11 & _).
    pose proof (updateTimeLabel_keeps (Part001.showRadarFrame i s)) as Hu.
    cbv zeta in Hu.
    destruct Hu as (Hu1 & Hu2 & _ & _ & _ & _ & _ & _ & _ & Hu10 & _).
    unfold Part001.show. repeat split.
    + unfold Part001.displayed_url. rewrite Hu10.
      apply showRadarFrame_url; assumption.
    + unfold Part001.updateTimeLabel.
      rewrite Hs1, Hs2, Hi, Hf, Hs11. reflexivity.
    + rewrite Hu1. exact Hs1.
    + rewrite Hu2, Hs2. exact Hi.
  - intros Hout. apply at_index_out_of_range in Hout.
    unfold Part001.show, Part001.showRadarFrame. rewrite Hout.
    unfold Part001.updateTimeLabel. rewrite Hi, Hout. reflexivity.
Qed.

Lemma show_at_cursor_witness :
  exists f,
    Timeline.at_index (Timeline.frames Samples.loaded) (Timeline.Int 9) = Some f /\
    Part001.displayed_url (Part001.show (Timeline.Int 9) Samples.loaded)
      = Some (Part001.tileUrl f) /\
    Timeline.timeLabelText (Part001.show (Timeline.Int 9) Samples.loaded)
      = Timeline.toLocaleTimeString (Timeline.tzOffsetMin Samples.loaded)
          (Timeline.time f * 1000) /\
    Timeline.frames (Part001.show (Timeline.Int 9) Samples.loaded)
      = Timeline.frames Samples.loaded /\
    Timeline.frameIndex (Part001.show (Timeline.Int 9) Samples.loaded)
      = Timeline.Int 9.
Proof.
  apply (show_at_cursor Samples.loaded (Timeline.Int 9)).
  - reflexivity.
  - reflexivity.
  - split; [lia|reflexivity].
Defined.

(** ** Particle field: the pool keeps its objects *)

Section ParticlePool.
Import Wind.

(** *** Initialisation *)

Lemma push_new_fields s :
  let s' := push_new s in
  windParticles s' = windParticles s ++ [nextLoc s] /\
  nextLoc s' = S (nextLoc s) /\
  heap s' = <[nextLoc s := drawn_particle (random s) (draws s)
                             (innerWidth s) (innerHeight s) 0]> (heap s) /\
  draws s' = (draws s + 3)%nat /\
  random s' = random s /\ innerWidth s' = innerWidth s /\
  innerHeight s' = innerHeight s /\ windRunning s' = windRunning s /\
  canvasWidth s' = canvasWidth s /\ canvasHeight s' = canvasHeight s.
Proof.
  cbn. unfold drawn_particle.
  replace (draws s + 3 * 0)%nat with (draws s) by lia.
  repeat split.
Qed.

Lemma repeat_push_pool n : forall s,
  windParticles (repeat_push n s) = windParticles s ++ seq (nextLoc s) n /\
  nextLoc (repeat_push n s) = (nextLoc s + n)%nat /\
  windRunning (repeat_push n s) = windRunning s /\
  canvasWidth (repeat_push n s) = canvasWidth s /\
  canvasHeight (repeat_push n s) = canvasHeight s.
Proof.
  induction n as [|n IH]; intros s.
  - cbn. rewrite app_nil_r, Nat.add_0_r. repeat split.
  - cbn [repeat_push]. destruct (IH (push_new s)) as (Hp & Hn & Hr & Hw & Hh).
    destruct (push_new_fields s) as (Ep & En & _ & _ & _ & _ & _ & Er & Ew & Eh).
    rewrite Hp, Hn, Hr, Hw, Hh, Ep, En, Er, Ew, Eh.
    rewrite <- app_assoc. cbn [seq app].
    repeat split. lia.
Qed.

(** Objects that exist before the pushes are not touched by them. *)
Lemma repeat_push_old n : forall s l,
  (l < nextLoc s)%nat -> heap (repeat_push n s) !! l = heap s !! l.
Proof.
  induction n as [|n IH]; intros s l Hl; [reflexivity|].
  cbn [repeat_push].
  destruct (push_new_fields s) as (_ & En & Eh & _).
  rewrite IH by (rewrite En; lia).
  rewrite Eh. apply lookup_insert_ne. lia.
Qed.

Lemma repeat_push_new n : forall s k,
  (k < n)%nat ->
  heap (repeat_push n s) !! (nextLoc s + k)%nat
  = Some (drawn_particle (random s) (draws s) (innerWidth s) (innerHeight s) k).
Proof.
  induction n as [|n IH]; intros s k Hk; [lia|].
  cbn [repeat_push].
  destruct (push_new_fields s) as (_ & En & Eh & Ed & Er & Ew & Ehh & _).
  destruct k as [|k].
  - rewrite Nat.add_0_r, repeat_push_old by (rewrite En; lia).
    rewrite Eh. apply lookup_insert_eq.
  - specialize (IH (push_new s) k ltac:(lia)).
    rewrite En, Ed, Er, Ew, Ehh in IH.
    replace (nextLoc s + S k)%nat with (S (nextLoc s) + k)%nat by lia.
    rewrite IH. unfold drawn_particle.
    f_equal; f_equal; (f_equal; f_equal; lia).
Qed.

Lemma initParticles_pool s :
  windParticles (initParticles s) = seq (nextLoc s) count /\
  length (windParticles (initParticles s)) = count /\
  NoDup (windParticles (initParticles s)) /\
  pool_valid (initParticles s) /\
  windRunning (initParticles s) = windRunning s.
Proof.
  unfold initParticles.
  destruct (repeat_push_pool count (set_windParticles [] s)) as (Hp & _ & Hr & _).
  cbn [windParticles set_windParticles nextLoc app] in Hp.
  rewrite Hp. split; [reflexivity|].
  split; [apply length_seq|].
  split; [apply NoDup_seq|].
  split; [|exact Hr].
  unfold pool_valid. rewrite Hp. intros l Hl.
  apply elem_of_seq in Hl.
  replace l with (nextLoc (set_windParticles [] s) + (l - nextLoc s))%nat
    by (cbn; lia).
  rewrite repeat_push_new by lia. eauto.
Qed.

(** *** One redraw *)

Lemma stepParticle_pool style sf s l :
  let s' := stepParticle style sf s l in
  windParticles s' = windParticles s /\
  dom (heap s') = dom (heap s) /\
  nextLoc s' = nextLoc s /\
  windRunning s' = windRunning s.
Proof.
  unfold stepParticle. cbv zeta.
  destruct (heap s !! l) as [p0|] eqn:Hl; [|repeat split].
  destruct (expired _ _); cbn.
  - repeat split.
    rewrite insert_insert_eq. apply dom_insert_lookup_L. eauto.
  - repeat split.
    apply dom_insert_lookup_L. eauto.
Qed.

Lemma fold_stepParticle_pool style sf ls : forall s,
  let s' := fold_left (stepParticle style sf) ls s in
  windParticles s' = windParticles s /\
  dom (heap s') = dom (heap s) /\
  nextLoc s' = nextLoc s /\
  windRunning s' = windRunning s.
Proof.
  induction ls as [|l ls IH]; intros s; cbv zeta; [repeat split|].
  cbn [fold_left].
  destruct (IH (stepParticle style sf s l)) as (H1 & H2 & H3 & H4).
  destruct (stepParticle_pool style sf s l) as (E1 & E2 & E3 & E4).
  rewrite H1, H2, H3, H4, E1, E2, E3, E4. repeat split.
Qed.

Lemma loopParticles_pool s :
  windParticles (loopParticles s) = windParticles s /\
  dom (heap (loopParticles s)) = dom (heap s) /\
  nextLoc (loopParticles s) = nextLoc s /\
  windRunning (loopParticles s) = windRunning s.
Proof.
  unfold loopParticles. destruct (negb (windRunning s)); [repeat split|].
  cbv zeta. cbn [windParticles dom heap nextLoc windRunning set_rafPending].
  match goal with
  | |- context [fold_left (stepParticle ?st ?sf) ?ls ?s0] =>
      destruct (fold_stepParticle_pool st sf ls s0) as (H1 & H2 & H3 & H4)
  end.
  rewrite H1, H2, H3, H4. repeat split.
Qed.

Lemma iter_loopParticles_pool n s :
  windParticles (Nat.iter n loopParticles s) = windParticles s /\
  dom (heap (Nat.iter n loopParticles s)) = dom (heap s) /\
  windRunning (Nat.iter n loopParticles s) = windRunning s.
Proof.
  induction n as [|n (IH1 & IH2 & IH3)]; [repeat split|].
  rewrite Nat.iter_succ.
  destruct (loopParticles_pool (Nat.iter n loopParticles s)) as (H1 & H2 & _ & H4).
  rewrite H1, H2, H4, IH1, IH2, IH3. repeat split.
Qed.

Lemma pool_valid_dom s s' :
  windParticles s' = windParticles s -> dom (heap s') = dom (heap s) ->
  pool_valid s -> pool_valid s'.
Proof.
  unfold pool_valid. intros Hp Hd Hv l Hl.
  rewrite Hp in Hl. apply Hv in Hl.
  apply elem_of_dom. rewrite Hd. apply elem_of_dom. exact Hl.
Qed.

(** The respawn overwrites the object the pool already holds. *)
Lemma stepParticle_respawn style sf s l p0 :
  heap s !! l = Some p0 ->
  expired s (advect (windCenter s) sf p0) = true ->
  heap (stepParticle style sf s l) !! l = Some (fst (newParticle s)).
Proof.
  intros Hl He. unfold stepParticle. rewrite Hl. cbv zeta.
  change (expired (set_drawn _ (set_heap _ s)) ?p) with (expired s p).
  rewrite He. cbn. apply lookup_insert_eq.
Qed.

Lemma stepParticle_advance style sf s l p0 :
  heap s !! l = Some p0 ->
  expired s (advect (windCenter s) sf p0) = false ->
  heap (stepParticle style sf s l) !! l = Some (advect (windCenter s) sf p0).
Proof.
  intros Hl He. unfold stepParticle. rewrite Hl. cbv zeta.
  change (expired (set_drawn _ (set_heap _ s)) ?p) with (expired s p).
  rewrite He. cbn. apply lookup_insert_eq.
Qed.

(** *** What a redraw does to one particle *)

(** The window, the wind and the source of random numbers are left
    alone by the loop body, and the count of draws only grows. *)
Lemma stepParticle_frame style sf s l :
  let s' := stepParticle style sf s l in
  innerWidth s' = innerWidth s /\ innerHeight s' = innerHeight s /\
  windCenter s' = windCenter s /\ random s' = random s /\
  (draws s <= draws s')%nat.
Proof.
  unfold stepParticle. cbv zeta.
  destruct (heap s !! l) as [p0|]; [|repeat split; lia].
  destruct (expired _ _); cbn; repeat split; lia.
Qed.

Lemma stepParticle_other style sf s l l' :
  l <> l' -> heap (stepParticle style sf s l) !! l' = heap s !! l'.
Proof.
  intros Hne. unfold stepParticle.
  destruct (heap s !! l) as [p0|]; [|reflexivity].
  cbv zeta. destruct (expired _ _); cbn;
    rewrite ?lookup_insert_ne by exact Hne; reflexivity.
Qed.

Lemma stepParticle_draws style sf s l p0 :
  heap s !! l = Some p0 ->
  expired s (advect (windCenter s) sf p0) = true ->
  draws (stepParticle style sf s l) = (draws s + 3)%nat.
Proof.
  intros Hl He. unfold stepParticle. rewrite Hl. cbv zeta.
  change (expired (set_drawn _ (set_heap _ s)) ?p) with (expired s p).
  rewrite He. reflexivity.
Qed.

Lemma fold_stepParticle_frame style sf ls : forall s,
  let s' := fold_left (stepParticle style sf) ls s in
  innerWidth s' = innerWidth s /\ innerHeight s' = innerHeight s /\
  windCenter s' = windCenter s /\ random s' = random s /\
  (draws s <= draws s')%nat.
Proof.
  induction ls as [|l ls IH]; intros s; cbv zeta;
    [cbn [fold_left]; repeat split; lia|].
  cbn [fold_left].
  destruct (IH (stepParticle style sf s l)) as (H1 & H2 & H3 & H4 & H5).
  destruct (stepParticle_frame style sf s l) as (E1 & E2 & E3 & E4 & E5).
  rewrite H1, H2, H3, H4, E1, E2, E3, E4. repeat split. lia.
Qed.

Lemma fold_stepParticle_other style sf ls : forall s l',
  l' ∉ ls ->
  heap (fold_left (stepParticle style sf) ls s) !! l' = heap s !! l'.
Proof.
  induction ls as [|l ls IH]; intros s l' Hl'; [reflexivity|].
  apply not_elem_of_cons in Hl'. destruct Hl' as [Hne Hl'].
  cbn [fold_left]. rewrite IH by exact Hl'.
  apply stepParticle_other. congruence.
Qed.

(** The particle [newParticle] returns after [d] draws depends on the
    window and on the source of random numbers only. *)
Lemma newParticle_frame s s' d :
  innerWidth s' = innerWidth s -> innerHeight s' = innerHeight s ->
  random s' = random s ->
  fst (newParticle (set_draws d s')) = fst (newParticle (set_draws d s)).
Proof. intros Hw Hh Hr. cbn. rewrite Hw, Hh, Hr. reflexivity. Qed.

Lemma expired_frame s s' p :
  innerWidth s' = innerWidth s -> innerHeight s' = innerHeight s ->
  expired s' p = expired s p.
Proof. intros Hw Hh. unfold expired. rewrite Hw, Hh. reflexivity. Qed.

(** The loop over a pool without repetition comes to each object once:
    the object receives the advected particle, or, when that one has
    expired, a new particle drawn during this loop. *)
Lemma fold_stepParticle_at style sf ls : forall s l p0,
  NoDup ls -> l ∈ ls -> heap s !! l = Some p0 ->
  let p := advect (windCenter s) sf p0 in
  let s' := fold_left (stepParticle style sf) ls s in
  (expired s p = false -> heap s' !! l = Some p) /\
  (expired s p = true ->
   exists d, (draws s <= d)%nat /\ (d + 3 <= draws s')%nat /\
             heap s' !! l = Some (fst (newParticle (set_draws d s)))).
Proof.
  induction ls as [|a ls IH]; intros s l p0 Hnd Hin Hl p s'.
  - apply elem_of_nil in Hin. contradiction.
  - apply NoDup_cons in Hnd. destruct Hnd as [Ha Hnd].
    subst s'. cbn [fold_left].
    destruct (fold_stepParticle_frame style sf ls (stepParticle style sf s a))
      as (_ & _ & _ & _ & Hd).
    cbv zeta in Hd.
    destruct (decide (l = a)) as [->|Hne].
    + rewrite (fold_stepParticle_other style sf ls _ a Ha). split.
      * intros He. apply (stepParticle_advance style sf s a p0 Hl He).
      * intros He. exists (draws s).
        rewrite <- (stepParticle_draws style sf s a p0 Hl He).
        split; [lia|]. split; [exact Hd|].
        apply (stepParticle_respawn style sf s a p0 Hl He).
    + assert (Hin' : l ∈ ls).
      { apply elem_of_cons in Hin. destruct Hin; [contradiction|assumption]. }
      destruct (stepParticle_frame style sf s a) as (Ew & Eh & Ec & Er & Ed).
      cbv zeta in Ew, Eh, Ec, Er, Ed.
      assert (Hl' : heap (stepParticle style sf s a) !! l = Some p0).
      { rewrite stepParticle_other by congruence. exact Hl. }
      destruct (IH (stepParticle style sf s a) l p0 Hnd Hin' Hl') as [I1 I2].
      cbv zeta in I1, I2. rewrite Ec in I1, I2.
      rewrite (expired_frame s _ _ Ew Eh) in I1, I2.
      split; [exact I1|].
      intros He. destruct (I2 He) as (d & D1 & D2 & D3).
      exists d. split; [lia|]. split; [exact D2|].
      rewrite D3. f_equal. apply newParticle_frame; assumption.
Qed.

(** One redraw, seen from one object of the pool. *)
Lemma loopParticles_at s l p0 :
  windRunning s = true -> NoDup (windParticles s) ->
  l ∈ windParticles s -> heap s !! l = Some p0 ->
  let sf := Helpers.clamp (Helpers.or_zero (spd (windCenter s)) / 25) 0.2 2.6 in
  let p := advect (windCenter s) sf p0 in
  let s' := loopParticles s in
  (expired s p = false -> heap s' !! l = Some p) /\
  (expired s p = true ->
   exists d, (draws s <= d)%nat /\ (d + 3 <= draws s')%nat /\
             heap s' !! l = Some (fst (newParticle (set_draws d s)))).
Proof.
  intros Hrun Hnd Hin Hl sf p s'. subst s'.
  unfold loopParticles. rewrite Hrun. cbn [negb]. cbv zeta.
  match goal with
  | |- context [fold_left (stepParticle ?st _) _ ?s0] =>
      pose proof (fold_stepParticle_at st sf (windParticles s) s0 l p0
                    Hnd Hin Hl) as H
  end.
  cbv zeta in H. exact H.
Qed.

End ParticlePool.

(** C7. startWindParticles leaves a pool of exactly 650 distinct particle
    objects, and any number of redraws by loopParticles keeps the pool
    as it is: the same 650 references in the same order, the same set of
    objects on the heap, each reference leading to an object, the field
    still running. A redraw of a running field comes to every object of
    the pool once: a particle that after its move has left the window or
    is older than 150 is replaced, in the same object, by a new particle
    drawn at random during that redraw; any other particle is moved with
    the wind and is one tick older. Neither case adds or removes a
    reference or creates an object. *)
Theorem particle_pool_invariant :
  (forall (s : Wind.State) (n : nat),
      let s0 := Wind.startWindParticles s in
      let sn := Nat.iter n Wind.loopParticles s0 in
      length (Wind.windParticles s0) = 650%nat /\
      NoDup (Wind.windParticles s0) /\
      Wind.windParticles sn = Wind.windParticles s0 /\
      dom (Wind.heap sn) = dom (Wind.heap s0) /\
      Wind.pool_valid sn /\
      Wind.windRunning sn = true) /\
  (forall (s : Wind.State) (l : Wind.loc) (p0 : Wind.Particle),
      Wind.windRunning s = true ->
      NoDup (Wind.windParticles s) ->
      l ∈ Wind.windParticles s ->
      Wind.heap s !! l = Some p0 ->
      let speedFactor :=
        Helpers.clamp (Helpers.or_zero (Wind.spd (Wind.windCenter s)) / 25)
                      0.2 2.6 in
      let p := Wind.advect (Wind.windCenter s) speedFactor p0 in
      let s' := Wind.loopParticles s in
      Wind.windParticles s' = Wind.windParticles s /\
      dom (Wind.heap s') = dom (Wind.heap s) /\
      Wind.nextLoc s' = Wind.nextLoc s /\
      (Wind.expired s p = false -> Wind.heap s' !! l = Some p) /\
      (Wind.expired s p = true ->
       exists d : nat,
         (Wind.draws s <= d)%nat /\ (d + 3 <= Wind.draws s')%nat /\
         Wind.heap s' !! l
         = Some {| Wind.x := (Wind.random s d * Wind.innerWidth s)%float;
                   Wind.y := (Wind.random s (d + 1) * Wind.innerHeight s)%float;
                   Wind.age := (Wind.random s (d + 2) * 120)%float |})).
Proof.
  split.
  - intros s n s0 sn.
    set (s1 := Wind.initParticles (Wind.set_windRunning true s)).
    assert (E0 : s0 = Wind.loopParticles s1) by reflexivity.
    destruct (initParticles_pool (Wind.set_windRunning true s))
      as (_ & Hlen & Hnd & Hv & Hr).
    fold s1 in Hlen, Hnd, Hv, Hr.
    destruct (loopParticles_pool s1) as (L1 & L2 & _ & L4).
    destruct (iter_loopParticles_pool n s0) as (I1 & I2 & I3).
    fold sn in I1, I2, I3. rewrite E0 in *.
    rewrite L1.
    split; [exact Hlen|]. split; [exact Hnd|]. split; [rewrite I1; exact L1|].
    split; [exact I2|]. split.
    + apply (pool_valid_dom s1); [rewrite I1; exact L1|rewrite I2; exact L2|exact Hv].
    + rewrite I3, L4, Hr. reflexivity.
  - intros s l p0 Hrun Hnd Hin Hl speedFactor p s'.
    destruct (loopParticles_pool s) as (P1 & P2 & P3 & _).
    destruct (loopParticles_at s l p0 Hrun Hnd Hin Hl) as [A1 A2].
    split; [exact P1|]. split; [exact P2|]. split; [exact P3|].
    split; [exact A1|].
    intros He. destruct (A2 He) as (d & D1 & D2 & D3).
    exists d. split; [exact D1|]. split; [exact D2|]. exact D3.
Qed.

Lemma particle_pool_invariant_witness :
  let s := WindSamples.one_old_particle in
  exists d : nat,
    (Wind.draws s <= d)%nat /\
    (d + 3 <= Wind.draws (Wind.loopParticles s))%nat /\
    Wind.heap (Wind.loopParticles s) !! O
    = Some {| Wind.x := (Wind.random s d * Wind.innerWidth s)%float;
              Wind.y := (Wind.random s (d + 1) * Wind.innerHeight s)%float;
              Wind.age := (Wind.random s (d + 2) * 120)%float |}.
Proof.
  intros s.
  apply (proj2 particle_pool_invariant s O
           {| Wind.x := 100; Wind.y := 100; Wind.age := 150 |}).
  - reflexivity.
  - apply NoDup_singleton.
  - apply list_elem_of_singleton. reflexivity.
  - reflexivity.
  - reflexivity.
Defined.

(** The old particle of the sample is respawned by that redraw. *)
Example one_old_particle_respawns :
  Wind.heap (Wind.loopParticles WindSamples.one_old_particle) !! O
  = Some (fst (Wind.newParticle WindSamples.one_old_particle)).
Proof. vm_compute. reflexivity. Qed.

(** ** Window resize *)

(** C8, as the two variants have it. When the window is resized while
    the particle field runs, the resize listener of the variant with
    512 px tiles first sets the canvas size to the new window size and
    then initialises the pool anew: the pool consists of 650 objects
    created by that call, and the k-th of them holds a position drawn at
    random in the new window and a random age below 120. The listener
    of the other variant is resizeWindCanvas alone: it sets the canvas
    size for the new window and the device pixel ratio, draws no random
    number and leaves the pool and every particle as they are; a
    particle that its next move leaves outside the new window is
    replaced by a new one, drawn in the new window, in the next redraw. *)
Theorem resize_reinitialises_pool :
  forall (s : Wind.State) (w h : float),
    Wind.windRunning s = true ->
    (let s' := Wind.resizeListener000 (Wind.windowResized w h s) in
     s' = Wind.initParticles (Wind.resizeCanvas (Wind.windowResized w h s)) /\
     Wind.canvasWidth s' = w /\
     Wind.canvasHeight s' = h /\
     Wind.windParticles s' = seq (Wind.nextLoc s) 650 /\
     length (Wind.windParticles s') = 650%nat /\
     (forall k : nat, (k < 650)%nat ->
        Wind.heap s' !! (Wind.nextLoc s + k)%nat
        = Some (Wind.drawn_particle (Wind.random s) (Wind.draws s) w h k))) /\
    (let s' := Wind.resizeListener001 (Wind.windowResized w h s) in
     Wind.canvasWidth s'
       = Wind.Math_floor (w * Wind.or_one (Wind.devicePixelRatio s))%float /\
     Wind.canvasHeight s'
       = Wind.Math_floor (h * Wind.or_one (Wind.devicePixelRatio s))%float /\
     Wind.windParticles s' = Wind.windParticles s /\
     Wind.heap s' = Wind.heap s /\
     Wind.draws s' = Wind.draws s /\
     (forall (l : Wind.loc) (p0 : Wind.Particle),
        NoDup (Wind.windParticles s) ->
        l ∈ Wind.windParticles s ->
        Wind.heap s !! l = Some p0 ->
        let speedFactor :=
          Helpers.clamp (Helpers.or_zero (Wind.spd (Wind.windCenter s)) / 25)
                        0.2 2.6 in
        let p := Wind.advect (Wind.windCenter s) speedFactor p0 in
        (PrimFloat.ltb w (Wind.x p) || PrimFloat.ltb h (Wind.y p)) = true ->
        exists d : nat,
          Wind.heap (Wind.loopParticles s') !! l
          = Some {| Wind.x := (Wind.random s d * w)%float;
                    Wind.y := (Wind.random s (d + 1) * h)%float;
                    Wind.age := (Wind.random s (d + 2) * 120)%float |})).
Proof.
  intros s w h Hrun. split.
  - intros s'.
    assert (E : s' = Wind.initParticles (Wind.resizeCanvas (Wind.windowResized w h s))).
    { subst s'. unfold Wind.resizeListener000. cbv zeta.
      change (Wind.windRunning (Wind.resizeCanvas (Wind.windowResized w h s)))
        with (Wind.windRunning s).
      rewrite Hrun. reflexivity. }
    split; [exact E|]. rewrite E. clear E s'.
    set (s1 := Wind.resizeCanvas (Wind.windowResized w h s)).
    destruct (initParticles_pool s1) as (Hp & Hlen & _).
    unfold Wind.initParticles.
    destruct (repeat_push_pool Wind.count (Wind.set_windParticles [] s1))
      as (_ & _ & _ & Hw & Hh).
    rewrite Hw, Hh. fold (Wind.initParticles s1). rewrite Hp.
    repeat split; try reflexivity.
    intros k Hk.
    exact (repeat_push_new Wind.count (Wind.set_windParticles [] s1) k Hk).
  - intros s'.
    split; [reflexivity|]. split; [reflexivity|]. split; [reflexivity|].
    split; [reflexivity|]. split; [reflexivity|].
    intros l p0 Hnd Hin Hl speedFactor p Hout.
    destruct (loopParticles_at s' l p0 Hrun Hnd Hin Hl) as [_ A].
    cbv zeta in A.
    change (Wind.windCenter s') with (Wind.windCenter s) in A.
    fold speedFactor in A. fold p in A.
    assert (He : Wind.expired s' p = true).
    { unfold Wind.expired.
      change (Wind.innerWidth s') with w. change (Wind.innerHeight s') with h.
      apply orb_prop in Hout. destruct Hout as [-> | ->];
        rewrite ?orb_true_r; reflexivity. }
    destruct (A He) as (d & _ & _ & D). exists d. exact D.
Qed.

Lemma resize_reinitialises_pool_witness :
  let s := WindSamples.one_old_particle in
  let s' := Wind.resizeListener000 (Wind.windowResized 800 600 s) in
  s' = Wind.initParticles (Wind.resizeCanvas (Wind.windowResized 800 600 s)) /\
  Wind.canvasWidth s' = 800%float /\
  Wind.canvasHeight s' = 600%float /\
  Wind.windParticles s' = seq (Wind.nextLoc s) 650 /\
  length (Wind.windParticles s') = 650%nat /\
  (forall k : nat, (k < 650)%nat ->
     Wind.heap s' !! (Wind.nextLoc s + k)%nat
     = Some (Wind.drawn_particle (Wind.random s) (Wind.draws s) 800 600 k)).
Proof.
  apply (proj1 (resize_reinitialises_pool WindSamples.one_old_particle
                  800%float 600%float eq_refl)).
Defined.

(** The sentence of C8 read on the listener that is resizeWindCanvas
    alone: after a resize of the running sample field its particle is
    the one that was there, with the position and the age it had, no
    random number has been drawn, and the pool is not a pool of 650 new
    objects. *)
Lemma resizeListener001_leaves_particles :
  let s := WindSamples.one_old_particle in
  let s' := Wind.resizeListener001 (Wind.windowResized 800 600 s) in
  Wind.windRunning s = true /\
  Wind.windParticles s' = [O] /\
  Wind.heap s' !! O = Some {| Wind.x := 100; Wind.y := 100; Wind.age := 150 |} /\
  Wind.draws s' = Wind.draws s /\
  Wind.windParticles s' <> seq (Wind.nextLoc s) 650.
Proof.
  intros s s'. repeat split. intros H. discriminate H.
Qed.

(** The listener of the other variant recomputes the canvas size for the
    device pixel ratio and leaves the pool and its objects alone. *)
Lemma resizeListener001_keeps_pool s :
  Wind.windParticles (Wind.resizeListener001 s) = Wind.windParticles s /\
  Wind.heap (Wind.resizeListener001 s) = Wind.heap s /\
  Wind.canvasWidth (Wind.resizeListener001 s)
    = Wind.Math_floor (Wind.innerWidth s * Wind.or_one (Wind.devicePixelRatio s)) /\
  Wind.canvasHeight (Wind.resizeListener001 s)
    = Wind.Math_floor (Wind.innerHeight s * Wind.or_one (Wind.devicePixelRatio s)).
Proof. repeat split. Qed.

(** ** Glyph layers: clearing twice *)

Section GlyphClear.
Import Glyph.

Lemma clear_absent k s : layer_ref k s = None -> clear k s = Returns tt s.
Proof.
  destruct k; cbn; intros H;
    [unfold clearWindArrows|unfold clearRainDirection]; rewrite H; reflexivity.
Qed.

Lemma clear_present k s l m :
  layer_ref k s = Some l -> map s = Some m ->
  exists s',
    clear k s = Returns tt s' /\
    layer_ref k s' = None /\
    layers_on_map s' = Some (layers m ∖ {[ l ]}).
Proof.
  destruct k; cbn; intros Hl Hm;
    [unfold clearWindArrows|unfold clearRainDirection];
    rewrite Hl, Hm; eexists; repeat split.
Qed.

(** A layer reference is only ever set on a map that exists, so
    clearing does not throw in a state the script reaches. *)
Lemma clear_no_throw k s : map s <> None -> throws (clear k s) = false.
Proof.
  intros Hm. destruct (map s) as [m|] eqn:E; [|congruence].
  destruct k; cbn.
  - unfold clearWindArrows. rewrite E.
    destruct (windArrowLayer s); reflexivity.
  - unfold clearRainDirection. rewrite E.
    destruct (rainDirLayer s); reflexivity.
Qed.

End GlyphClear.

(** C9. For the wind-arrow layer and for the rain-direction layer alike:
    when a layer is on the map, the first clear takes it off the map and
    sets the layer reference to null; a second clear right after it
    completes normally and returns the very same state. Clearing with a
    null reference is a no-op in every state. *)
Theorem clear_twice :
  (forall (k : Glyph.Kind) (s : Glyph.State) (l : Glyph.layer_id)
          (m : Glyph.LeafletMap),
      Glyph.layer_ref k s = Some l ->
      Glyph.map s = Some m ->
      exists s',
        Glyph.clear k s = Returns tt s' /\
        Glyph.layer_ref k s' = None /\
        Glyph.layers_on_map s' = Some (Glyph.layers m ∖ {[ l ]}) /\
        Glyph.clear k s' = Returns tt s') /\
  (forall (k : Glyph.Kind) (s s' : Glyph.State),
      Glyph.clear k s = Returns tt s' ->
      Glyph.clear k s' = Returns tt s').
Proof.
  split.
  - intros k s l m Hl Hm.
    destruct (clear_present k s l m Hl Hm) as (s' & Hc & Hn & Hon).
    exists s'. repeat split; try assumption.
    apply clear_absent, Hn.
  - intros k s s' Hc. apply clear_absent.
    destruct k; cbn in *;
      [unfold Glyph.clearWindArrows in Hc|unfold Glyph.clearRainDirection in Hc].
    + destruct (Glyph.windArrowLayer s) eqn:E.
      * destruct (Glyph.map s); [|discriminate].
        injection Hc as <-. reflexivity.
      * injection Hc as <-. exact E.
    + destruct (Glyph.rainDirLayer s) eqn:E.
      * destruct (Glyph.map s); [|discriminate].
        injection Hc as <-. reflexivity.
      * injection Hc as <-. exact E.
Qed.

Lemma clear_twice_witness :
  exists s',
    Glyph.clear Glyph.rain GlyphSamples.with_both = Returns tt s' /\
    Glyph.layer_ref Glyph.rain s' = None /\
    Glyph.layers_on_map s'
      = Some (Glyph.layers GlyphSamples.map_with_both ∖ {[ 1%nat ]}) /\
    Glyph.clear Glyph.rain s' = Returns tt s'.
Proof.
  apply (proj1 clear_twice Glyph.rain GlyphSamples.with_both 1%nat
           GlyphSamples.map_with_both).
  - reflexivity.
  - vm_compute. reflexivity.
Defined.

(** ** Order of binary64 numbers *)

Section FloatOrder.
Local Open Scope float_scope.

(** Swapping the arguments of a comparison mirrors its result. *)
Lemma SFcompare_swap (a b : spec_float) :
  SFcompare b a = option_map CompOpp (SFcompare a b).
Proof.
  destruct a as [sa|sa| |sa ma ea], b as [sb|sb| |sb mb eb]; cbn;
    try reflexivity;
    try (destruct sa; reflexivity); try (destruct sb; reflexivity);
    try (destruct sa, sb; reflexivity).
  destruct sa, sb; cbn; try reflexivity.
  - rewrite (Z.compare_antisym ea eb).
    destruct (ea ?= eb)%Z; cbn; try reflexivity.
    rewrite (Pos.compare_cont_antisym ma mb Eq). cbn. reflexivity.
  - rewrite (Z.compare_antisym ea eb).
    destruct (ea ?= eb)%Z; cbn; try reflexivity.
    rewrite (Pos.compare_cont_antisym ma mb Eq). cbn.
    destruct (Pos.compare_cont Eq ma mb); reflexivity.
Qed.

Lemma compare_swap (x y : float) :
  (y ?= x) = match (x ?= y) with
             | FLt => FGt
             | FGt => FLt
             | c => c
             end.
Proof.
  rewrite !FloatAxioms.compare_spec, SFcompare_swap.
  destruct (SFcompare (Prim2SF x) (Prim2SF y)) as [[]|]; reflexivity.
Qed.

Lemma compare_leb (x y : float) :
  (x <=? y) = match (x ?= y) with
              | FLt | FEq => true
              | _ => false
              end.
Proof.
  rewrite FloatAxioms.leb_spec, FloatAxioms.compare_spec. unfold SFleb.
  destruct (SFcompare (Prim2SF x) (Prim2SF y)) as [[]|]; reflexivity.
Qed.

Lemma compare_ltb (x y : float) :
  (x <? y) = match (x ?= y) with
             | FLt => true
             | _ => false
             end.
Proof.
  rewrite FloatAxioms.ltb_spec, FloatAxioms.compare_spec. unfold SFltb.
  destruct (SFcompare (Prim2SF x) (Prim2SF y)) as [[]|]; reflexivity.
Qed.

Lemma SFcompare_lt_trans (a b c : spec_float) :
  SFcompare a b = Some Lt -> SFcompare b c = Some Lt ->
  SFcompare a c = Some Lt.
Proof.
  destruct a as [sa|sa| |sa ma ea], b as [sb|sb| |sb mb eb],
           c as [sc|sc| |sc mc ec]; cbn;
    try discriminate; try reflexivity;
    try (destruct sa; try discriminate; try reflexivity);
    try (destruct sb; try discriminate; try reflexivity);
    try (destruct sc; try discriminate; try reflexivity);
    change (Pos.compare_cont Eq) with Pos.compare;
    intros H1 H2;
    destruct (Z.compare_spec ea eb), (Z.compare_spec eb ec),
             (Z.compare_spec ea ec);
    try discriminate; try reflexivity; try lia; subst;
    destruct (Pos.compare_spec ma mb), (Pos.compare_spec mb mc),
             (Pos.compare_spec ma mc);
    try discriminate; try reflexivity; try lia.
Qed.

Lemma ltb_trans (x y z : float) :
  (x <? y) = true -> (y <? z) = true -> (x <? z) = true.
Proof.
  rewrite !FloatAxioms.ltb_spec. unfold SFltb.
  destruct (SFcompare (Prim2SF x) (Prim2SF y)) as [[]|] eqn:E1; try discriminate.
  destruct (SFcompare (Prim2SF y) (Prim2SF z)) as [[]|] eqn:E2; try discriminate.
  rewrite (SFcompare_lt_trans _ _ _ E1 E2). reflexivity.
Qed.

End FloatOrder.

Section FloatNaN.
Local Open Scope float_scope.

Lemma SFcompare_none (a b : spec_float) :
  SFcompare a b = None -> a = S754_nan \/ b = S754_nan.
Proof.
  destruct a as [sa|sa| |sa ma ea], b as [sb|sb| |sb mb eb]; cbn;
    try discriminate; auto;
    try (destruct sa; discriminate); try (destruct sb; discriminate).
Qed.

Lemma SFcompare_refl (a : spec_float) :
  a <> S754_nan -> SFcompare a a = Some Eq.
Proof.
  destruct a as [sa|sa| |sa ma ea]; cbn; intros H;
    try reflexivity; try congruence.
  - destruct sa; reflexivity.
  - change (Pos.compare_cont Eq) with Pos.compare.
    rewrite Z.compare_refl, Pos.compare_refl. destruct sa; reflexivity.
Qed.

Lemma is_nan_spec (x : float) :
  PrimFloat.is_nan x = false <-> Prim2SF x <> S754_nan.
Proof.
  unfold PrimFloat.is_nan. rewrite FloatAxioms.eqb_spec. unfold SFeqb. split.
  - intros H E. rewrite E in H. discriminate H.
  - intros H. rewrite SFcompare_refl by exact H. reflexivity.
Qed.

Lemma compare_comparable (x y : float) :
  PrimFloat.is_nan x = false -> PrimFloat.is_nan y = false ->
  (x ?= y) <> FNotComparable.
Proof.
  rewrite !is_nan_spec, FloatAxioms.compare_spec. intros Hx Hy.
  destruct (SFcompare (Prim2SF x) (Prim2SF y)) as [[]|] eqn:E; cbn;
    try discriminate.
  destruct (SFcompare_none _ _ E); contradiction.
Qed.

Lemma leb_refl (x : float) : PrimFloat.is_nan x = false -> (x <=? x) = true.
Proof.
  rewrite is_nan_spec, FloatAxioms.leb_spec. intros H. unfold SFleb.
  rewrite SFcompare_refl by exact H. reflexivity.
Qed.

Lemma leb_not_nan (x y : float) :
  (x <=? y) = true ->
  PrimFloat.is_nan x = false /\ PrimFloat.is_nan y = false.
Proof.
  rewrite !is_nan_spec, FloatAxioms.leb_spec. unfold SFleb. intros H.
  split; intros E; rewrite E in H; cbn in H;
    [|destruct (Prim2SF x)]; discriminate H.
Qed.

End FloatNaN.

(** ** clamp *)

Section Clamp.
Import Helpers.
Local Open Scope float_scope.

Lemma Math_min_cases (x y : float) :
  PrimFloat.is_nan x = false -> PrimFloat.is_nan y = false ->
  (Math_min x y = x /\ (x <=? y) = true) \/
  (Math_min x y = y /\ (y <=? x) = true).
Proof.
  intros Hx Hy. pose proof (compare_comparable x y Hx Hy) as Hc.
  unfold Math_min. rewrite (compare_leb x y), (compare_leb y x), (compare_swap x y).
  destruct (x ?= y); try congruence; auto.
  destruct (is_neg_zero x); auto.
Qed.

Lemma Math_max_cases (x y : float) :
  PrimFloat.is_nan x = false -> PrimFloat.is_nan y = false ->
  (Math_max x y = x /\ (y <=? x) = true) \/
  (Math_max x y = y /\ (x <=? y) = true).
Proof.
  intros Hx Hy. pose proof (compare_comparable x y Hx Hy) as Hc.
  unfold Math_max. rewrite (compare_leb x y), (compare_leb y x), (compare_swap x y).
  destruct (x ?= y); try congruence; auto.
  destruct (is_neg_zero x); auto.
Qed.

End Clamp.

(** For bounds in order and a value that is a number, the result of
    clamp lies between the bounds; clamp of NaN is NaN. *)
Theorem clamp_within_bounds :
  forall v a b : float,
    PrimFloat.leb a b = true ->
    (PrimFloat.is_nan v = false ->
       PrimFloat.leb a (Helpers.clamp v a b) = true /\
       PrimFloat.leb (Helpers.clamp v a b) b = true) /\
    (PrimFloat.is_nan v = true ->
       PrimFloat.is_nan (Helpers.clamp v a b) = true).
Proof.
  intros v a b Hab.
  destruct (leb_not_nan a b Hab) as [Ha Hb].
  split.
  - intros Hv. unfold Helpers.clamp.
    destruct (Math_min_cases b v Hb Hv) as [[-> Hbv]|[-> Hvb]].
    + destruct (Math_max_cases a b Ha Hb) as [[-> _]|[-> _]].
      * split; [apply leb_refl, Ha|exact Hab].
      * split; [exact Hab|apply leb_refl, Hb].
    + destruct (Math_max_cases a v Ha Hv) as [[-> _]|[-> Hav]].
      * split; [apply leb_refl, Ha|exact Hab].
      * split; [exact Hav|exact Hvb].
  - intros Hv. unfold Helpers.clamp, Helpers.Math_min.
    assert (Ev : Prim2SF v = S754_nan).
    { destruct (Prim2SF v) eqn:E; try reflexivity;
        assert (Hn : PrimFloat.is_nan v = false)
          by (apply is_nan_spec; rewrite E; discriminate);
        congruence. }
    rewrite FloatAxioms.compare_spec, Ev.
    replace (SFcompare (Prim2SF b) S754_nan) with (@None comparison)
      by (destruct (Prim2SF b); reflexivity).
    cbn [FloatAxioms.flatten_cmp_opt]. unfold Helpers.Math_max.
    rewrite FloatAxioms.compare_spec.
    replace (SFcompare (Prim2SF a) (Prim2SF nan)) with (@None comparison)
      by (destruct (Prim2SF a); reflexivity).
    reflexivity.
Qed.

Lemma clamp_within_bounds_witness :
  PrimFloat.leb 0.2 (Helpers.clamp 4 0.2 2.6) = true /\
  PrimFloat.leb (Helpers.clamp 4 0.2 2.6) 2.6 = true.
Proof.
  apply (proj1 (clamp_within_bounds 4 0.2 2.6 eq_refl)). reflexivity.
Defined.

(** ** The wind peak of the coming hours *)

Section WindPeak.
Import Helpers Forecast.
Local Open Scope float_scope.

Lemma gt_irrefl (a : float) : gt a a = false.
Proof.
  unfold gt. rewrite FloatAxioms.ltb_spec. unfold SFltb.
  destruct (Prim2SF a) as [s|s| |s m e] eqn:E; try reflexivity.
  - destruct s; reflexivity.
  - rewrite SFcompare_refl by discriminate. reflexivity.
Qed.

(** Raising the best value keeps every entry that was not above it not
    above it. *)
Lemma gt_raise (a b b' : float) :
  gt b' b = true -> gt a b = false -> gt a b' = false.
Proof.
  unfold gt. intros Hb Ha.
  destruct (b' <? a) eqn:E; [|reflexivity].
  rewrite (ltb_trans b b' a Hb E) in Ha. discriminate Ha.
Qed.

Lemma scan_spec (l : list float) : forall (i : nat) (best : nat * float),
  let r := scan l i best in
  (r = best \/ exists k a, l !! k = Some a /\ r = ((i + k)%nat, a)) /\
  (forall a, gt a (snd best) = false -> gt a (snd r) = false) /\
  (forall k a, l !! k = Some a -> gt a (snd r) = false).
Proof.
  induction l as [|a l IH]; intros i best; cbn [scan].
  - split; [left; reflexivity|]. split; [auto|]. intros k x Hk. discriminate Hk.
  - set (best' := if gt a (snd best) then (i, a) else best).
    destruct (IH (S i) best') as (Hpos & Hdom & Hmax).
    assert (Hstep : forall x, gt x (snd best) = false -> gt x (snd best') = false).
    { intros x Hx. subst best'. destruct (gt a (snd best)) eqn:Ea; [|exact Hx].
      cbn. exact (gt_raise x (snd best) a Ea Hx). }
    assert (Ha : gt a (snd best') = false).
    { subst best'. destruct (gt a (snd best)) eqn:Ea; [apply gt_irrefl|exact Ea]. }
    split; [|split].
    + destruct Hpos as [Hr|(k & x & Hk & Hr)].
      * rewrite Hr. subst best'. destruct (gt a (snd best)).
        -- right. exists O, a. split; [reflexivity|]. rewrite Nat.add_0_r. reflexivity.
        -- left. reflexivity.
      * right. exists (S k), x. split; [exact Hk|].
        rewrite Hr. f_equal. lia.
    + intros x Hx. apply Hdom, Hstep, Hx.
    + intros [|k] x Hk.
      * cbn in Hk. injection Hk as <-. apply Hdom, Ha.
      * apply (Hmax k x). exact Hk.
Qed.

End WindPeak.

(** findWindPeakSoon returns null exactly for an empty series. For any
    other series it returns one of the first six entries, with the
    minutes of its index (a multiple of 60, at most 300), and none of the
    first six entries is greater than the one returned. *)
Theorem findWindPeakSoon_peak :
  Forecast.findWindPeakSoon [] = None /\
  forall arr : list float,
    arr <> [] ->
    exists (p : Forecast.Peak) (i : nat),
      Forecast.findWindPeakSoon arr = Some p /\
      (i < Nat.min 6 (length arr))%nat /\
      Forecast.minutes p = Z.of_nat i * 60 /\
      arr !! i = Some (Forecast.kmh p) /\
      forall (j : nat) (a : float),
        (j < 6)%nat -> arr !! j = Some a ->
        Helpers.gt a (Forecast.kmh p) = false.
Proof.
  split; [reflexivity|].
  intros arr Hne. destruct arr as [|a0 t]; [congruence|].
  unfold Forecast.findWindPeakSoon.
  set (l := take 6 (a0 :: t)).
  destruct (scan_spec l O (O, a0)) as (Hpos & _ & Hmax).
  set (r := Forecast.scan l 0 (O, a0)) in *.
  assert (Hi : exists i, fst r = i /\ (i < Nat.min 6 (length (a0 :: t)))%nat /\
                         (a0 :: t) !! i = Some (snd r)).
  { destruct Hpos as [Hr|(k & x & Hk & Hr)]; rewrite Hr; cbn [fst snd].
    - exists O. repeat split. cbn. lia.
    - exists k. subst l. apply lookup_take_Some in Hk as [Hk Hlt].
      split; [reflexivity|]. split; [|exact Hk].
      apply lookup_lt_Some in Hk. lia. }
  destruct Hi as (i & Hfst & Hlt & Hlook).
  exists {| Forecast.minutes := Z.of_nat (fst r) * 60; Forecast.kmh := snd r |}, i.
  cbn [Forecast.minutes Forecast.kmh]. rewrite Hfst.
  repeat split; try assumption.
  intros j a Hj Ha. apply (Hmax j a).
  subst l. rewrite lookup_take_lt by exact Hj. exact Ha.
Qed.

Lemma findWindPeakSoon_peak_witness :
  exists (p : Forecast.Peak) (i : nat),
    Forecast.findWindPeakSoon [12; 70; 64; 71; 30; 20; 95]%float = Some p /\
    (i < Nat.min 6 (length [12; 70; 64; 71; 30; 20; 95]%float))%nat /\
    Forecast.minutes p = Z.of_nat i * 60 /\
    [12; 70; 64; 71; 30; 20; 95]%float !! i = Some (Forecast.kmh p) /\
    forall (j : nat) (a : float),
      (j < 6)%nat -> [12; 70; 64; 71; 30; 20; 95]%float !! j = Some a ->
      Helpers.gt a (Forecast.kmh p) = false.
Proof.
  apply (proj2 findWindPeakSoon_peak [12; 70; 64; 71; 30; 20; 95]%float).
  discriminate.
Defined.

(** ** The coming rain event *)

Section RainEvent.
Import Helpers.
Local Open Scope float_scope.

Lemma find_start_spec (l : list float) : forall i : nat,
  match find_start l i with
  | None => forall j a, l !! j = Some a -> gt a TH = false
  | Some s =>
      exists k a, s = (i + k)%nat /\ l !! k = Some a /\ gt a TH = true /\
        forall j b, (j < k)%nat -> l !! j = Some b -> gt b TH = false
  end.
Proof.
  induction l as [|a l IH]; intros i; cbn [find_start].
  - intros j x Hj. discriminate Hj.
  - destruct (gt a TH) eqn:Ea.
    + exists O, a. rewrite Nat.add_0_r. repeat split; try assumption. lia.
    + specialize (IH (S i)). destruct (find_start l (S i)) as [s|].
      * destruct IH as (k & x & -> & Hk & Hx & Hbefore).
        exists (S k), x. repeat split; try assumption; [lia|].
        intros [|j] b Hj Hb; [cbn in Hb; congruence|].
        apply (Hbefore j b); [lia|exact Hb].
      * intros [|j] x Hj; [cbn in Hj; congruence|]. apply (IH j x Hj).
Qed.

Lemma accumulate_spec (l : list float) : forall (i : nat) (total : float) (e : nat),
  exists n : nat,
    (n <= length l)%nat /\
    (forall k a, (k < n)%nat -> l !! k = Some a -> gt a TH = true) /\
    (forall a, l !! n = Some a -> gt a TH = false) /\
    fst (accumulate l i total e) = fold_left PrimFloat.add (take n l) total /\
    snd (accumulate l i total e) = match n with
                                   | O => e
                                   | S m => (i + m)%nat
                                   end.
Proof.
  induction l as [|a l IH]; intros i total e; cbn [accumulate].
  - exists O. repeat split; cbn; try lia; intros; discriminate.
  - destruct (gt a TH) eqn:Ea.
    + destruct (IH (S i) (total + a) i) as (n & Hn & Hwet & Hdry & Ht & He).
      exists (S n). cbn [length take fold_left]. repeat split.
      * lia.
      * intros [|k] x Hk Hx; [cbn in Hx; congruence|].
        apply (Hwet k x); [lia|exact Hx].
      * exact Hdry.
      * exact Ht.
      * rewrite He. destruct n; lia.
    + exists O. repeat split; try (cbn; lia).
      intros x Hx. cbn in Hx. injection Hx as <-. exact Ea.
Qed.

End RainEvent.

(** computeRainEvent15 reports no event exactly when no sample is above
    the threshold. Otherwise the event starts at the first sample above
    the threshold and covers the samples above the threshold that follow
    it without a gap: the start is 15 minutes times that index, the
    duration 15 minutes times the number of those samples, the total
    their sum in order, and the sample after them, if there is one, is
    not above the threshold. *)
Theorem computeRainEvent15_event :
  forall arr : list float,
    let ev := Helpers.computeRainEvent15 arr in
    match Helpers.startMin ev with
    | None =>
        (forall j a, arr !! j = Some a -> Helpers.gt a Helpers.TH = false) /\
        Helpers.durationMin ev = 0 /\
        Helpers.totalMm ev = 0%float
    | Some sm =>
        exists start n : nat,
          sm = Z.of_nat start * 15 /\
          (1 <= n)%nat /\
          Helpers.durationMin ev = Z.of_nat n * 15 /\
          (start + n <= length arr)%nat /\
          (forall j a, (j < start)%nat -> arr !! j = Some a ->
                       Helpers.gt a Helpers.TH = false) /\
          (forall k a, (start <= k < start + n)%nat -> arr !! k = Some a ->
                       Helpers.gt a Helpers.TH = true) /\
          (forall a, arr !! (start + n)%nat = Some a ->
                     Helpers.gt a Helpers.TH = false) /\
          Helpers.totalMm ev
            = fold_left PrimFloat.add (take n (drop start arr)) 0%float
    end.
Proof.
  intros arr ev. subst ev. unfold Helpers.computeRainEvent15.
  destruct arr as [|a0 t] eqn:Earr.
  { cbn. repeat split. intros j a Hj. discriminate Hj. }
  rewrite <- Earr. clear Earr a0 t.
  pose proof (find_start_spec arr O) as Hfs.
  destruct (Helpers.find_start arr 0) as [start|].
  - destruct Hfs as (k & a & -> & Hk & Ha & Hbefore). cbn [Nat.add].
    destruct (accumulate_spec (drop k arr) k 0%float k)
      as (n & Hn & Hwet & Hdry & Ht & He).
    destruct (Helpers.accumulate (drop k arr) k 0 k) as [total end_].
    cbn [fst snd] in Ht, He. cbn [Helpers.startMin Helpers.durationMin Helpers.totalMm].
    assert (Hn1 : (1 <= n)%nat).
    { destruct n; [|lia]. specialize (Hdry a).
      rewrite lookup_drop, Nat.add_0_r in Hdry. rewrite (Hdry Hk) in Ha.
      discriminate Ha. }
    exists k, n. rewrite length_drop in Hn.
    repeat split; try assumption.
    + rewrite He. destruct n; lia.
    + apply lookup_lt_Some in Hk. lia.
    + intros j x [Hj1 Hj2] Hx. apply (Hwet (j - k)%nat x); [lia|].
      rewrite lookup_drop. replace (k + (j - k))%nat with j by lia. exact Hx.
    + intros x Hx. apply Hdry. rewrite lookup_drop. exact Hx.
  - cbn. repeat split. exact Hfs.
Qed.

Lemma computeRainEvent15_event_witness :
  let arr := [0; 0.05; 0.3; 0.4; 1.2; 0.0; 0.2]%float in
  let ev := Helpers.computeRainEvent15 arr in
  match Helpers.startMin ev with
  | None =>
      (forall j a, arr !! j = Some a -> Helpers.gt a Helpers.TH = false) /\
      Helpers.durationMin ev = 0 /\
      Helpers.totalMm ev = 0%float
  | Some sm =>
      exists start n : nat,
        sm = Z.of_nat start * 15 /\
        (1 <= n)%nat /\
        Helpers.durationMin ev = Z.of_nat n * 15 /\
        (start + n <= length arr)%nat /\
        (forall j a, (j < start)%nat -> arr !! j = Some a ->
                     Helpers.gt a Helpers.TH = false) /\
        (forall k a, (start <= k < start + n)%nat -> arr !! k = Some a ->
                     Helpers.gt a Helpers.TH = true) /\
        (forall a, arr !! (start + n)%nat = Some a ->
                   Helpers.gt a Helpers.TH = false) /\
        Helpers.totalMm ev
          = fold_left PrimFloat.add (take n (drop start arr)) 0%float
  end.
Proof.
  exact (computeRainEvent15_event [0; 0.05; 0.3; 0.4; 1.2; 0.0; 0.2]%float).
Defined.

(** ** escapeHtml loses nothing *)

Section EscapeMore.
Import Helpers EscapeSpec EscapeMore.
Local Open Scope string_scope.

Lemma escapeEach_app s t : escapeEach (s ++ t) = escapeEach s ++ escapeEach t.
Proof.
  induction s as [|a s IH]; [reflexivity|].
  rewrite append_cons. cbn [escapeEach]. rewrite IH, append_assoc. reflexivity.
Qed.

Lemma unescape_escapeChar a r :
  unescape (escapeChar a ++ r) = String a (unescape r).
Proof. destruct a as [[] [] [] [] [] [] [] []]; reflexivity. Qed.

Lemma unescape_escapeEach s : unescape (escapeEach s) = s.
Proof.
  induction s as [|a s IH]; [reflexivity|].
  cbn [escapeEach]. rewrite unescape_escapeChar, IH. reflexivity.
Qed.

Lemma string_length_app (s t : string) :
  String.length (s ++ t) = (String.length s + String.length t)%nat.
Proof.
  induction s as [|a s IH]; [reflexivity|].
  rewrite append_cons. cbn [String.length]. rewrite IH. reflexivity.
Qed.

Lemma escapeChar_plain a : is_meta a = false -> escapeChar a = String a EmptyString.
Proof.
  unfold is_meta, escapeChar. intros H.
  repeat (apply orb_false_iff in H; destruct H as [H ?]).
  repeat match goal with E : Ascii.eqb _ _ = false |- _ => rewrite E; clear E end.
  reflexivity.
Qed.

Lemma escapeChar_meta a :
  is_meta a = true ->
  (4 <= String.length (escapeChar a))%nat /\ count_meta (escapeChar a) = 1%nat.
Proof.
  unfold is_meta, escapeChar. intros H.
  destruct (Ascii.eqb a ch_amp); [cbn; split; [lia|reflexivity]|].
  destruct (Ascii.eqb a ch_lt); [cbn; split; [lia|reflexivity]|].
  destruct (Ascii.eqb a ch_gt); [cbn; split; [lia|reflexivity]|].
  destruct (Ascii.eqb a ch_dquote); [cbn; split; [lia|reflexivity]|].
  destruct (Ascii.eqb a ch_squote); [cbn; split; [lia|reflexivity]|].
  discriminate H.
Qed.

Lemma count_meta_app s t : count_meta (s ++ t) = (count_meta s + count_meta t)%nat.
Proof.
  induction s as [|a s IH]; [reflexivity|].
  rewrite append_cons. cbn [count_meta]. rewrite IH. lia.
Qed.

Lemma escapeEach_measure s :
  (String.length s + 3 * count_meta s <= String.length (escapeEach s))%nat /\
  count_meta (escapeEach s) = count_meta s.
Proof.
  induction s as [|a s [IH1 IH2]]; [split; reflexivity|].
  cbn [escapeEach String.length count_meta].
  rewrite string_length_app, count_meta_app, IH2.
  destruct (is_meta a) eqn:Ea.
  - destruct (escapeChar_meta a Ea) as [H4 H1]. rewrite H1. split; lia.
  - rewrite (escapeChar_plain a Ea). cbn. rewrite Ea. split; lia.
Qed.

Lemma escapeEach_plain s : count_meta s = O -> escapeEach s = s.
Proof.
  induction s as [|a s IH]; [reflexivity|].
  cbn [count_meta escapeEach]. destruct (is_meta a) eqn:Ea; [discriminate|].
  intros H. rewrite (escapeChar_plain a Ea), IH by exact H. reflexivity.
Qed.

End EscapeMore.

(** escapeHtml works character by character and loses nothing: the
    escape of a concatenation is the concatenation of the escapes, a
    reader of the five entities gives the input back, and so two
    different inputs never have the same escape. *)
Theorem escapeHtml_injective :
  forall s t : string,
    Helpers.escapeHtml (s ++ t)%string
      = (Helpers.escapeHtml s ++ Helpers.escapeHtml t)%string /\
    EscapeMore.unescape (Helpers.escapeHtml s) = s /\
    (Helpers.escapeHtml s = Helpers.escapeHtml t -> s = t).
Proof.
  intros s t. rewrite !escapeHtml_escapeEach. split; [apply escapeEach_app|].
  split; [apply unescape_escapeEach|].
  intros H. apply (f_equal EscapeMore.unescape) in H.
  rewrite !unescape_escapeEach in H. exact H.
Qed.

Lemma escapeHtml_injective_witness :
  Helpers.escapeHtml ("a<b" ++ "&c")%string
    = (Helpers.escapeHtml "a<b" ++ Helpers.escapeHtml "&c")%string /\
  EscapeMore.unescape (Helpers.escapeHtml "a<b") = "a<b"%string /\
  (Helpers.escapeHtml "a<b" = Helpers.escapeHtml "&c" -> "a<b"%string = "&c"%string).
Proof. exact (escapeHtml_injective "a<b" "&c"). Defined.

(** escapeHtml leaves a string as it is exactly when the string holds
    none of the five characters it rewrites; each such character makes
    the output at least three characters longer. Escaping is therefore
    not idempotent: escaping an escaped string changes it again unless
    the original held none of these characters. *)
Theorem escapeHtml_fixed_points :
  forall s : string,
    (Helpers.escapeHtml s = s <-> EscapeMore.count_meta s = O) /\
    (Helpers.escapeHtml (Helpers.escapeHtml s) = Helpers.escapeHtml s
       <-> EscapeMore.count_meta s = O) /\
    (String.length s + 3 * EscapeMore.count_meta s
       <= String.length (Helpers.escapeHtml s))%nat.
Proof.
  intros s.
  assert (Hfix : forall u, Helpers.escapeHtml u = u <-> EscapeMore.count_meta u = O).
  { intros u. rewrite escapeHtml_escapeEach. split.
    - intros H. destruct (escapeEach_measure u) as [Hlen _].
      rewrite H in Hlen. lia.
    - apply escapeEach_plain. }
  split; [apply Hfix|]. split.
  - rewrite Hfix, escapeHtml_escapeEach.
    destruct (escapeEach_measure s) as [_ ->]. reflexivity.
  - rewrite escapeHtml_escapeEach. apply escapeEach_measure.
Qed.

Lemma escapeHtml_fixed_points_witness :
  Helpers.escapeHtml "Paris 15e" = "Paris 15e"%string.
Proof.
  apply (proj1 (escapeHtml_fixed_points "Paris 15e")). reflexivity.
Defined.

(** ** The timeline as a whole *)

Section TimelineSync.
Import Timeline Part001 TimelineSpec.

(** Showing the frame at the cursor, on an initialised map. *)
Lemma display_at_cursor s z f :
  map_ready s = true ->
  frameIndex s = Int z ->
  at_index (frames s) (Int z) = Some f ->
  let s' := updateTimeLabel (showRadarFrame (Int z) s) in
  displayed_url s' = Some (tileUrl f) /\
  timeLabelText s' = toLocaleTimeString (tzOffsetMin s) (time f * 1000) /\
  frames s' = frames s /\ frameIndex s' = Int z /\
  sliderMin s' = sliderMin s /\ sliderMax s' = sliderMax s /\
  sliderValue s' = sliderValue s /\ map_ready s' = true /\
  tzOffsetMin s' = tzOffsetMin s.
Proof.
  intros Hm Hi Hf s'. subst s'.
  pose proof (showRadarFrame_keeps (Int z) s) as Hs. cbv zeta in Hs.
  destruct Hs as (Hs1 & Hs2 & _ & _ & _ & _ & Hs7 & Hs8 & Hs9 & _ & Hs11 & Hs12).
  pose proof (updateTimeLabel_keeps (showRadarFrame (Int z) s)) as Hu.
  cbv zeta in Hu.
  destruct Hu as (Hu1 & Hu2 & _ & _ & _ & _ & Hu7 & Hu8 & Hu9 & Hu10 & _ & Hu12).
  repeat split.
  - unfold displayed_url. rewrite Hu10. apply showRadarFrame_url; assumption.
  - unfold updateTimeLabel. rewrite Hs1, Hs2, Hi, Hf, Hs11. reflexivity.
  - rewrite Hu1. exact Hs1.
  - rewrite Hu2, Hs2. exact Hi.
  - rewrite Hu7. exact Hs7.
  - rewrite Hu8. exact Hs8.
  - rewrite Hu9. exact Hs9.
  - rewrite Hu12, Hs12. exact Hm.
  - unfold updateTimeLabel. rewrite Hs1, Hs2, Hi, Hf. cbn. exact Hs11.
Qed.

(** Fields that playback control does not touch. *)
Lemma startRadarAuto_display s :
  let s' := startRadarAuto s in
  frames s' = frames s /\ frameIndex s' = frameIndex s /\
  map_ready s' = map_ready s /\ sliderMin s' = sliderMin s /\
  sliderMax s' = sliderMax s /\ sliderValue s' = sliderValue s /\
  timeLabelText s' = timeLabelText s /\ tzOffsetMin s' = tzOffsetMin s /\
  radarLayer s' = radarLayer s.
Proof.
  unfold startRadarAuto. cbv zeta.
  destruct (anim s); [repeat split|].
  destruct (_ =? _)%nat; repeat split.
Qed.

Lemma stopRadarAuto_display s :
  let s' := stopRadarAuto s in
  frames s' = frames s /\ frameIndex s' = frameIndex s /\
  map_ready s' = map_ready s /\ sliderMin s' = sliderMin s /\
  sliderMax s' = sliderMax s /\ sliderValue s' = sliderValue s /\
  timeLabelText s' = timeLabelText s /\ tzOffsetMin s' = tzOffsetMin s /\
  radarLayer s' = radarLayer s.
Proof. unfold stopRadarAuto. destruct (anim s); repeat split. Qed.

Lemma in_sync_ext s s' :
  frames s' = frames s -> frameIndex s' = frameIndex s ->
  (map_ready s = true -> map_ready s' = true) ->
  sliderMin s' = sliderMin s -> sliderMax s' = sliderMax s ->
  sliderValue s' = sliderValue s -> timeLabelText s' = timeLabelText s ->
  tzOffsetMin s' = tzOffsetMin s -> displayed_url s' = displayed_url s ->
  in_sync s -> in_sync s'.
Proof.
  intros Hf Hi Hm H1 H2 H3 H4 H5 H6 [He|(z & f & I1 & I2 & I3 & I4 & I5 & I6 & I7 & I8 & I9)].
  - left. congruence.
  - right. exists z, f. rewrite Hf, Hi, H1, H2, H3, H4, H5, H6.
    repeat split; try assumption; try lia. apply Hm, I1.
Qed.

Lemma at_index_Int {A} (l : list A) z :
  0 <= z < Z.of_nat (length l) -> exists a, at_index l (Int z) = Some a.
Proof. intros H. apply (at_index_in_range l (Int z)). exact H. Qed.

Lemma in_sync_show s z :
  map_ready s = true -> frames s <> [] ->
  0 <= z < Z.of_nat (length (frames s)) ->
  frameIndex s = Int z -> sliderValue s = Int z ->
  sliderMin s = 0 -> sliderMax s = Z.of_nat (length (frames s)) - 1 ->
  in_sync (updateTimeLabel (showRadarFrame (Int z) s)).
Proof.
  intros Hm Hne Hz Hi Hv Hmin Hmax.
  destruct (at_index_Int (frames s) z Hz) as [f Hf].
  destruct (display_at_cursor s z f Hm Hi Hf)
    as (D1 & D2 & D3 & D4 & D5 & D6 & D7 & D8 & D9).
  right. exists z, f. rewrite D3, D5, D6, D7, D9.
  repeat split; try assumption; lia.
Qed.

Lemma succ_mod_in_range z n :
  (0 < n)%nat -> 0 <= z < Z.of_nat n ->
  exists z', succ_mod (Int z) n = Int z' /\ 0 <= z' < Z.of_nat n /\
             z' = (z + 1) mod Z.of_nat n.
Proof.
  intros Hn Hz. destruct n as [|n]; [lia|]. cbn [succ_mod].
  exists (Z.rem (z + 1) (Z.of_nat (S n))).
  rewrite Z.rem_mod_nonneg by lia.
  split; [reflexivity|]. split; [|reflexivity].
  apply Z.mod_pos_bound. lia.
Qed.

Lemma tick_in_sync s : in_sync s -> in_sync (tick s).
Proof.
  intros [He|(z & f & I1 & I2 & I3 & I4 & I5 & I6 & I7 & I8 & I9)].
  - left. unfold tick. cbv zeta.
    set (s1 := set_sliderValue _ _).
    pose proof (showRadarFrame_keeps (frameIndex s1) s1) as Hs.
    pose proof (updateTimeLabel_keeps (showRadarFrame (frameIndex s1) s1)) as Hu.
    cbv zeta in Hs, Hu. destruct Hs as (Hs1 & _). destruct Hu as (Hu1 & _).
    rewrite Hu1, Hs1. exact He.
  - unfold tick. cbv zeta. rewrite I2.
    destruct (succ_mod_in_range z (length (frames s))) as (z' & E & Hz' & _);
      [lia|exact I3|].
    rewrite E. cbn [frameIndex set_frameIndex set_sliderValue].
    apply in_sync_show; cbn; try assumption; try reflexivity.
    intros Hnil. rewrite Hnil in I3. cbn in I3. lia.
Qed.

Lemma settle_in_sync r s :
  map_ready s = true -> in_sync s ->
  in_sync (final_state (loadRadarFrames_settle r s)).
Proof.
  intros Hm Hs. destruct r as [| |data]; try exact Hs.
  unfold loadRadarFrames_settle, loadRadarFrames_try, try_catch. cbv zeta.
  set (p := catalog_list past data). set (n := catalog_list nowcast data).
  cbn [frames set_frames].
  destruct (length (p ++ n) =? 0)%nat eqn:Hlen.
  - left. cbn. apply Nat.eqb_eq in Hlen. destruct (p ++ n)%list; [reflexivity|discriminate].
  - apply Nat.eqb_neq in Hlen. cbn [final_state].
    set (z := Z.max 0 (Z.of_nat (length p) - 1)).
    set (s1 := set_sliderValue _ _).
    assert (Hz : 0 <= z < Z.of_nat (length (frames s1))).
    { subst s1 z. cbn. rewrite length_app in *. lia. }
    assert (Hi : frameIndex s1 = Int z) by reflexivity.
    rewrite Hi.
    eapply in_sync_ext; [..|apply (in_sync_show s1 z)]; try reflexivity;
      try assumption.
    + auto.
    + intros Hnil. subst s1. cbn in Hnil. rewrite Hnil in Hlen. cbn in Hlen. lia.
Qed.

Lemma step_in_sync e s : admissible e s -> in_sync s -> in_sync (step e s).
Proof.
  intros Ha Hs. destruct e as [|r|v| |b|b|h]; cbn [step].
  - unfold initMap. cbv zeta.
    destruct (startRadarAuto_display
                (loadRadarFrames_begin (set_map_ready true s)))
      as (E1 & E2 & E3 & E4 & E5 & E6 & E7 & E8 & E9).
    eapply in_sync_ext; [..|exact Hs]; try assumption.
    + intros _. rewrite E3. reflexivity.
    + unfold displayed_url. rewrite E9. reflexivity.
  - apply settle_in_sync; assumption.
  - cbn in Ha. unfold onSliderInput. cbv zeta.
    cbn [sliderValue set_sliderValue frameIndex set_frameIndex].
    destruct Hs as [He|(z & f & I1 & I2 & I3 & I4 & I5 & I6 & I7 & I8 & I9)].
    + left.
      set (s1 := set_frameIndex _ _).
      pose proof (showRadarFrame_keeps (Int v) s1) as Hs.
      pose proof (updateTimeLabel_keeps (showRadarFrame (Int v) s1)) as Hu.
      cbv zeta in Hs, Hu. destruct Hs as (Hs1 & _). destruct Hu as (Hu1 & _).
      rewrite Hu1, Hs1. exact He.
    + apply in_sync_show; cbn; try assumption; try reflexivity; try lia.
      intros Hnil. rewrite Hnil in I3. cbn in I3. lia.
  - unfold onPlayClick.
    destruct (length (frames s) =? 0)%nat; [exact Hs|].
    destruct (anim s) eqn:Ea; cbv zeta.
    + destruct (stopRadarAuto_display s) as (E1 & E2 & E3 & E4 & E5 & E6 & E7 & E8 & E9).
      eapply in_sync_ext; [..|exact Hs]; cbn; try assumption.
      * intros H. rewrite E3. exact H.
      * unfold displayed_url. cbn. rewrite E9. reflexivity.
    + destruct (startRadarAuto_display (set_rainAutoToggle true s))
        as (E1 & E2 & E3 & E4 & E5 & E6 & E7 & E8 & E9).
      eapply in_sync_ext; [..|exact Hs]; cbn; try assumption.
      * intros H. rewrite E3. exact H.
      * unfold displayed_url. cbn. rewrite E9. reflexivity.
  - unfold onRainAutoChange. cbv zeta. cbn [rainAutoToggle set_rainAutoToggle].
    destruct b.
    + destruct (startRadarAuto_display (set_rainAutoToggle true s))
        as (E1 & E2 & E3 & E4 & E5 & E6 & E7 & E8 & E9).
      eapply in_sync_ext; [..|exact Hs]; try assumption.
      * intros H. rewrite E3. exact H.
      * unfold displayed_url. rewrite E9. reflexivity.
    + destruct (stopRadarAuto_display (set_rainAutoToggle false s))
        as (E1 & E2 & E3 & E4 & E5 & E6 & E7 & E8 & E9).
      eapply in_sync_ext; [..|exact Hs]; try assumption.
      * intros H. rewrite E3. exact H.
      * unfold displayed_url. rewrite E9. reflexivity.
  - unfold onRadarToggleChange. cbv zeta.
    destruct (radarLayer (set_radarToggle b s)) eqn:El;
      (eapply in_sync_ext; [..|exact Hs]; try reflexivity; auto).
  - destruct (existsb _ _); [apply tick_in_sync, Hs|exact Hs].
Qed.

Lemma run_in_sync evs : forall s,
  admissible_run evs s -> in_sync s -> in_sync (run evs s).
Proof.
  induction evs as [|e evs IH]; intros s Ha Hs; [exact Hs|].
  destruct Ha as [Ha Hrest]. cbn. apply IH; [exact Hrest|].
  apply step_in_sync; assumption.
Qed.

End TimelineSync.

(** In every state the timeline reaches from its initial state, the
    display agrees with the frame list: when the list is not empty, the
    cursor lies within it, the slider runs from 0 to the last index and
    stands at the cursor, the label shows the time of the frame at the
    cursor, and the tile layer shows that frame's tiles. *)
Theorem timeline_in_sync :
  forall (page : Timeline.State) (evs : list Part001.Event),
    TimelineSpec.admissible_run evs (Part001.initial page) ->
    TimelineSpec.in_sync (Part001.run evs (Part001.initial page)).
Proof.
  intros page evs Ha. apply run_in_sync; [exact Ha|]. left. reflexivity.
Qed.

Lemma timeline_in_sync_witness :
  TimelineSpec.in_sync
    (Part001.run TimelineSpec.session (Part001.initial Samples.page)).
Proof.
  apply (timeline_in_sync Samples.page TimelineSpec.session).
  cbn [TimelineSpec.admissible_run TimelineSpec.session TimelineSpec.admissible].
  repeat split; try reflexivity; vm_compute; discriminate.
Defined.

(** ** Playback control *)

Lemma tick_advances_witness :
  Timeline.frameIndex (Part001.tick Samples.loaded)
  = Timeline.Int ((9 + 1) mod Z.of_nat (length (Timeline.frames Samples.loaded))).
Proof.
  apply (tick_advances Samples.loaded 9).
  - reflexivity.
  - split; [lia|reflexivity].
Defined.

(** The call of startRadarAuto in initMap comes before the catalog has
    arrived, while the frame list is still empty, so it arms no timer:
    after initMap, and still after the catalog has settled, whatever it
    holds, playback is not running. It starts with the first click on
    the play button once frames are there. *)
Theorem initMap_starts_no_playback :
  forall (page : Timeline.State)
         (r : Timeline.FetchResult (option Timeline.CatalogData)),
    let s0 := Part001.step Part001.InitMap (Part001.initial page) in
    let s1 := Part001.step (Part001.CatalogSettles r) s0 in
    Timeline.anim s0 = None /\ Timeline.intervals s0 = [] /\
    Timeline.anim s1 = None /\ Timeline.intervals s1 = [] /\
    (Timeline.frames s1 <> [] ->
     Timeline.anim (Part001.step Part001.PlayClick s1)
       = Some (Timeline.nextTimer s1) /\
     Timeline.intervals (Part001.step Part001.PlayClick s1)
       = [Timeline.nextTimer s1]).
Proof.
  intros page r s0 s1.
  assert (A0 : Timeline.anim s0 = None) by reflexivity.
  assert (I0 : Timeline.intervals s0 = []) by reflexivity.
  assert (A1 : Timeline.anim s1 = None).
  { subst s1. cbn [Part001.step].
    rewrite (proj1 (settle_keeps_timers r s0)). exact A0. }
  assert (I1 : Timeline.intervals s1 = []).
  { subst s1. cbn [Part001.step].
    rewrite (proj2 (settle_keeps_timers r s0)). exact I0. }
  clearbody s1.
  repeat split; try assumption.
  - cbn [Part001.step]. unfold Part001.onPlayClick.
    destruct (length (Timeline.frames s1) =? 0)%nat eqn:El.
    + apply Nat.eqb_eq in El. destruct (Timeline.frames s1); [congruence|discriminate].
    + rewrite A1. cbv zeta. unfold Part001.startRadarAuto.
      cbn [Timeline.anim Timeline.set_rainAutoToggle Timeline.frames].
      rewrite A1, El. reflexivity.
  - cbn [Part001.step]. unfold Part001.onPlayClick.
    destruct (length (Timeline.frames s1) =? 0)%nat eqn:El.
    + apply Nat.eqb_eq in El. destruct (Timeline.frames s1); [congruence|discriminate].
    + rewrite A1. cbv zeta. unfold Part001.startRadarAuto.
      cbn [Timeline.anim Timeline.set_rainAutoToggle Timeline.frames].
      rewrite A1, El. cbn. rewrite I1. reflexivity.
Qed.

Lemma initMap_starts_no_playback_witness :
  Timeline.anim (Part001.step Part001.PlayClick Samples.loaded)
    = Some (Timeline.nextTimer Samples.loaded) /\
  Timeline.intervals (Part001.step Part001.PlayClick Samples.loaded)
    = [Timeline.nextTimer Samples.loaded].
Proof.
  apply (initMap_starts_no_playback Samples.page (Timeline.Json Samples.catalog)).
  discriminate.
Defined.

(** Pausing is final until the next start: after stopRadarAuto the
    handle is null and no timer is armed, so no timer callback changes
    the state any more, and a second stopRadarAuto changes nothing. *)
Theorem stopRadarAuto_freezes :
  forall s : Timeline.State,
    Part001.timers_consistent s ->
    let s' := Part001.stopRadarAuto s in
    Timeline.anim s' = None /\
    Timeline.intervals s' = [] /\
    Part001.stopRadarAuto s' = s' /\
    (forall h : positive, Part001.step (Part001.IntervalFires h) s' = s') /\
    Timeline.frameIndex s' = Timeline.frameIndex s.
Proof.
  intros s Hc s'.
  pose proof (stopRadarAuto_consistent s Hc) as Hc'. fold s' in Hc'.
  assert (Ha : Timeline.anim s' = None).
  { subst s'. unfold Part001.stopRadarAuto. destruct (Timeline.anim s) eqn:E; [reflexivity|exact E]. }
  unfold Part001.timers_consistent in Hc'. rewrite Ha in Hc'.
  repeat split; try assumption.
  - unfold Part001.stopRadarAuto at 1. rewrite Ha. reflexivity.
  - intros h. cbn [Part001.step]. rewrite Hc'. reflexivity.
  - subst s'. unfold Part001.stopRadarAuto. destruct (Timeline.anim s); reflexivity.
Qed.

Lemma stopRadarAuto_freezes_witness :
  let s' := Part001.stopRadarAuto Samples.playing in
  Timeline.anim s' = None /\
  Timeline.intervals s' = [] /\
  Part001.stopRadarAuto s' = s' /\
  (forall h : positive, Part001.step (Part001.IntervalFires h) s' = s') /\
  Timeline.frameIndex s' = Timeline.frameIndex Samples.playing.
Proof.
  apply (stopRadarAuto_freezes Samples.playing). reflexivity.
Defined.

(** The play button toggles playback and keeps its own text and the
    automatic-playback checkbox in step with the timer: on a timeline
    with frames, a click while paused arms one timer, checks the box and
    shows the pause sign; a click while playing disarms the timer,
    unchecks the box and shows the play sign. Without frames a click
    does nothing. *)
Theorem onPlayClick_toggles :
  forall s : Timeline.State,
    Part001.timers_consistent s ->
    let s' := Part001.onPlayClick s in
    (Timeline.frames s = [] -> s' = s) /\
    (Timeline.frames s <> [] -> Timeline.anim s = None ->
       Timeline.anim s' = Some (Timeline.nextTimer s) /\
       Timeline.intervals s' = [Timeline.nextTimer s] /\
       Timeline.rainAutoToggle s' = true /\
       Timeline.playBtnText s' = "⏸"%string) /\
    (Timeline.frames s <> [] -> Timeline.anim s <> None ->
       Timeline.anim s' = None /\
       Timeline.intervals s' = [] /\
       Timeline.rainAutoToggle s' = false /\
       Timeline.playBtnText s' = "▶"%string).
Proof.
  intros s Hc s'. subst s'. unfold Part001.onPlayClick.
  split; [|split].
  - intros ->. reflexivity.
  - intros Hne Ha.
    destruct (length (Timeline.frames s) =? 0)%nat eqn:El.
    { apply Nat.eqb_eq in El. destruct (Timeline.frames s); [congruence|discriminate]. }
    rewrite Ha. cbv zeta. unfold Part001.startRadarAuto.
    cbn [Timeline.anim Timeline.set_rainAutoToggle Timeline.frames].
    rewrite Ha, El. cbn. unfold Part001.timers_consistent in Hc.
    rewrite Ha in Hc. rewrite Hc. repeat split.
  - intros Hne Ha.
    destruct (length (Timeline.frames s) =? 0)%nat eqn:El.
    { apply Nat.eqb_eq in El. destruct (Timeline.frames s); [congruence|discriminate]. }
    destruct (Timeline.anim s) as [h|] eqn:Eh; [|congruence]. cbv zeta.
    unfold Part001.stopRadarAuto. rewrite Eh. cbn.
    unfold Part001.timers_consistent in Hc. rewrite Eh in Hc. rewrite Hc. cbn.
    rewrite Pos.eqb_refl. repeat split.
Qed.

Lemma onPlayClick_toggles_witness :
  Timeline.anim (Part001.onPlayClick Samples.playing) = None /\
  Timeline.intervals (Part001.onPlayClick Samples.playing) = [] /\
  Timeline.rainAutoToggle (Part001.onPlayClick Samples.playing) = false /\
  Timeline.playBtnText (Part001.onPlayClick Samples.playing) = "▶"%string.
Proof.
  apply (proj2 (proj2 (onPlayClick_toggles Samples.playing eq_refl))); discriminate.
Defined.

(** ** Catalogs without frames *)

(** A catalog that parses but lists no frame (the document is null, the
    radar part or both lists are absent, or both lists are empty) is not
    an error: loadRadarFrames empties the frame list, reports that the
    radar is unavailable and leaves the cursor, the slider, the label and
    the tile layer as they were. A catalog with nowcast frames only puts
    the cursor on the first of them. *)
Theorem loadRadarFrames_empty_catalog :
  forall (s : Timeline.State) (data : option Timeline.CatalogData),
    (Part001.catalog_list Timeline.past data = [] ->
     Part001.catalog_list Timeline.nowcast data = [] ->
     Part001.loadRadarFrames_settle (Timeline.Json data) s
     = Returns tt
         (Timeline.set_statusText "Radar indisponible"%string
            (Timeline.set_frames [] s))) /\
    (Part001.catalog_list Timeline.past data = [] ->
     Part001.catalog_list Timeline.nowcast data <> [] ->
     exists s',
       Part001.loadRadarFrames_settle (Timeline.Json data) s = Returns tt s' /\
       Timeline.frames s' = Part001.catalog_list Timeline.nowcast data /\
       Timeline.frameIndex s' = Timeline.Int 0 /\
       Timeline.statusText s' = "Radar prêt"%string).
Proof.
  intros s data. split.
  - intros Hp Hn.
    unfold Part001.loadRadarFrames_settle, Part001.loadRadarFrames_try, try_catch.
    cbv zeta. rewrite Hp, Hn. reflexivity.
  - intros Hp Hn.
    unfold Part001.loadRadarFrames_settle, Part001.loadRadarFrames_try, try_catch.
    cbv zeta. rewrite Hp. cbn [app length].
    set (n := Part001.catalog_list Timeline.nowcast data) in *.
    cbn [Timeline.frames Timeline.set_frames].
    destruct (length n =? 0)%nat eqn:El.
    { apply Nat.eqb_eq in El. destruct n; [congruence|discriminate]. }
    eexists. split; [reflexivity|].
    set (s1 := Timeline.set_sliderValue _ _).
    pose proof (showRadarFrame_keeps (Timeline.frameIndex s1) s1) as Hs.
    pose proof (updateTimeLabel_keeps
                  (Part001.showRadarFrame (Timeline.frameIndex s1) s1)) as Hu.
    cbv zeta in Hs, Hu.
    destruct Hs as (Hs1 & Hs2 & _). destruct Hu as (Hu1 & Hu2 & _).
    cbn [Timeline.frames Timeline.frameIndex Timeline.statusText Timeline.set_statusText].
    rewrite Hu1, Hu2, Hs1, Hs2. repeat split.
Qed.

Lemma loadRadarFrames_empty_catalog_witness :
  Part001.loadRadarFrames_settle
    (Timeline.Json (Some {| Timeline.radar := None |})) Samples.loaded
  = Returns tt
      (Timeline.set_statusText "Radar indisponible"%string
         (Timeline.set_frames [] Samples.loaded)).
Proof.
  apply (proj1 (loadRadarFrames_empty_catalog Samples.loaded
                  (Some {| Timeline.radar := None |}))); reflexivity.
Defined.

(** ** The variant without nowcast frames *)

(** In the variant that shows past frames only, a catalog that parses
    leaves the last twelve past frames in the list, in their order, and
    none of the nowcast frames; with fewer than twelve past frames it
    keeps them all. *)
Theorem Part000_load_keeps_last_twelve :
  forall (s : Timeline.State) (data : option Timeline.CatalogData),
    let p := Part000.past_or_empty data in
    let s' := final_state (Part000.loadRadarFrames_settle (Timeline.Json data) s) in
    Timeline.frames s' = drop (length p - 12) p /\
    length (Timeline.frames s') = Nat.min 12 (length p) /\
    throws (Part000.loadRadarFrames_settle (Timeline.Json data) s) = false.
Proof.
  intros s data p s'. subst s'.
  unfold Part000.loadRadarFrames_settle, Part000.loadRadarFrames_try, try_catch.
  cbv zeta. fold p. cbn [Timeline.frames Timeline.set_frames].
  unfold Part000.slice_last12.
  assert (Hlen : length (drop (length p - 12) p) = Nat.min 12 (length p)).
  { rewrite length_drop. lia. }
  destruct (length (drop (length p - 12) p) =? 0)%nat; cbn; auto.
Qed.

(** ** The particle field under the events of the page *)

Section WindEvents.
Import Wind WindEvents.

Lemma stepParticle_queue style sf s l :
  rafPending (stepParticle style sf s l) = rafPending s.
Proof.
  unfold stepParticle. destruct (heap s !! l); [|reflexivity].
  cbv zeta. destruct (expired _ _); reflexivity.
Qed.

Lemma fold_stepParticle_queue style sf ls : forall s,
  rafPending (fold_left (stepParticle style sf) ls s) = rafPending s.
Proof.
  induction ls as [|l ls IH]; intros s; [reflexivity|].
  cbn [fold_left]. rewrite IH. apply stepParticle_queue.
Qed.

Lemma loopParticles_queue s :
  windRunning s = true -> rafPending (loopParticles s) = S (rafPending s).
Proof.
  intros Hr. unfold loopParticles. rewrite Hr. cbv zeta. cbn [negb rafPending set_rafPending].
  rewrite fold_stepParticle_queue. reflexivity.
Qed.

Lemma loopParticles_stopped s : windRunning s = false -> loopParticles s = s.
Proof. intros Hr. unfold loopParticles. rewrite Hr. reflexivity. Qed.

Lemma repeat_push_queue n : forall t, rafPending (repeat_push n t) = rafPending t.
Proof.
  induction n as [|n IH]; intros t; [reflexivity|].
  cbn [repeat_push]. rewrite IH. reflexivity.
Qed.

Lemma pool_ok_init s :
  windRunning s = true -> pool_ok (initParticles s).
Proof.
  intros Hr. destruct (initParticles_pool s) as (_ & Hlen & Hnd & Hv & Hrun).
  split.
  - intros _. auto.
  - rewrite Hrun, Hr. discriminate.
Qed.

Lemma pool_ok_same s s' :
  windParticles s' = windParticles s -> dom (heap s') = dom (heap s) ->
  windRunning s' = windRunning s -> pool_ok s -> pool_ok s'.
Proof.
  intros Hp Hd Hr [H1 H2]. split.
  - rewrite Hr, Hp. intros Hrun. destruct (H1 Hrun) as (A & B & C).
    repeat split; try assumption. apply (pool_valid_dom s); assumption.
  - rewrite Hr, Hp. exact H2.
Qed.

Lemma pool_ok_loop s : pool_ok s -> pool_ok (loopParticles s).
Proof.
  destruct (loopParticles_pool s) as (H1 & H2 & _ & H4).
  apply pool_ok_same; assumption.
Qed.

Lemma step_pool_ok e s : pool_ok s -> pool_ok (step e s).
Proof.
  intros Hs. destruct e as [b| |w h|w h| | |w]; cbn [step].
  - destruct b; cbn [onParticlesToggle].
    + unfold startWindParticles. cbv zeta. apply pool_ok_loop, pool_ok_init. reflexivity.
    + split; [discriminate|reflexivity].
  - unfold animationFrame. destruct (rafPending s); [exact Hs|].
    apply pool_ok_loop. revert Hs. apply pool_ok_same; reflexivity.
  - unfold resizeListener000. cbv zeta.
    destruct (windRunning (resizeCanvas (windowResized w h s))) eqn:Hr.
    + apply pool_ok_init, Hr.
    + revert Hs. apply pool_ok_same; reflexivity.
  - revert Hs. apply pool_ok_same; reflexivity.
  - unfold themeClick000. cbv zeta.
    destruct (windRunning (set_dark (negb (dark s)) s)) eqn:Hr.
    + apply pool_ok_init. exact Hr.
    + revert Hs. apply pool_ok_same; reflexivity.
  - revert Hs. apply pool_ok_same; reflexivity.
  - destruct w; [|exact Hs]. revert Hs. apply pool_ok_same; reflexivity.
Qed.

Lemma iter_frames_stopped n : forall s,
  windRunning s = false ->
  Nat.iter n animationFrame s = set_rafPending (rafPending s - n) s.
Proof.
  induction n as [|n IH]; intros s Hr.
  - cbn. rewrite Nat.sub_0_r. destruct s; reflexivity.
  - rewrite Nat.iter_succ_r. unfold animationFrame at 2.
    destruct (rafPending s) as [|k] eqn:Ek.
    + rewrite IH by exact Hr. rewrite Ek. reflexivity.
    + rewrite loopParticles_stopped by exact Hr.
      rewrite IH by exact Hr. cbn. destruct s; reflexivity.
Qed.

End WindEvents.

(** Whatever the user and the browser do (switching the field on and
    off, animation frames, window resizes and theme clicks of either
    variant, new wind samples), a running field has a pool of exactly 650
    distinct particle objects, all of them alive, and a stopped field has
    an empty pool. *)
Theorem particle_pool_under_events :
  forall (s : Wind.State) (evs : list WindEvents.Event),
    Wind.windRunning s = false ->
    Wind.windParticles s = [] ->
    WindEvents.pool_ok (WindEvents.run evs s).
Proof.
  intros s evs Hr Hp.
  assert (H0 : WindEvents.pool_ok s).
  { split; [rewrite Hr; discriminate|intros _; exact Hp]. }
  clear Hr Hp. revert s H0.
  induction evs as [|e evs IH]; intros s H0; [exact H0|].
  cbn. apply IH, step_pool_ok, H0.
Qed.

Lemma particle_pool_under_events_witness :
  WindEvents.pool_ok
    (WindEvents.run
       [WindEvents.ParticlesToggle true; WindEvents.AnimationFrame;
        WindEvents.Resized000 800 600; WindEvents.ThemeClick000]
       WindSamples.page).
Proof.
  apply (particle_pool_under_events WindSamples.page); reflexivity.
Defined.

(** Stopping is clean: once stopWindParticles has run, the callbacks
    still queued for animation frames run out one by one without
    painting, without touching a particle and without queueing another
    callback. *)
Theorem stopWindParticles_is_clean :
  forall (s : Wind.State) (n : nat),
    let s' := Wind.stopWindParticles s in
    let sn := Nat.iter n Wind.animationFrame s' in
    Wind.windRunning sn = false /\
    Wind.windParticles sn = [] /\
    Wind.drawn sn = Wind.drawn s' /\
    Wind.heap sn = Wind.heap s /\
    Wind.rafPending sn = (Wind.rafPending s - n)%nat.
Proof.
  intros s n s' sn. subst sn.
  rewrite iter_frames_stopped by reflexivity.
  repeat split.
Qed.

(** Starting does not retire a redraw loop that is already queued:
    every start queues one more callback, and while the field runs each
    callback queues its successor. A stop followed by a start before the
    next animation frame therefore leaves two loops running, and they
    stay two from then on. *)
Theorem restart_doubles_the_loop :
  forall (s : Wind.State),
    let s2 := Wind.startWindParticles
                (Wind.stopWindParticles (Wind.startWindParticles s)) in
    Wind.rafPending (Wind.startWindParticles s) = S (Wind.rafPending s) /\
    Wind.rafPending s2 = S (S (Wind.rafPending s)) /\
    forall n : nat,
      Wind.rafPending (Nat.iter n Wind.animationFrame s2) = Wind.rafPending s2 /\
      Wind.windRunning (Nat.iter n Wind.animationFrame s2) = true.
Proof.
  intros s s2.
  assert (Hstart : forall t, Wind.rafPending (Wind.startWindParticles t)
                             = S (Wind.rafPending t)
                             /\ Wind.windRunning (Wind.startWindParticles t) = true).
  { intros t. unfold Wind.startWindParticles. cbv zeta.
    destruct (initParticles_pool (Wind.set_windRunning true t)) as (_ & _ & _ & _ & Hr).
    split.
    - rewrite loopParticles_queue by exact Hr.
      unfold Wind.initParticles. rewrite repeat_push_queue. reflexivity.
    - destruct (loopParticles_pool (Wind.initParticles (Wind.set_windRunning true t)))
        as (_ & _ & _ & H4).
      rewrite H4. exact Hr. }
  destruct (Hstart s) as [H1 _].
  destruct (Hstart (Wind.stopWindParticles (Wind.startWindParticles s))) as [H2 R2].
  fold s2 in H2, R2.
  assert (Hstop : forall t, Wind.rafPending (Wind.stopWindParticles t)
                            = Wind.rafPending t) by reflexivity.
  assert (E2 : Wind.rafPending s2 = S (S (Wind.rafPending s))).
  { rewrite H2, Hstop, H1. reflexivity. }
  split; [exact H1|]. split; [exact E2|].
  clearbody s2. induction n as [|n [IHq IHr]]; [split; [reflexivity|exact R2]|].
  rewrite Nat.iter_succ. unfold Wind.animationFrame at 1 3.
  rewrite IHq, E2.
  set (t := Wind.set_rafPending _ _).
  assert (Rt : Wind.windRunning t = true) by exact IHr.
  split.
  - rewrite loopParticles_queue by exact Rt. reflexivity.
  - destruct (loopParticles_pool t) as (_ & _ & _ & H4). rewrite H4. exact Rt.
Qed.

(** ** Drawing the glyph layers *)

Section GlyphDraw.
Import Glyph Arrows.

Lemma flat_map_rows {A B} (f : A -> list B) (n : nat) (rows : list A) :
  (forall r, length (f r) = n) ->
  length (List.flat_map f rows) = (length rows * n)%nat.
Proof.
  intros Hf. induction rows as [|r rows IH]; [reflexivity|].
  cbn [List.flat_map length]. rewrite length_app, IH, Hf. lia.
Qed.

Lemma lattice_length nx ny b : length (lattice nx ny b) = (ny * nx)%nat.
Proof.
  unfold lattice. rewrite (flat_map_rows _ nx).
  - rewrite length_seq. reflexivity.
  - intros r. rewrite List.length_map, length_seq. reflexivity.
Qed.

Lemma only_group_changed_refl l s : only_group_changed l s s.
Proof. repeat split. Qed.

Lemma add_marker_spec l mk s old :
  groups s !! l = Some old ->
  groups (add_marker l mk s) !! l = Some (old ++ [mk]) /\
  only_group_changed l s (add_marker l mk s).
Proof.
  intros Hl. unfold add_marker. cbn. rewrite Hl. cbn.
  split; [apply lookup_insert_eq|].
  repeat split. intros l' Hne. apply lookup_insert_ne. congruence.
Qed.

Lemma only_group_changed_trans l s1 s2 s3 :
  only_group_changed l s1 s2 -> only_group_changed l s2 s3 ->
  only_group_changed l s1 s3.
Proof.
  intros (A1 & A2 & A3 & A4 & A5 & A6) (B1 & B2 & B3 & B4 & B5 & B6).
  repeat split; try congruence.
  intros l' Hne. rewrite B6, A6 by exact Hne. reflexivity.
Qed.

Lemma rain_markers_fold l (pts : list (float * float)) : forall s old,
  groups s !! l = Some old ->
  let s' := fold_left (fun s p =>
              add_marker l
                {| lat := fst p; lon := snd p;
                   icon_spd := Helpers.Math_max 10 (Wind.spd (windCenter s));
                   icon_deg := Wind.deg (windCenter s);
                   icon_kind := rain |} s) pts s in
  groups s' !! l = Some (old ++ List.map (rain_marker (windCenter s)) pts) /\
  only_group_changed l s s'.
Proof.
  induction pts as [|p pts IH]; intros s old Hl; cbv zeta.
  - cbn. rewrite app_nil_r. split; [exact Hl|apply only_group_changed_refl].
  - cbn [fold_left List.map].
    match goal with
    | |- context [fold_left _ pts (add_marker l ?mk s)] =>
        destruct (add_marker_spec l mk s old Hl) as [Hg Hc];
        destruct (IH (add_marker l mk s) _ Hg) as [Hg' Hc']
    end.
    cbv zeta in Hg'. split.
    + rewrite Hg'. destruct Hc as (_ & _ & _ & _ & Hw & _). rewrite Hw.
      rewrite <- app_assoc. reflexivity.
    + eapply only_group_changed_trans; eassumption.
Qed.

Lemma add_arrow_spec l p w s old :
  windArrowLayer s = Some l -> groups s !! l = Some old ->
  exists s',
    add_arrow p w s = Returns tt s' /\
    groups s' !! l = Some (old ++ [marker_for (windCenter s) p w]) /\
    only_group_changed l s s'.
Proof.
  intros Hl Hg. unfold add_arrow. rewrite Hl.
  eexists. split; [reflexivity|]. apply add_marker_spec, Hg.
Qed.

Lemma batch_spec l (batch : list (float * float)) :
  forall (res : list (option Wind.WindSample)) s old,
    windArrowLayer s = Some l -> groups s !! l = Some old ->
    length res = length batch ->
    exists s',
      drawWindArrows_batch batch res s = Returns tt s' /\
      groups s' !! l
        = Some (old ++ zip_with (marker_for (windCenter s)) batch res) /\
      only_group_changed l s s'.
Proof.
  induction batch as [|p batch IH]; intros res s old Hl Hg Hlen.
  - destruct res; [|discriminate]. exists s. cbn. rewrite app_nil_r.
    repeat split. exact Hg.
  - destruct res as [|w res]; [discriminate|].
    cbn [drawWindArrows_batch zip_with].
    destruct (add_arrow_spec l p w s old Hl Hg) as (s1 & E1 & G1 & C1).
    rewrite E1. cbn [and_then].
    destruct C1 as (C1a & C1b & C1c & C1d & C1e & C1f).
    destruct (IH res s1 _ (eq_trans C1b Hl) G1 ltac:(cbn in Hlen; lia))
      as (s' & E' & G' & C').
    exists s'. split; [exact E'|]. split.
    + rewrite G', C1e, <- app_assoc. reflexivity.
    + eapply only_group_changed_trans; [|exact C']. repeat split; assumption.
Qed.

Lemma zip_with_sampled c sample (b : list (float * float)) :
  zip_with (marker_for c) b (List.map sample b)
  = List.map (fun p => marker_for c p (sample p)) b.
Proof.
  induction b as [|p b IH]; [reflexivity|]. cbn. rewrite IH. reflexivity.
Qed.

Lemma loop_spec l sample (bs : list (list (float * float))) : forall s old,
  windArrowLayer s = Some l -> groups s !! l = Some old ->
  exists s',
    drawWindArrows_loop sample bs s = Returns tt s' /\
    groups s' !! l
      = Some (old ++ List.map (fun p => marker_for (windCenter s) p (sample p))
                              (concat bs)) /\
    only_group_changed l s s'.
Proof.
  induction bs as [|b bs IH]; intros s old Hl Hg.
  - exists s. cbn. rewrite app_nil_r. repeat split. exact Hg.
  - cbn [drawWindArrows_loop concat].
    destruct (batch_spec l b (List.map sample b) s old Hl Hg)
      as (s1 & E1 & G1 & C1); [apply List.length_map|].
    rewrite E1. cbn [and_then].
    destruct C1 as (C1a & C1b & C1c & C1d & C1e & C1f).
    destruct (IH s1 _ (eq_trans C1b Hl) G1) as (s' & E' & G' & C').
    exists s'. split; [exact E'|]. split.
    + rewrite G', C1e, List.map_app, zip_with_sampled, <- app_assoc. reflexivity.
    + eapply only_group_changed_trans; [|exact C']. repeat split; assumption.
Qed.

Lemma batches_from_concat {A} size : forall rounds (pts : list A),
  (0 < size)%nat -> (length pts <= rounds)%nat ->
  concat (batches_from rounds size pts) = pts /\
  Forall (fun b => (1 <= length b <= size)%nat) (batches_from rounds size pts).
Proof.
  induction rounds as [|r IH]; intros pts Hs Hlen.
  - destruct pts; [split; [reflexivity|constructor]|cbn in Hlen; lia].
  - destruct pts as [|p pts]; [split; [reflexivity|constructor]|].
    cbn [batches_from].
    destruct (IH (drop size (p :: pts)) Hs) as [Hc Hf].
    { rewrite length_drop. cbn [length] in *. lia. }
    split.
    + cbn [concat]. rewrite Hc. apply take_drop.
    + constructor; [|exact Hf]. rewrite length_take. cbn [length]. lia.
Qed.

End GlyphDraw.

(** Reads the fields of a state that is written as a chain of
    assignments. *)
Ltac glyph_fields :=
  cbn [Glyph.map Glyph.windArrowLayer Glyph.rainDirLayer Glyph.groups
       Glyph.nextLayer Glyph.windCenter Glyph.set_map
       Glyph.set_windArrowLayer Glyph.set_rainDirLayer Glyph.set_groups
       Glyph.set_nextLayer Glyph.set_windCenter Glyph.bounds Glyph.layers
       Glyph.removeLayer Glyph.addLayer].

(** drawRainDirection replaces the rain-direction layer: the old layer,
    if any, leaves the map, a new one joins it, and the new layer holds
    the 35 markers of the 7 by 5 lattice in lattice order, every one
    with the direction of the centre wind and its speed raised to at
    least 10. The wind-arrow layer is not touched. Without a map the
    call does nothing. *)
Theorem drawRainDirection_renders :
  forall s : Glyph.State,
    (Glyph.map s = None -> Glyph.drawRainDirection s = Returns tt s) /\
    (forall m : Glyph.LeafletMap,
       Glyph.map s = Some m ->
       exists s',
         Glyph.drawRainDirection s = Returns tt s' /\
         Glyph.rainDirLayer s' = Some (Glyph.nextLayer s) /\
         Glyph.layers_on_map s'
           = Some (Arrows.replaced (Glyph.rainDirLayer s) (Glyph.nextLayer s)
                     (Glyph.layers m)) /\
         Glyph.groups s' !! Glyph.nextLayer s
           = Some (List.map (Arrows.rain_marker (Glyph.windCenter s))
                            (Glyph.lattice 7 5 (Glyph.bounds m))) /\
         length (Glyph.lattice 7 5 (Glyph.bounds m)) = 35%nat /\
         Glyph.windArrowLayer s' = Glyph.windArrowLayer s).
Proof.
  intros s. split.
  - intros Hm. unfold Glyph.drawRainDirection. rewrite Hm. reflexivity.
  - intros m Hm. unfold Glyph.drawRainDirection, Glyph.clearRainDirection.
    rewrite Hm.
    destruct (Glyph.rainDirLayer s) as [old|] eqn:Eold;
      cbn [and_then]; glyph_fields; rewrite ?Hm;
      unfold Glyph.new_group_on_map; cbv zeta; glyph_fields.
    + match goal with
      | |- context [fold_left ?f ?pts ?s0] =>
          destruct (rain_markers_fold (Glyph.nextLayer s) pts s0 [])
            as [Hg (C1 & C2 & C3 & C4 & C5 & C6)];
          [cbn; apply lookup_insert_eq|];
          cbv zeta in Hg; revert Hg C1 C2 C3; glyph_fields;
          generalize (fold_left f pts s0)
      end.
      intros s' Hg C1 C2 C3. exists s'. split; [reflexivity|].
      unfold Glyph.layers_on_map.
      rewrite C1, C2, C3, Hg, lattice_length. repeat split.
    + match goal with
      | |- context [fold_left ?f ?pts ?s0] =>
          destruct (rain_markers_fold (Glyph.nextLayer s) pts s0 [])
            as [Hg (C1 & C2 & C3 & C4 & C5 & C6)];
          [cbn; apply lookup_insert_eq|];
          cbv zeta in Hg; revert Hg C1 C2 C3; glyph_fields;
          generalize (fold_left f pts s0)
      end.
      intros s' Hg C1 C2 C3. exists s'. split; [reflexivity|].
      unfold Glyph.layers_on_map.
      rewrite C1, C2, C3, Hg, lattice_length. repeat split.
Qed.

Lemma drawRainDirection_renders_witness :
  exists s',
    Glyph.drawRainDirection GlyphSamples.with_both = Returns tt s' /\
    Glyph.rainDirLayer s' = Some (Glyph.nextLayer GlyphSamples.with_both) /\
    Glyph.layers_on_map s'
      = Some (Arrows.replaced (Glyph.rainDirLayer GlyphSamples.with_both)
                (Glyph.nextLayer GlyphSamples.with_both)
                (Glyph.layers GlyphSamples.map_with_both)) /\
    Glyph.groups s' !! Glyph.nextLayer GlyphSamples.with_both
      = Some (List.map (Arrows.rain_marker (Glyph.windCenter GlyphSamples.with_both))
                       (Glyph.lattice 7 5 (Glyph.bounds GlyphSamples.map_with_both))) /\
    length (Glyph.lattice 7 5 (Glyph.bounds GlyphSamples.map_with_both)) = 35%nat /\
    Glyph.windArrowLayer s' = Glyph.windArrowLayer GlyphSamples.with_both.
Proof.
  apply (proj2 (drawRainDirection_renders GlyphSamples.with_both)
           GlyphSamples.map_with_both).
  vm_compute. reflexivity.
Defined.

(** The samples of drawWindArrows are requested in slices of at most 8
    lattice points that together cover the lattice once, in order. When
    nothing intervenes, the call replaces the wind-arrow layer and the
    new layer ends up with one marker per point of the 9 by 6 lattice,
    54 in lattice order; a point whose sample failed gets the marker of
    the centre wind. *)
Theorem drawWindArrows_renders :
  forall (sample : float * float -> option Wind.WindSample)
         (s : Glyph.State) (m : Glyph.LeafletMap),
    Glyph.map s = Some m ->
    let pts := Glyph.lattice 9 6 (Glyph.bounds m) in
    concat (Arrows.batches Arrows.batchSize pts) = pts /\
    Forall (fun b => (1 <= length b <= 8)%nat)
           (Arrows.batches Arrows.batchSize pts) /\
    length pts = 54%nat /\
    exists s',
      Arrows.drawWindArrows sample s = Returns tt s' /\
      Glyph.windArrowLayer s' = Some (Glyph.nextLayer s) /\
      Glyph.layers_on_map s'
        = Some (Arrows.replaced (Glyph.windArrowLayer s) (Glyph.nextLayer s)
                  (Glyph.layers m)) /\
      Glyph.groups s' !! Glyph.nextLayer s
        = Some (List.map (fun p => Arrows.marker_for (Glyph.windCenter s) p (sample p))
                         pts) /\
      Glyph.rainDirLayer s' = Glyph.rainDirLayer s.
Proof.
  intros sample s m Hm pts. unfold Arrows.batches.
  destruct (batches_from_concat Arrows.batchSize (length pts) pts) as [Hc Hf];
    [unfold Arrows.batchSize; lia|lia|].
  split; [exact Hc|]. split; [exact Hf|].
  split; [apply lattice_length|].
  unfold Arrows.drawWindArrows, Glyph.drawWindArrows_begin, Glyph.clearWindArrows,
    Arrows.batches.
  rewrite Hm.
  destruct (Glyph.windArrowLayer s) as [old|] eqn:Eold;
    cbn [and_then]; glyph_fields; rewrite ?Hm;
    unfold Glyph.new_group_on_map; cbv zeta; cbn [and_then]; glyph_fields;
    fold pts.
  - match goal with
    | |- context [Arrows.drawWindArrows_loop sample ?bs ?s0] =>
        destruct (loop_spec (Glyph.nextLayer s) sample bs s0 [])
          as (s' & E & Hg & (C1 & C2 & C3 & C4 & C5 & C6));
        [reflexivity|cbn; apply lookup_insert_eq|]
    end.
    exists s'. split; [exact E|].
    revert Hg C1 C2 C3. glyph_fields. intros Hg C1 C2 C3.
    unfold Glyph.layers_on_map. rewrite C1, C2, C3, Hg, Hc. repeat split.
  - match goal with
    | |- context [Arrows.drawWindArrows_loop sample ?bs ?s0] =>
        destruct (loop_spec (Glyph.nextLayer s) sample bs s0 [])
          as (s' & E & Hg & (C1 & C2 & C3 & C4 & C5 & C6));
        [reflexivity|cbn; apply lookup_insert_eq|]
    end.
    exists s'. split; [exact E|].
    revert Hg C1 C2 C3. glyph_fields. intros Hg C1 C2 C3.
    unfold Glyph.layers_on_map. rewrite C1, C2, C3, Hg, Hc. repeat split.
Qed.

Lemma drawWindArrows_renders_witness :
  let pts := Glyph.lattice 9 6 (Glyph.bounds GlyphSamples.map_with_both) in
  concat (Arrows.batches Arrows.batchSize pts) = pts /\
  Forall (fun b => (1 <= length b <= 8)%nat)
         (Arrows.batches Arrows.batchSize pts) /\
  length pts = 54%nat /\
  exists s',
    Arrows.drawWindArrows Arrows.flaky GlyphSamples.with_both = Returns tt s' /\
    Glyph.windArrowLayer s' = Some (Glyph.nextLayer GlyphSamples.with_both) /\
    Glyph.layers_on_map s'
      = Some (Arrows.replaced (Glyph.windArrowLayer GlyphSamples.with_both)
                (Glyph.nextLayer GlyphSamples.with_both)
                (Glyph.layers GlyphSamples.map_with_both)) /\
    Glyph.groups s' !! Glyph.nextLayer GlyphSamples.with_both
      = Some (List.map
                (fun p => Arrows.marker_for
                            (Glyph.windCenter GlyphSamples.with_both) p
                            (Arrows.flaky p))
                pts) /\
    Glyph.rainDirLayer s' = Glyph.rainDirLayer GlyphSamples.with_both.
Proof.
  apply (drawWindArrows_renders Arrows.flaky GlyphSamples.with_both
           GlyphSamples.map_with_both).
  vm_compute. reflexivity.
Defined.

(** A batch of samples that settles draws on whatever layer the
    variable windArrowLayer names at that moment: with a layer there,
    every point of the batch gets a marker on it, the failed ones with
    the centre wind of that moment; with the variable null, because the
    layer was cleared in the meantime, the first marker throws and
    nothing is drawn. *)
Theorem drawWindArrows_batch_settles :
  forall (batch : list (float * float)) (res : list (option Wind.WindSample))
         (s : Glyph.State),
    length res = length batch ->
    (forall (l : Glyph.layer_id) (old : list Glyph.Marker),
       Glyph.windArrowLayer s = Some l ->
       Glyph.groups s !! l = Some old ->
       exists s',
         Arrows.drawWindArrows_batch batch res s = Returns tt s' /\
         Glyph.groups s' !! l
           = Some (old ++ zip_with (Arrows.marker_for (Glyph.windCenter s)) batch res) /\
         length (zip_with (Arrows.marker_for (Glyph.windCenter s)) batch res)
           = length batch /\
         Arrows.only_group_changed l s s') /\
    (Glyph.windArrowLayer s = None -> batch <> [] ->
       exists msg, Arrows.drawWindArrows_batch batch res s = Throws msg s).
Proof.
  intros batch res s Hlen. split.
  - intros l old Hl Hg.
    destruct (batch_spec l batch res s old Hl Hg Hlen) as (s' & E & G & C).
    exists s'. split; [exact E|]. split; [exact G|]. split; [|exact C].
    rewrite length_zip_with. lia.
  - intros Hl Hne. destruct batch as [|p batch]; [congruence|].
    destruct res as [|w res]; [discriminate|].
    cbn [Arrows.drawWindArrows_batch]. unfold Arrows.add_arrow. rewrite Hl.
    cbn. eauto.
Qed.

Lemma drawWindArrows_batch_settles_witness :
  exists s',
    Arrows.drawWindArrows_batch Arrows.batch8
      (List.map Arrows.flaky Arrows.batch8) GlyphSamples.with_both
    = Returns tt s' /\
    Glyph.groups s' !! 2%nat
      = Some ([] ++ zip_with (Arrows.marker_for (Glyph.windCenter GlyphSamples.with_both))
                      Arrows.batch8 (List.map Arrows.flaky Arrows.batch8)) /\
    length (zip_with (Arrows.marker_for (Glyph.windCenter GlyphSamples.with_both))
              Arrows.batch8 (List.map Arrows.flaky Arrows.batch8))
      = length Arrows.batch8 /\
    Arrows.only_group_changed 2%nat GlyphSamples.with_both s'.
Proof.
  apply (proj1 (drawWindArrows_batch_settles Arrows.batch8
                  (List.map Arrows.flaky Arrows.batch8)
                  GlyphSamples.with_both (List.length_map _ _))).
  - reflexivity.
  - vm_compute. reflexivity.
Defined.

(** In that batch of eight the two failed samples are drawn with the
    centre wind, so eight markers appear. *)
Example batch8_two_failed :
  List.map Arrows.flaky (take 2 Arrows.batch8) = [None; None] /\
  List.map (fun mk => Glyph.icon_spd mk)
    (zip_with (Arrows.marker_for (Glyph.windCenter GlyphSamples.with_both))
       (take 2 Arrows.batch8) [None; None]) = [12%float; 12%float] /\
  length Arrows.batch8 = 8%nat.
Proof. vm_compute. repeat split. Qed.
(** * The base-map switch and the theme button *)

Section BasemapFacts.
Import Basemap.

Lemma swap_layers_spec (a b : Glyph.layer_id) (m : gset Glyph.layer_id) :
  a <> b ->
  (b ∈ swap_layers a b m) /\ (a ∉ swap_layers a b m) /\
  (forall l, l <> a -> l <> b -> (l ∈ swap_layers a b m <-> l ∈ m)).
Proof.
  intros Hab. unfold swap_layers, hasLayer.
  repeat case_bool_decide; cbn [negb];
    repeat split; intros;
    rewrite ?elem_of_union, ?elem_of_difference, ?elem_of_singleton in *;
    intuition congruence.
Qed.

Lemma swap_layers_done (a b : Glyph.layer_id) (m : gset Glyph.layer_id) :
  a ∉ m -> b ∈ m -> swap_layers a b m = m.
Proof.
  intros Ha Hb. unfold swap_layers, hasLayer.
  rewrite (bool_decide_eq_false_2 _ Ha), (bool_decide_eq_true_2 _ Hb).
  reflexivity.
Qed.

End BasemapFacts.

(** After setBasemap the chosen base layer is on the map and the other
    one is not, every other layer is on the map exactly if it was
    before, the highlighted button is the one of the layer on the map,
    and a second call with the same choice changes nothing. Before the
    map exists the call does nothing. *)
Theorem setBasemap_one_base_layer :
  forall (which : string) (s : Basemap.State),
    (Basemap.map s = None -> Basemap.setBasemap which s = s) /\
    (forall m : gset Glyph.layer_id,
       Basemap.map s = Some m ->
       Basemap.baseOSM s <> Basemap.baseSat s ->
       let s' := Basemap.setBasemap which s in
       exists m',
         Basemap.map s' = Some m' /\
         (Basemap.chosen which s ∈ m') /\
         (Basemap.retired which s ∉ m') /\
         (forall l, l <> Basemap.baseOSM s -> l <> Basemap.baseSat s ->
                    (l ∈ m' <-> l ∈ m)) /\
         (Basemap.bmOsm_active s' = true <-> Basemap.baseOSM s ∈ m') /\
         (Basemap.bmSat_active s' = true <-> Basemap.baseSat s ∈ m') /\
         Basemap.setBasemap which s' = s').
Proof.
  intros which s. split.
  - intros H. unfold Basemap.setBasemap. rewrite H. reflexivity.
  - intros m Hm Hne s'. subst s'.
    unfold Basemap.setBasemap, Basemap.chosen, Basemap.retired. rewrite Hm.
    destruct (String.eqb which "osm") eqn:E;
      cbn [Basemap.map Basemap.baseOSM Basemap.baseSat Basemap.bmOsm_active
           Basemap.bmSat_active]; rewrite ?E.
    + destruct (swap_layers_spec (Basemap.baseSat s) (Basemap.baseOSM s) m)
        as (Hin & Hout & Hrest); [congruence|].
      eexists. split; [reflexivity|]. split; [exact Hin|]. split; [exact Hout|].
      split; [intros l H1 H2; apply Hrest; assumption|].
      split; [tauto|]. split; [split; [discriminate|contradiction]|].
      rewrite swap_layers_done by assumption. reflexivity.
    + destruct (swap_layers_spec (Basemap.baseOSM s) (Basemap.baseSat s) m)
        as (Hin & Hout & Hrest); [congruence|].
      eexists. split; [reflexivity|]. split; [exact Hin|]. split; [exact Hout|].
      split; [intros l H1 H2; apply Hrest; assumption|].
      split; [split; [discriminate|contradiction]|]. split; [tauto|].
      rewrite swap_layers_done by assumption. reflexivity.
Qed.

Lemma setBasemap_one_base_layer_witness :
  exists m',
    Basemap.map (Basemap.setBasemap "sat" Basemap.page) = Some m' /\
    (2%nat ∈ m') /\ (1%nat ∉ m') /\ (4%nat ∈ m').
Proof.
  destruct (setBasemap_one_base_layer "sat" Basemap.page) as [_ H].
  destruct (H _ eq_refl) as (m' & Hm & Hin & Hout & Hrest & _);
    [cbn; discriminate|].
  exists m'. split; [exact Hm|]. split; [exact Hin|]. split; [exact Hout|].
  apply Hrest; [cbn; discriminate|cbn; discriminate|].
  cbn. rewrite !elem_of_union, !elem_of_singleton. auto.
Defined.

(** The theme chosen with the button survives a reload. In the variant
    with 512 px tiles it does so whatever the page's markup and the hour
    of the day. In the other variant the saved choice brings the page
    back as the click left it when the markup has no dark class; a markup
    that has it stays dark even when the saved choice is the light
    theme, because nothing removes the class. *)
Theorem theme_survives_reload :
  forall (s : Theme.State) (markup_dark : bool) (markup_text : string) (hour : Z),
    let c0 := Theme.themeClick000 s in
    let c1 := Theme.themeClick001 s in
    Theme.dark (Theme.initTheme000 hour (Theme.reload markup_dark markup_text c0))
      = Theme.dark c0 /\
    (markup_dark = false ->
     Theme.initTheme001 (Theme.reload markup_dark markup_text c1) = c1) /\
    (markup_dark = true ->
     Theme.dark (Theme.initTheme001 (Theme.reload markup_dark markup_text c1)) = true).
Proof.
  intros s md mt hour c0 c1. subst c0 c1.
  unfold Theme.initTheme000, Theme.initTheme001, Theme.reload,
    Theme.themeClick000, Theme.themeClick001.
  destruct (Theme.dark s), md; cbn; repeat split; intros; try discriminate;
    try reflexivity.
Qed.

Lemma theme_survives_reload_witness :
  let s := {| Theme.dark := false; Theme.rt_theme := None;
              Theme.themeBtnText := Theme.moon |} in
  Theme.initTheme001 (Theme.reload false Theme.moon (Theme.themeClick001 s))
  = Theme.themeClick001 s.
Proof.
  intros s.
  exact (proj1 (proj2 (theme_survives_reload s false Theme.moon 12)) eq_refl).
Defined.

(** * Short names, legend bands and favorites *)

Section ShortName.
Import Names.

Lemma before_comma_no_comma (t : JsString) : comma ∉ before_comma t.
Proof.
  induction t as [|c rest IH]; cbn [before_comma].
  - apply not_elem_of_nil.
  - destruct (N.eqb_spec c comma) as [E|E].
    + apply not_elem_of_nil.
    + rewrite not_elem_of_cons. split; [congruence|exact IH].
Qed.

Lemma before_comma_prefix (t : JsString) : before_comma t `prefix_of` t.
Proof.
  induction t as [|c rest IH]; cbn [before_comma].
  - reflexivity.
  - destruct (N.eqb c comma).
    + apply prefix_nil.
    + apply prefix_cons, IH.
Qed.

Lemma before_comma_id (t : JsString) : comma ∉ t -> before_comma t = t.
Proof.
  induction t as [|c rest IH]; cbn [before_comma]; [reflexivity|].
  rewrite not_elem_of_cons. intros [Hc Hr].
  destruct (N.eqb_spec c comma) as [E|E]; [congruence|].
  rewrite IH by exact Hr. reflexivity.
Qed.

Lemma not_elem_of_take (n : nat) (t : JsString) (c : N) :
  c ∉ t -> c ∉ take n t.
Proof.
  intros H Hin. apply H. apply elem_of_take in Hin.
  destruct Hin as (i & Hi & _). exact (list_elem_of_lookup_2 _ _ _ Hi).
Qed.

(** The two shapes of a short name. *)
Lemma shortName_cases (s : option JsString) :
  let t := before_comma (or_empty s) in
  ((length t <= 22)%nat /\ shortName s = t) \/
  ((22 < length t)%nat /\ shortName s = take 22 t ++ [ellipsis]).
Proof.
  intros t. unfold shortName. fold t.
  destruct (Nat.ltb_spec 22 (length t)); [right|left]; split; auto.
Qed.

End ShortName.

(** shortName never returns a comma nor more than 23 code units; its
    first 22 units are the start of the name; it leaves a name of at
    most 22 units without a comma as it is; and a second application
    changes nothing. *)
Theorem shortName_short :
  forall s : option Names.JsString,
    let r := Names.shortName s in
    (Names.comma ∉ r) /\
    (length r <= 23)%nat /\
    (take 22 r `prefix_of` Names.or_empty s) /\
    Names.shortName (Some r) = r /\
    (forall t : Names.JsString,
       s = Some t -> Names.comma ∉ t -> (length t <= 22)%nat -> r = t).
Proof.
  intros s r. subst r.
  pose proof (before_comma_no_comma (Names.or_empty s)) as Hno.
  pose proof (before_comma_prefix (Names.or_empty s)) as Hpre.
  destruct (shortName_cases s) as [[Hlen ->]|[Hlen ->]].
  - split; [exact Hno|]. split; [lia|].
    split; [etrans; [apply prefix_take|exact Hpre]|].
    split.
    + unfold Names.shortName. cbn [Names.or_empty].
      rewrite (before_comma_id _ Hno).
      destruct (Nat.ltb_spec 22 (length (Names.before_comma (Names.or_empty s))));
        [lia|reflexivity].
    + intros t -> Ht _. apply before_comma_id. exact Ht.
  - set (t := Names.before_comma (Names.or_empty s)) in *.
    assert (Hl : length (take 22 t) = 22%nat) by (rewrite length_take; lia).
    assert (Hc : Names.comma ∉ take 22 t ++ [Names.ellipsis]).
    { rewrite not_elem_of_app. split; [apply not_elem_of_take, Hno|].
      rewrite not_elem_of_cons. split; [discriminate|apply not_elem_of_nil]. }
    split; [exact Hc|]. split; [rewrite length_app, Hl; cbn; lia|].
    split.
    { rewrite take_app_le by lia. rewrite take_take.
      etrans; [apply prefix_take|exact Hpre]. }
    split.
    + unfold Names.shortName. cbn [Names.or_empty].
      rewrite (before_comma_id _ Hc).
      destruct (Nat.ltb_spec 22 (length (take 22 t ++ [Names.ellipsis]))) as [_|H].
      * rewrite take_app_le by lia. rewrite take_take. reflexivity.
      * rewrite length_app, Hl in H. cbn in H. lia.
    + intros u -> Hu Hlu. cbn [Names.or_empty] in *.
      subst t. rewrite (before_comma_id _ Hu) in Hlen. lia.
Qed.

Lemma shortName_short_witness :
  Names.shortName (Some [80; 97; 114; 105; 115]%N) = [80; 97; 114; 105; 115]%N.
Proof.
  apply (proj2 (proj2 (proj2 (proj2
           (shortName_short (Some [80; 97; 114; 105; 115]%N)))))
           [80; 97; 114; 105; 115]%N eq_refl).
  - intros H. repeat (apply elem_of_cons in H; destruct H as [H|H];
                      [discriminate H|]).
    exact (not_elem_of_nil _ H).
  - cbn. lia.
Defined.

Section BandFacts.
Local Open Scope float_scope.

Lemma SFcompare_le_trans (a b c : spec_float) :
  SFleb a b = true -> SFleb b c = true -> SFleb a c = true.
Proof.
  unfold SFleb.
  destruct a as [sa|sa| |sa ma ea], b as [sb|sb| |sb mb eb],
           c as [sc|sc| |sc mc ec]; cbn;
    try discriminate; try reflexivity;
    try (destruct sa; try discriminate; try reflexivity);
    try (destruct sb; try discriminate; try reflexivity);
    try (destruct sc; try discriminate; try reflexivity);
    change (Pos.compare_cont Eq) with Pos.compare;
    intros H1 H2;
    destruct (Z.compare_spec ea eb), (Z.compare_spec eb ec),
             (Z.compare_spec ea ec);
    try discriminate; try reflexivity; try lia; subst;
    cbn in *;
    destruct (Pos.compare_spec ma mb), (Pos.compare_spec mb mc),
             (Pos.compare_spec ma mc);
    try discriminate; try reflexivity; try lia.
Qed.

Lemma leb_trans (x y z : float) :
  (x <=? y) = true -> (y <=? z) = true -> (x <=? z) = true.
Proof. rewrite !FloatAxioms.leb_spec. apply SFcompare_le_trans. Qed.

Lemma leb_nan (x t : float) : PrimFloat.is_nan x = true -> (x <=? t) = false.
Proof.
  intros Hx. destruct (x <=? t) eqn:E; [|reflexivity].
  destruct (leb_not_nan _ _ E) as [H _]. congruence.
Qed.

(** Above a threshold stays above it. *)
Lemma leb_above (a b t : float) :
  (a <=? b) = true -> (a <=? t) = false -> (b <=? t) = false.
Proof.
  intros Hab Ha. destruct (b <=? t) eqn:E; [|reflexivity].
  rewrite (leb_trans _ _ _ Hab E) in Ha. discriminate.
Qed.

End BandFacts.

Ltac band_cases a b Hab t1 t2 t3 :=
  pose proof (leb_above a b t1 Hab) as ?B1;
  pose proof (leb_above a b t2 Hab) as ?B2;
  pose proof (leb_above a b t3 Hab) as ?B3;
  destruct (PrimFloat.leb a t1), (PrimFloat.leb a t2), (PrimFloat.leb a t3);
  rewrite ?B1, ?B2, ?B3 by reflexivity;
  destruct (PrimFloat.leb b t1), (PrimFloat.leb b t2), (PrimFloat.leb b t3);
  vm_compute; lia.

(** The bands of the legend are ordered: a larger measurement never
    falls in a milder band of rain, wind or snow. windCategory and
    windColor cut the speeds at the same thresholds, so two speeds have
    the same label exactly when they have the same colour. A value that
    is no number falls in the strongest band of every scale. *)
Theorem bands_are_ordered :
  forall a b : float,
    (Bands.windCategory a = Bands.windCategory b
       <-> Helpers.windColor a = Helpers.windColor b) /\
    (PrimFloat.leb a b = true ->
       (Bands.severity (Bands.rainCategory a) <= Bands.severity (Bands.rainCategory b))%nat /\
       (Bands.severity (Bands.windCategory a) <= Bands.severity (Bands.windCategory b))%nat /\
       (Bands.severity (Bands.snowCategory a) <= Bands.severity (Bands.snowCategory b))%nat) /\
    (PrimFloat.is_nan a = true ->
       Bands.rainCategory a = "très forte"%string /\
       Bands.windCategory a = "très fort"%string /\
       Bands.snowCategory a = "très forte"%string).
Proof.
  intros a b. split; [|split].
  - unfold Bands.windCategory, Helpers.windColor.
    destruct (PrimFloat.leb a 15), (PrimFloat.leb a 35), (PrimFloat.leb a 60),
             (PrimFloat.leb b 15), (PrimFloat.leb b 35), (PrimFloat.leb b 60);
      split; intros H; try reflexivity; discriminate H.
  - intros Hab. unfold Bands.rainCategory, Bands.windCategory, Bands.snowCategory.
    split; [|split].
    + band_cases a b Hab 0.2%float 2%float 10%float.
    + band_cases a b Hab 15%float 35%float 60%float.
    + band_cases a b Hab 0.2%float 1%float 3%float.
  - intros Hn. unfold Bands.rainCategory, Bands.windCategory, Bands.snowCategory.
    rewrite !(leb_nan a _ Hn). auto.
Qed.

Lemma bands_are_ordered_witness :
  (Bands.severity (Bands.windCategory 10) <= Bands.severity (Bands.windCategory 40))%nat /\
  Bands.windCategory nan = "très fort"%string.
Proof.
  destruct (bands_are_ordered 10 40) as (_ & Hle & _).
  destruct (bands_are_ordered nan 0) as (_ & _ & Hnan).
  split.
  - exact (proj1 (proj2 (Hle eq_refl))).
  - exact (proj1 (proj2 (Hnan eq_refl))).
Defined.

(** * Favorites *)

Section FavoriteFacts.
Import Favorites.
Variable distKm : float -> float -> float -> float -> float.

Lemma filter_sublist_of {A} (p : A -> bool) (l : list A) :
  List.filter p l `sublist_of` l.
Proof.
  induction l as [|x l IH]; cbn [List.filter]; [constructor|].
  destruct (p x); [apply sublist_skip|apply sublist_cons]; exact IH.
Qed.

Lemma filter_all {A} (p : A -> bool) (l : list A) :
  Forall (fun x => p x = true) (List.filter p l).
Proof.
  induction l as [|x l IH]; cbn [List.filter]; [constructor|].
  destruct (p x) eqn:E; [constructor; assumption|exact IH].
Qed.

Lemma filter_elem {A} (p : A -> bool) (l : list A) (x : A) :
  x ∈ List.filter p l <-> x ∈ l /\ p x = true.
Proof.
  rewrite !list_elem_of_In, List.filter_In. reflexivity.
Qed.

Lemma filter_length_le {A} (p : A -> bool) (l : list A) :
  (length (List.filter p l) <= length l)%nat.
Proof.
  induction l as [|x l IH]; cbn [List.filter length]; [lia|].
  destruct (p x); cbn [length]; lia.
Qed.

Lemma sublist_Forall {A} (P : A -> Prop) (l k : list A) :
  l `sublist_of` k -> Forall P k -> Forall P l.
Proof.
  rewrite !Forall_forall. intros Hs H x Hx.
  apply H. exact (elem_of_sublist _ _ _ Hx Hs).
Qed.

Lemma spaced_sublist (l k : list Fav) :
  l `sublist_of` k -> spaced distKm k -> spaced distKm l.
Proof.
  induction 1 as [|x l k Hs IH|x l k Hs IH]; cbn [spaced]; [tauto| |].
  - intros [Hx Hk]. split; [|apply IH, Hk].
    eapply sublist_Forall; eassumption.
  - intros [_ Hk]. apply IH, Hk.
Qed.

(** What [addFavorite] stores. *)
Lemma added_spaced (f : Fav) (old : list Fav) :
  spaced distKm old ->
  spaced distKm (take 5 (f :: List.filter (farther distKm 0.3 (lat f) (lon f)) old)).
Proof.
  intros H. apply (spaced_sublist _ _ (sublist_take _ 5)).
  cbn [spaced]. split; [apply filter_all|].
  exact (spaced_sublist _ _ (filter_sublist_of _ old) H).
Qed.

Lemma addFavorite_returns (f : Fav) (s : State) (old : list Fav) :
  getFavs s = Some old ->
  let favs' := take 5 (f :: List.filter (farther distKm 0.3 (lat f) (lon f)) old) in
  addFavorite distKm f s
  = Returns tt {| store := Array favs'; favList := favs';
                  toasts := toasts s ++ [added_toast f] |}.
Proof.
  intros H favs'. unfold addFavorite. rewrite H. reflexivity.
Qed.

Lemma removeFavorite_returns (lat0 lon0 : float) (s : State) (old : list Fav) :
  getFavs s = Some old ->
  let favs' := List.filter (farther distKm 0.001 lat0 lon0) old in
  removeFavorite distKm lat0 lon0 s
  = Returns tt {| store := Array favs'; favList := favs'; toasts := toasts s |}.
Proof.
  intros H favs'. unfold removeFavorite. rewrite H. reflexivity.
Qed.

Lemma favorites_step_consistent (e : Event) (s : State) :
  consistent distKm s -> consistent distKm (step distKm e s).
Proof.
  intros (favs & Hs & Hl & Hn & Hsp). destruct e as [f|lat0 lon0]; cbn [step].
  - rewrite (addFavorite_returns f s favs Hs). cbn [final_state].
    eexists. split; [reflexivity|]. split; [reflexivity|].
    split; [rewrite length_take; lia|]. apply added_spaced, Hsp.
  - rewrite (removeFavorite_returns lat0 lon0 s favs Hs). cbn [final_state].
    eexists. split; [reflexivity|]. split; [reflexivity|].
    split; [pose proof (filter_length_le (farther distKm 0.001 lat0 lon0) favs); lia|].
    exact (spaced_sublist _ _ (filter_sublist_of _ favs) Hsp).
Qed.

End FavoriteFacts.

(** addFavorite puts the new favorite first and keeps behind it the
    first four of the saved favorites that lie more than 300 m from it,
    in their order: the list is cut after five entries and the oldest
    are the ones that go. The chips show the saved list and one toast
    with the name is pushed. When fewer than five were saved, every one
    farther than 300 m stays. A stored value that is no array makes the
    call throw before it changes anything. *)
Theorem addFavorite_newest_first :
  forall (distKm : float -> float -> float -> float -> float)
         (f : Favorites.Fav) (s : Favorites.State),
    (Favorites.getFavs s = None ->
     exists msg, Favorites.addFavorite distKm f s = Throws msg s) /\
    (forall old : list Favorites.Fav,
       Favorites.getFavs s = Some old ->
       exists rest : list Favorites.Fav,
         Favorites.addFavorite distKm f s
         = Returns tt {| Favorites.store := Favorites.Array (f :: rest);
                         Favorites.favList := f :: rest;
                         Favorites.toasts :=
                           Favorites.toasts s ++ [Favorites.added_toast f] |} /\
         rest = take 4 (List.filter
                          (Favorites.farther distKm 0.3 (Favorites.lat f)
                             (Favorites.lon f)) old) /\
         (length (f :: rest) <= 5)%nat /\
         (rest `prefix_of` List.filter
                             (Favorites.farther distKm 0.3 (Favorites.lat f)
                                (Favorites.lon f)) old) /\
         (rest `sublist_of` old) /\
         Forall (fun x => Favorites.farther distKm 0.3 (Favorites.lat f)
                            (Favorites.lon f) x = true) rest /\
         ((length old < 5)%nat ->
          forall x, x ∈ old ->
            Favorites.farther distKm 0.3 (Favorites.lat f) (Favorites.lon f) x = true ->
            x ∈ rest)).
Proof.
  intros distKm f s. split.
  - intros H. unfold Favorites.addFavorite. rewrite H. eexists. reflexivity.
  - intros old H.
    set (far := List.filter (Favorites.farther distKm 0.3 (Favorites.lat f)
                               (Favorites.lon f)) old).
    exists (take 4 far).
    split; [exact (addFavorite_returns distKm f s old H)|].
    split; [reflexivity|].
    split; [cbn [length]; rewrite length_take; lia|].
    split; [apply prefix_take|].
    split; [etrans; [apply sublist_take|apply filter_sublist_of]|].
    split; [eapply sublist_Forall; [apply sublist_take|apply filter_all]|].
    intros Hlen x Hx Hfar.
    rewrite take_ge.
    + apply filter_elem. split; assumption.
    + pose proof (filter_length_le (Favorites.farther distKm 0.3 (Favorites.lat f)
                                      (Favorites.lon f)) old).
      fold far in H0. lia.
Qed.

Lemma addFavorite_newest_first_witness :
  exists rest : list Favorites.Fav,
    Favorites.addFavorite Favorites.grid_distance Favorites.lyon
      (final_state (Favorites.addFavorite Favorites.grid_distance
                          Favorites.paris Favorites.fresh))
    = Returns tt {| Favorites.store := Favorites.Array (Favorites.lyon :: rest);
                    Favorites.favList := Favorites.lyon :: rest;
                    Favorites.toasts :=
                      [Favorites.added_toast Favorites.paris;
                       Favorites.added_toast Favorites.lyon] |} /\
    Favorites.paris ∈ rest.
Proof.
  destruct (addFavorite_newest_first Favorites.grid_distance Favorites.lyon
              (final_state (Favorites.addFavorite Favorites.grid_distance
                                  Favorites.paris Favorites.fresh))) as [_ H].
  destruct (H [Favorites.paris] eq_refl) as (rest & E & _ & _ & _ & _ & _ & Hin).
  exists rest. split; [exact E|].
  apply Hin; [cbn; lia|apply list_elem_of_singleton; reflexivity|reflexivity].
Defined.

(** Whatever is added and removed, starting from a consistent state the
    chips show what is stored, at most five favorites are stored, and
    no favorite lies within 300 m of one saved before it. *)
Theorem favorites_stay_consistent :
  forall (distKm : float -> float -> float -> float -> float)
         (evs : list Favorites.Event) (s : Favorites.State),
    Favorites.consistent distKm s ->
    Favorites.consistent distKm (Favorites.run distKm evs s).
Proof.
  intros distKm evs. induction evs as [|e evs IH]; intros s H; [exact H|].
  cbn [Favorites.run fold_left]. apply IH, favorites_step_consistent, H.
Qed.

Lemma favorites_stay_consistent_witness :
  Favorites.consistent Favorites.grid_distance
    (Favorites.run Favorites.grid_distance
       [Favorites.Add Favorites.paris; Favorites.Add Favorites.lyon;
        Favorites.Remove 48.85 2.35] Favorites.fresh).
Proof.
  apply favorites_stay_consistent.
  exists []. cbn. repeat split; lia.
Defined.

(** removeFavorite keeps, in their order, exactly the saved favorites
    that lie more than one metre from the given point, and pushes no
    toast. The favorite of the chip that was clicked goes whenever its
    distance to itself is not above one metre, which includes a
    distance that is no number. *)
Theorem removeFavorite_removes :
  forall (distKm : float -> float -> float -> float -> float)
         (lat0 lon0 : float) (s : Favorites.State) (old : list Favorites.Fav),
    Favorites.getFavs s = Some old ->
    exists kept : list Favorites.Fav,
      Favorites.removeFavorite distKm lat0 lon0 s
      = Returns tt {| Favorites.store := Favorites.Array kept;
                      Favorites.favList := kept;
                      Favorites.toasts := Favorites.toasts s |} /\
      (kept `sublist_of` old) /\
      (forall x, x ∈ kept <->
                 x ∈ old /\ Favorites.farther distKm 0.001 lat0 lon0 x = true) /\
      (forall f : Favorites.Fav,
         Favorites.lat f = lat0 -> Favorites.lon f = lon0 ->
         Helpers.gt (distKm lat0 lon0 lat0 lon0) 0.001 = false ->
         f ∉ kept).
Proof.
  intros distKm lat0 lon0 s old H.
  exists (List.filter (Favorites.farther distKm 0.001 lat0 lon0) old).
  split; [exact (removeFavorite_returns distKm lat0 lon0 s old H)|].
  split; [apply filter_sublist_of|].
  split; [intros x; apply filter_elem|].
  intros f Hlat Hlon Hd Hin. apply filter_elem in Hin. destruct Hin as [_ Hf].
  unfold Favorites.farther in Hf. rewrite Hlat, Hlon in Hf. congruence.
Qed.

Lemma removeFavorite_removes_witness :
  exists kept : list Favorites.Fav,
    Favorites.removeFavorite Favorites.grid_distance 48.85 2.35
      (Favorites.setFavs [Favorites.lyon; Favorites.paris] Favorites.fresh)
    = Returns tt {| Favorites.store := Favorites.Array kept;
                    Favorites.favList := kept;
                    Favorites.toasts := [] |} /\
    Favorites.paris ∉ kept.
Proof.
  destruct (removeFavorite_removes Favorites.grid_distance 48.85 2.35
              (Favorites.setFavs [Favorites.lyon; Favorites.paris] Favorites.fresh)
              [Favorites.lyon; Favorites.paris] eq_refl)
    as (kept & E & _ & _ & Hgone).
  exists kept. split; [exact E|].
  apply Hgone; reflexivity.
Defined.

(** * The compass *)

Section CompassFacts.
Import Compass.
Local Open Scope Z_scope.

Lemma range_spec (P : Z -> bool) (lo : Z) (n : nat) :
  forallb P (range lo n) = true ->
  forall d : Z, lo <= d < lo + Z.of_nat n -> P d = true.
Proof.
  intros H d Hd. rewrite forallb_forall in H. apply H.
  unfold range. apply in_map_iff. exists (Z.to_nat (d - lo)). split; [lia|].
  apply in_seq. lia.
Qed.

Lemma sector_nearest (d : Z) : Z.abs (4 * d - 90 * sector d) <= 45.
Proof.
  unfold sector.
  pose proof (Z.div_mod (4 * d + 45) 90 ltac:(lia)) as E.
  pose proof (Z.mod_pos_bound (4 * d + 45) 90 ltac:(lia)) as B.
  lia.
Qed.

End CompassFacts.

(** For a whole number of degrees from 0 to 360, degToCardinal names
    the compass point nearest to the bearing: the point number k, with
    16 counted as 0, whose bearing of k times 22.5 degrees lies within
    11.25 degrees of it. For the whole degrees from -348 to -12, and
    for a bearing that is no number, the result is undefined. *)
Theorem degToCardinal_nearest_point :
  (forall d : Z,
     0 <= d <= 360 ->
     exists k : Z,
       0 <= k <= 16 /\
       Z.abs (4 * d - 90 * k) <= 45 /\
       Compass.degToCardinal (Numbers.of_Z d)
       = Compass.dirs !! Z.to_nat (k mod 16) /\
       is_Some (Compass.degToCardinal (Numbers.of_Z d))) /\
  (forall d : Z,
     -348 <= d <= -12 -> Compass.degToCardinal (Numbers.of_Z d) = None) /\
  Compass.degToCardinal nan = None.
Proof.
  split; [|split].
  - intros d Hd. exists (Compass.sector d).
    assert (Hk : 0 <= Compass.sector d <= 16).
    { unfold Compass.sector. split.
      - apply Z.div_pos; lia.
      - apply Z.lt_succ_r, Z.div_lt_upper_bound; lia. }
    split; [exact Hk|]. split; [apply sector_nearest|].
    assert (E : Compass.degToCardinal (Numbers.of_Z d)
                = Compass.dirs !! Z.to_nat (Compass.sector d mod 16)).
    { assert (H : Compass.agrees d = true)
        by (apply (range_spec Compass.agrees 0 361); [vm_compute; reflexivity|lia]).
      unfold Compass.agrees in H. exact (bool_decide_eq_true_1 _ H). }
    split; [exact E|]. rewrite E. apply lookup_lt_is_Some.
    pose proof (Z.mod_pos_bound (Compass.sector d) 16 ltac:(lia)).
    change (length Compass.dirs) with 16%nat. lia.
  - intros d Hd.
    assert (H : Compass.undefined_at d = true)
      by (apply (range_spec Compass.undefined_at (-348) 337);
          [vm_compute; reflexivity|lia]).
    unfold Compass.undefined_at in H. exact (bool_decide_eq_true_1 _ H).
  - vm_compute. reflexivity.
Qed.

Lemma degToCardinal_nearest_point_witness :
  exists k : Z,
    0 <= k <= 16 /\ Z.abs (4 * 200 - 90 * k) <= 45 /\
    Compass.degToCardinal (Numbers.of_Z 200) = Compass.dirs !! Z.to_nat (k mod 16) /\
    is_Some (Compass.degToCardinal (Numbers.of_Z 200)).
Proof.
  apply (proj1 degToCardinal_nearest_point 200). lia.
Defined.

(** * In-site alerts *)

Section AlertFacts.
Import Alerts.
Local Open Scope Z_scope.
Variable number_text : float -> string.

Lemma decimal_inj (a b : Z) : decimal a = decimal b -> a = b.
Proof.
  unfold decimal. intros H.
  assert (Hn : forall z, NilZero.int_of_string (NilZero.string_of_int (Z.to_int z))
                         = Some (Z.to_int z)).
  { intros z. apply NilZero.isi; destruct z; cbn; try discriminate;
      intros E; injection E as E; exact (DecimalPos.Unsigned.to_uint_nonnil _ E). }
  apply (f_equal NilZero.int_of_string) in H. rewrite !Hn in H.
  injection H as H. exact (DecimalZ.to_int_inj _ _ H).
Qed.

Lemma append_inj_l (p s t : string) : (p ++ s = p ++ t)%string -> s = t.
Proof.
  induction p as [|a p IH]; [intros H; exact H|].
  rewrite !append_cons. intros H. injection H as H. apply IH, H.
Qed.

Lemma rain_key_inj (c : Center) (a b : Z) :
  rain_key number_text c a = rain_key number_text c b -> a = b.
Proof.
  unfold rain_key. intros H.
  apply append_inj_l, append_inj_l, append_inj_l in H.
  apply decimal_inj, H.
Qed.

Lemma rain_wind_keys (c : Center) (sm m : Z) (k : float) :
  rain_key number_text c sm <> wind_key number_text c m k.
Proof.
  unfold rain_key, wind_key. rewrite !append_cons. discriminate.
Qed.

Lemma rain_block_block (c : Center) (data : Data) (now : Z)
    (st : gmap string Z) (s : State) :
  rain_block number_text c data now st s
  = block (rain_alert number_text c data) (20 * 60 * 1000) now st s.
Proof.
  unfold rain_block, rain_alert, block.
  destruct (Helpers.startMin _) as [sm|]; [|reflexivity].
  destruct (sm <=? 90); reflexivity.
Qed.

Lemma wind_block_block (c : Center) (data : Data) (now : Z)
    (st : gmap string Z) (s : State) :
  wind_block number_text c data now st s
  = block (wind_alert number_text c data) (30 * 60 * 1000) now st s.
Proof.
  unfold wind_block, wind_alert, block.
  destruct (Forecast.findWindPeakSoon _) as [p|]; [|reflexivity].
  destruct (_ && _); reflexivity.
Qed.

(** What a block leaves behind. *)
Lemma block_spec (al : option (string * Alert)) (cooldown now : Z)
    (st : gmap string Z) (s : State) :
  getAlertState s = st ->
  exists st' s',
    block al cooldown now st s = (st', s') /\
    getAlertState s' = st' /\
    map s' = map s /\
    toasts s' = toasts s ++ (if due al cooldown now st
                             then match al with Some (_, a) => [a] | None => [] end
                             else []) /\
    st' = (if due al cooldown now st
           then match al with Some (key, _) => <[key := now]> st | None => st end
           else st).
Proof.
  intros Hst. unfold block, due. destruct al as [[key a]|].
  - destruct (cooldown <? now - last_of st key); eexists; eexists;
      (split; [reflexivity|]); cbn; rewrite ?app_nil_r; auto.
  - eexists; eexists; (split; [reflexivity|]); cbn; rewrite ?app_nil_r; auto.
Qed.

(** One check, by the two alerts the forecast calls for. *)
Lemma settle_spec (c : Center) (data : Data) (now : Z) (s : State) :
  let R := rain_alert number_text c data in
  let W := wind_alert number_text c data in
  let st0 := getAlertState s in
  let fr := due R (20 * 60 * 1000) now st0 in
  let st1 := if fr then match R with Some (key, _) => <[key := now]> st0 | None => st0 end
             else st0 in
  let fw := due W (30 * 60 * 1000) now st1 in
  let st2 := if fw then match W with Some (key, _) => <[key := now]> st1 | None => st1 end
             else st1 in
  exists s',
    checkAlerts_settle number_text c (Timeline.Json (Some data)) now s = Returns tt s' /\
    getAlertState s' = st2 /\
    map s' = map s /\
    toasts s' = toasts s
                ++ (if fr then match R with Some (_, a) => [a] | None => [] end else [])
                ++ (if fw then match W with Some (_, a) => [a] | None => [] end else []).
Proof.
  intros R W st0 fr st1 fw st2.
  unfold checkAlerts_settle. rewrite rain_block_block.
  destruct (block_spec R (20 * 60 * 1000) now st0 s eq_refl)
    as (t1 & s1 & E1 & G1 & M1 & T1 & S1).
  fold R. fold st0. rewrite E1. rewrite wind_block_block.
  destruct (block_spec W (30 * 60 * 1000) now t1 s1 G1)
    as (t2 & s2 & E2 & G2 & M2 & T2 & S2).
  fold W. rewrite E2. exists s2. split; [reflexivity|].
  rewrite S1 in S2, T2. rewrite S2 in G2. clear S1 S2 E1 E2 G1.
  subst st2 fw st1 fr.
  split; [exact G2|]. split; [congruence|].
  rewrite T2, T1, <- app_assoc. reflexivity.
Qed.

Lemma rain_alert_is_rain (c : Center) (data : Data) (key : string) (a : Alert) :
  rain_alert number_text c data = Some (key, a) ->
  is_rain a = true /\
  exists sm, key = rain_key number_text c sm.
Proof.
  unfold rain_alert. destruct (Helpers.startMin _) as [sm|]; [|discriminate].
  destruct (sm <=? 90); [|discriminate].
  intros H. injection H as <- <-. split; [reflexivity|]. exists sm. reflexivity.
Qed.

Lemma wind_alert_is_wind (c : Center) (data : Data) (key : string) (a : Alert) :
  wind_alert number_text c data = Some (key, a) ->
  is_rain a = false /\
  exists m k, key = wind_key number_text c m k.
Proof.
  unfold wind_alert. destruct (Forecast.findWindPeakSoon _) as [p|]; [|discriminate].
  destruct (_ && _); [|discriminate].
  intros H. injection H as <- <-. split; [reflexivity|]. eexists; eexists; reflexivity.
Qed.

Lemma pushed_app (s s' : State) (l : list Alert) :
  toasts s' = toasts s ++ l -> pushed s s' = l.
Proof. intros H. unfold pushed. rewrite H. apply drop_app_length. Qed.

Lemma last_of_insert (st : gmap string Z) (key : string) (t : Z) :
  last_of (<[key := t]> st) key = t.
Proof. unfold last_of. rewrite lookup_insert_eq. reflexivity. Qed.

Lemma last_of_insert_ne (st : gmap string Z) (key key' : string) (t : Z) :
  key <> key' -> last_of (<[key := t]> st) key' = last_of st key'.
Proof. intros H. unfold last_of. rewrite lookup_insert_ne by exact H. reflexivity. Qed.

Lemma rain_fired (c : Center) (data : Data) (cooldown now : Z) (st : gmap string Z) :
  let R := rain_alert number_text c data in
  let l := if due R cooldown now st
           then match R with Some (_, a) => [a] | None => [] end
           else [] in
  existsb is_rain l = due R cooldown now st /\
  existsb is_wind l = false /\
  (length l <= 1)%nat.
Proof.
  intros R l. subst l. unfold due.
  destruct R as [[key a]|] eqn:E; [|cbn; auto].
  destruct (rain_alert_is_rain c data key a E) as [Ha _].
  destruct (cooldown <? now - last_of st key); cbn; [|auto].
  unfold is_wind. rewrite Ha. cbn. auto.
Qed.

Lemma wind_fired (c : Center) (data : Data) (cooldown now : Z) (st : gmap string Z) :
  let W := wind_alert number_text c data in
  let l := if due W cooldown now st
           then match W with Some (_, a) => [a] | None => [] end
           else [] in
  existsb is_wind l = due W cooldown now st /\
  existsb is_rain l = false /\
  (length l <= 1)%nat.
Proof.
  intros W l. subst l. unfold due.
  destruct W as [[key a]|] eqn:E; [|cbn; auto].
  destruct (wind_alert_is_wind c data key a E) as [Ha _].
  destruct (cooldown <? now - last_of st key); cbn; [|auto].
  unfold is_wind. rewrite Ha. cbn. auto.
Qed.

(** The state a check ends in, and what it pushed. *)
Lemma check_spec (c : Center) (data : Data) (now : Z) (s : State) :
  let R := rain_alert number_text c data in
  let W := wind_alert number_text c data in
  let st0 := getAlertState s in
  let fr := due R (20 * 60 * 1000) now st0 in
  let st1 := if fr then match R with Some (key, _) => <[key := now]> st0 | None => st0 end
             else st0 in
  let fw := due W (30 * 60 * 1000) now st1 in
  let st2 := if fw then match W with Some (key, _) => <[key := now]> st1 | None => st1 end
             else st1 in
  let s' := final_state (checkAlerts_settle number_text c
                           (Timeline.Json (Some data)) now s) in
  getAlertState s' = st2 /\
  existsb is_rain (pushed s s') = fr /\
  existsb is_wind (pushed s s') = fw /\
  (length (pushed s s') <= 2)%nat.
Proof.
  intros R W st0 fr st1 fw st2 s'.
  destruct (settle_spec c data now s) as (t & E & G & _ & T).
  subst s'. rewrite E. cbn [final_state].
  split; [exact G|].
  rewrite (pushed_app _ _ _ T), !existsb_app, length_app.
  destruct (rain_fired c data (20 * 60 * 1000) now st0) as (R1 & R2 & R3).
  destruct (wind_fired c data (30 * 60 * 1000) now st1) as (W1 & W2 & W3).
  subst st2 fw st1 fr st0 R W. cbv zeta in *.
  rewrite R1, R2, W1, W2.
  split; [apply orb_false_r|]. split; [reflexivity|]. lia.
Qed.

End AlertFacts.

Section Cooldown.
Import Alerts.
Local Open Scope Z_scope.
Variable number_text : float -> string.

(** The time stamp a key has after a check. *)
Lemma last_after_check (c : Center) (data : Data) (now : Z) (s : State) (key : string) :
  let s' := final_state (checkAlerts_settle number_text c
                           (Timeline.Json (Some data)) now s) in
  let R := rain_alert number_text c data in
  let W := wind_alert number_text c data in
  (forall a, R = Some (key, a) -> existsb is_rain (pushed s s') = true ->
             last_of (getAlertState s') key = now) /\
  (forall a, W = Some (key, a) -> existsb is_wind (pushed s s') = true ->
             last_of (getAlertState s') key = now) /\
  ((forall a, R <> Some (key, a)) -> (forall a, W <> Some (key, a)) ->
   last_of (getAlertState s') key = last_of (getAlertState s) key).
Proof.
  intros s' R W.
  destruct (check_spec number_text c data now s) as (G & Pr & Pw & _).
  fold s' in G, Pr, Pw. fold R in G, Pr, Pw. fold W in G, Pw.
  rewrite G, Pr, Pw. clear G Pr Pw.
  assert (Hne : forall kr a kw b, R = Some (kr, a) -> W = Some (kw, b) -> kr <> kw).
  { intros kr a kw b Hr Hw.
    destruct (rain_alert_is_rain number_text c data kr a Hr) as (_ & sm & ->).
    destruct (wind_alert_is_wind number_text c data kw b Hw) as (_ & m & k & ->).
    apply rain_wind_keys. }
  unfold due.
  destruct R as [[kr a]|], W as [[kw b]|];
    repeat match goal with
           | |- context [?x <? ?y] => destruct (x <? y)
           end;
    (split; [|split]);
    try (intros ? [= <- <-] ?); try (intros ? ? ?); try discriminate;
    rewrite ?last_of_insert; try reflexivity;
    try (rewrite last_of_insert_ne
           by (first [eapply Hne; reflexivity
                     |intros E; symmetry in E; revert E; eapply Hne; reflexivity
                     |intros E; subst; eauto]));
    rewrite ?last_of_insert; try reflexivity;
    try (rewrite last_of_insert_ne by (intros E; subst; eauto));
    try reflexivity;
    intros H1 H2;
    rewrite ?last_of_insert_ne
      by (intros E; subst;
          first [eapply H1; reflexivity|eapply H2; reflexivity]);
    reflexivity.
Qed.

Lemma rain_alert_start (c : Center) (data : Data) (key : string) (a : Alert) :
  rain_alert number_text c data = Some (key, a) ->
  exists sm,
    Helpers.startMin (Helpers.computeRainEvent15 (rain_series data)) = Some sm /\
    key = rain_key number_text c sm.
Proof.
  unfold rain_alert. destruct (Helpers.startMin _) as [sm|]; [|discriminate].
  destruct (sm <=? 90); [|discriminate].
  intros H. injection H as <- <-. exists sm. split; reflexivity.
Qed.

Lemma rain_alert_called (c : Center) (data : Data) (sm : Z) :
  Helpers.startMin (Helpers.computeRainEvent15 (rain_series data)) = Some sm ->
  sm <= 90 ->
  exists a, rain_alert number_text c data = Some (rain_key number_text c sm, a).
Proof.
  intros H Hle. unfold rain_alert. rewrite H.
  destruct (Z.leb_spec sm 90); [|lia]. eexists. reflexivity.
Qed.

End Cooldown.

(** A check pushes at most two toasts. After a check that pushed the
    rain toast, a check of the same forecast at the same place within
    20 minutes pushes no rain toast, and likewise for the wind toast
    within 30 minutes. The cooldown belongs to the key, and the key of
    the rain toast holds the start time: a later forecast whose rain
    starts at another time, under a key that has no time stamp yet, gets
    its toast at once. *)
Theorem alert_cooldown :
  forall (number_text : float -> string) (c : Alerts.Center)
         (data : Alerts.Data) (now1 now2 : Z) (s : Alerts.State),
    let check := fun d now st =>
      final_state (Alerts.checkAlerts_settle number_text c
                     (Timeline.Json (Some d)) now st) in
    let s1 := check data now1 s in
    (length (Alerts.pushed s s1) <= 2)%nat /\
    (now2 - now1 <= 20 * 60 * 1000 ->
     existsb Alerts.is_rain (Alerts.pushed s s1) = true ->
     existsb Alerts.is_rain (Alerts.pushed s1 (check data now2 s1)) = false) /\
    (now2 - now1 <= 30 * 60 * 1000 ->
     existsb Alerts.is_wind (Alerts.pushed s s1) = true ->
     existsb Alerts.is_wind (Alerts.pushed s1 (check data now2 s1)) = false) /\
    (forall (later : Alerts.Data) (sm : Z),
       Helpers.startMin (Helpers.computeRainEvent15 (Alerts.rain_series later))
         = Some sm ->
       sm <= 90 ->
       Helpers.startMin (Helpers.computeRainEvent15 (Alerts.rain_series data))
         <> Some sm ->
       Alerts.getAlertState s !! Alerts.rain_key number_text c sm = None ->
       20 * 60 * 1000 < now2 ->
       existsb Alerts.is_rain (Alerts.pushed s1 (check later now2 s1)) = true).
Proof.
  intros number_text c data now1 now2 s check s1. subst check. cbv beta in *.
  destruct (check_spec number_text c data now1 s) as (_ & _ & _ & Hlen).
  fold s1 in Hlen |- *.
  split; [exact Hlen|]. split; [|split].
  - intros Hnow Hfired.
    destruct (check_spec number_text c data now2 s1) as (_ & Pr & _).
    rewrite Pr. unfold Alerts.due.
    destruct (Alerts.rain_alert number_text c data) as [[key a]|] eqn:ER;
      [|reflexivity].
    destruct (last_after_check number_text c data now1 s key) as [H _].
    fold s1 in H. rewrite (H a ER Hfired). apply Z.ltb_ge. lia.
  - intros Hnow Hfired.
    destruct (check_spec number_text c data now2 s1) as (_ & _ & Pw & _).
    rewrite Pw. clear Pw. unfold Alerts.due at 1.
    destruct (Alerts.wind_alert number_text c data) as [[kw b]|] eqn:EW;
      [|reflexivity].
    destruct (last_after_check number_text c data now1 s kw) as (_ & H & _).
    fold s1 in H. specialize (H b EW Hfired).
    assert (E : Alerts.last_of
                  (if Alerts.due (Alerts.rain_alert number_text c data)
                        (20 * 60 * 1000) now2 (Alerts.getAlertState s1)
                   then match Alerts.rain_alert number_text c data with
                        | Some (key, _) => <[key := now2]> (Alerts.getAlertState s1)
                        | None => Alerts.getAlertState s1
                        end
                   else Alerts.getAlertState s1) kw = now1).
    { destruct (Alerts.due (Alerts.rain_alert number_text c data) _ _ _);
        [|exact H].
      destruct (Alerts.rain_alert number_text c data) as [[kr a]|] eqn:ER; [|exact H].
      rewrite last_of_insert_ne; [exact H|].
      destruct (rain_alert_is_rain number_text c data kr a ER) as (_ & sm & ->).
      destruct (wind_alert_is_wind number_text c data kw b EW) as (_ & m & k & ->).
      apply rain_wind_keys. }
    rewrite E. apply Z.ltb_ge. lia.
  - intros later sm Hlater Hle Hdiff Hfresh Hnow.
    destruct (check_spec number_text c later now2 s1) as (_ & Pr & _).
    rewrite Pr. unfold Alerts.due.
    destruct (rain_alert_called number_text c later sm Hlater Hle) as [a ->].
    destruct (last_after_check number_text c data now1 s
                (Alerts.rain_key number_text c sm)) as (_ & _ & H).
    fold s1 in H. rewrite H.
    + unfold Alerts.last_of. rewrite Hfresh. apply Z.ltb_lt. lia.
    + intros a' E.
      destruct (rain_alert_start number_text c data _ a' E) as (sm' & Hs & Hk).
      apply rain_key_inj in Hk. congruence.
    + intros a' E.
      destruct (wind_alert_is_wind number_text c data _ a' E) as (_ & m & k & Hk).
      exact (rain_wind_keys number_text c sm m k Hk).
Qed.

Lemma alert_cooldown_witness :
  let check := fun d now st =>
    final_state (Alerts.checkAlerts_settle Alerts.whole_text Alerts.paris
                   (Timeline.Json (Some d)) now st) in
  let s1 := check Alerts.storm Alerts.an_evening Alerts.page in
  existsb Alerts.is_rain
    (Alerts.pushed s1 (check Alerts.storm (Alerts.an_evening + 180000) s1)) = false /\
  existsb Alerts.is_wind
    (Alerts.pushed s1 (check Alerts.storm (Alerts.an_evening + 180000) s1)) = false /\
  existsb Alerts.is_rain
    (Alerts.pushed s1 (check Alerts.storm_nearer (Alerts.an_evening + 180000) s1)) = true.
Proof.
  intros check s1.
  destruct (alert_cooldown Alerts.whole_text Alerts.paris Alerts.storm
              Alerts.an_evening (Alerts.an_evening + 180000) Alerts.page)
    as (_ & Hrain & Hwind & Hlater).
  split; [|split].
  - apply Hrain; [vm_compute; discriminate|vm_compute; reflexivity].
  - apply Hwind; [vm_compute; discriminate|vm_compute; reflexivity].
  - apply (Hlater Alerts.storm_nearer 15).
    + vm_compute. reflexivity.
    + lia.
    + vm_compute. discriminate.
    + reflexivity.
    + vm_compute. reflexivity.
Defined.

(** A check that cannot get its forecast leaves no trace: before the
    map exists nothing is requested; when the request fails, the answer
    does not parse or the document is null, the promise is rejected with
    the stored time stamps and the toasts as they were, and the alert
    loop swallows the rejection. A document without the two series is a
    forecast without rain and wind: the check completes and changes
    nothing. *)
Theorem checkAlerts_fails_quietly :
  forall (number_text : float -> string)
         (r : Timeline.FetchResult (option Alerts.Data)) (now : Z)
         (s : Alerts.State),
    (Alerts.map s = None -> Alerts.alert_tick number_text r now s = s) /\
    (forall c : Alerts.Center,
       match r with
       | Timeline.Json (Some data) =>
           Alerts.minutely_15 data = None -> Alerts.hourly data = None ->
           Alerts.checkAlerts_settle number_text c r now s = Returns tt s
       | _ =>
           (exists msg, Alerts.checkAlerts_settle number_text c r now s = Throws msg s) /\
           Alerts.alert_tick number_text r now s = s
       end).
Proof.
  intros number_text r now s. split.
  - intros H. unfold Alerts.alert_tick, Alerts.checkAlerts_begin. rewrite H.
    reflexivity.
  - intros c. destruct r as [| |[data|]].
    + split; [eexists; reflexivity|].
      unfold Alerts.alert_tick, Alerts.checkAlerts_begin.
      destruct (Alerts.map s); reflexivity.
    + split; [eexists; reflexivity|].
      unfold Alerts.alert_tick, Alerts.checkAlerts_begin.
      destruct (Alerts.map s); reflexivity.
    + intros Hm Hh.
      assert (ER : Alerts.rain_alert number_text c data = None)
        by (unfold Alerts.rain_alert, Alerts.rain_series; rewrite Hm; reflexivity).
      assert (EW : Alerts.wind_alert number_text c data = None)
        by (unfold Alerts.wind_alert, Alerts.wind_series; rewrite Hh; reflexivity).
      unfold Alerts.checkAlerts_settle.
      rewrite rain_block_block, ER. cbn [Alerts.block].
      rewrite wind_block_block, EW. reflexivity.
    + split; [eexists; reflexivity|].
      unfold Alerts.alert_tick, Alerts.checkAlerts_begin.
      destruct (Alerts.map s); reflexivity.
Qed.

Lemma checkAlerts_fails_quietly_witness :
  Alerts.alert_tick Alerts.whole_text Timeline.NetworkError Alerts.an_evening
    {| Alerts.map := None; Alerts.alerts := Alerts.Absent; Alerts.toasts := [] |}
  = {| Alerts.map := None; Alerts.alerts := Alerts.Absent; Alerts.toasts := [] |}.
Proof.
  apply (proj1 (checkAlerts_fails_quietly Alerts.whole_text Timeline.NetworkError
                  Alerts.an_evening _)).
  reflexivity.
Defined.
(** * Wind sample *)

Section WindSample.
Local Open Scope float_scope.

(** A product with NaN is NaN, whatever the other factor. *)
Lemma mul_nan_r (x : float) : x * nan = nan.
Proof.
  apply Prim2SF_inj. rewrite FloatAxioms.mul_spec.
  change (Prim2SF nan) with S754_nan.
  destruct (Prim2SF x); reflexivity.
Qed.

Lemma turns_exactly_all (d : Z) :
  (0 <= d <= 360)%Z ->
  Numbers.remainder (Numbers.of_Z d + 180) 360
  = Numbers.of_Z ((d + 180) mod 360).
Proof.
  intros Hd. apply FloatAxioms.Leibniz.eqb_spec.
  apply (range_spec Sampler.turns_exactly 0 361); [vm_compute; reflexivity|lia].
Qed.

End WindSample.

(** A failed request, or a document without the hourly arrays, yields
    [null] and no exception. *)
Lemma fetchPointWind_failure (Math_sin Math_cos : float -> float) :
  Sampler.fetchPointWind_settle Math_sin Math_cos Timeline.NetworkError = None /\
  Sampler.fetchPointWind_settle Math_sin Math_cos Timeline.ParseError = None /\
  Sampler.fetchPointWind_settle Math_sin Math_cos (Timeline.Json None) = None /\
  Sampler.fetchPointWind_settle Math_sin Math_cos
    (Timeline.Json (Some {| Sampler.hourly := None |})) = None.
Proof. repeat split. Qed.

(** C5, as the code has it. For a forecast whose first hourly entry
    gives the source bearing 90 and the speed 10, fetchPointWind returns
    the sample with that speed and bearing whose flow components are the
    platform's sine and cosine of the flow bearing times the speed. The
    flow bearing is exactly 270 degrees; in radians it is the binary64
    number 270 * Math.PI / 180 = 4.71238898038469, which is not exactly
    three half turns. With the sine and the cosine rounded to the
    nearest binary64 number the components are flowU = -10 and
    flowV = -1.8369701987210296e-15. *)
Theorem fetchPointWind_from_east :
  Numbers.remainder (90 + 180) 360 = 270%float /\
  (270 * Sampler.Math_PI / 180 = 4.71238898038469)%float /\
  (forall (Math_sin Math_cos : float -> float) (speeds dirs : list float),
      Sampler.fetchPointWind_settle Math_sin Math_cos
        (Sampler.forecast 10 90 speeds dirs)
      = Some {| Sampler.spd := Some 10%float; Sampler.deg := Some 90%float;
                Sampler.u := (Math_sin 4.71238898038469 * 10)%float;
                Sampler.v := (Math_cos 4.71238898038469 * 10)%float |}) /\
  (forall speeds dirs : list float,
      Sampler.fetchPointWind_settle Libm.sin Libm.cos
        (Sampler.forecast 10 90 speeds dirs)
      = Some {| Sampler.spd := Some 10%float; Sampler.deg := Some 90%float;
                Sampler.u := (-10)%float;
                Sampler.v := (-1.8369701987210296e-15)%float |}).
Proof.
  split; [vm_compute; reflexivity|]. split; [vm_compute; reflexivity|].
  assert (H : forall (Math_sin Math_cos : float -> float) speeds dirs,
             Sampler.fetchPointWind_settle Math_sin Math_cos
               (Sampler.forecast 10 90 speeds dirs)
             = Some {| Sampler.spd := Some 10%float; Sampler.deg := Some 90%float;
                       Sampler.u := (Math_sin 4.71238898038469 * 10)%float;
                       Sampler.v := (Math_cos 4.71238898038469 * 10)%float |}).
  { intros Math_sin Math_cos speeds dirs.
    unfold Sampler.fetchPointWind_settle, Sampler.forecast,
      Sampler.fetchPointWind_try.
    cbn [Sampler.hourly Sampler.windspeed_10m Sampler.winddirection_10m
         Sampler.first Sampler.to_number try_catch Sampler.result].
    change (Numbers.remainder (90 + 180) 360 * Sampler.Math_PI / 180)%float
      with 4.71238898038469%float.
    reflexivity. }
  split; [exact H|].
  intros speeds dirs. rewrite H.
  assert (Hs : Libm.sin 4.71238898038469 = (-1)%float)
    by (vm_compute; reflexivity).
  assert (Hc : Libm.cos 4.71238898038469 = (-1.8369701987210297e-16)%float)
    by (vm_compute; reflexivity).
  rewrite Hs, Hc. reflexivity.
Qed.

(** With sine and cosine rounded to the nearest binary64 number, the
    sample for the source bearing 90 and the speed 10 has no flowV of
    zero: the statement with flowU = -10 and flowV = 0 fails. *)
Lemma fetchPointWind_flowV_not_zero :
  ~ exists w : Sampler.WindSample,
      Sampler.fetchPointWind_settle Libm.sin Libm.cos
        (Sampler.forecast 10 90 [] []) = Some w /\
      Sampler.u w = (-10)%float /\
      Sampler.v w = 0%float.
Proof.
  intros (w & E & _ & Hv).
  assert (E' : Sampler.fetchPointWind_settle Libm.sin Libm.cos
                 (Sampler.forecast 10 90 [] [])
               = Some {| Sampler.spd := Some 10%float; Sampler.deg := Some 90%float;
                         Sampler.u := (-10)%float;
                         Sampler.v := (-1.8369701987210296e-15)%float |})
    by (vm_compute; reflexivity).
  rewrite E' in E. injection E as <-. cbn in Hv.
  apply (f_equal (fun x => PrimFloat.eqb x 0)) in Hv.
  vm_compute in Hv. discriminate Hv.
Qed.

(** For every whole source bearing from 0 to 360 degrees the flow
    bearing the script computes is, without rounding, the opposite
    bearing (d + 180) mod 360, a bearing in [0, 360); the sample holds
    the speed and the bearing it was given, and its flow components are
    the platform's sine and cosine of the flow bearing in radians, times
    the speed. *)
Theorem fetchPointWind_flow_bearing :
  forall (Math_sin Math_cos : float -> float) (speed : float) (d : Z)
         (speeds dirs : list float),
    0 <= d <= 360 ->
    0 <= (d + 180) mod 360 < 360 /\
    Z.abs ((d + 180) mod 360 - d) = 180 /\
    Numbers.remainder (Numbers.of_Z d + 180) 360
      = Numbers.of_Z ((d + 180) mod 360) /\
    Sampler.fetchPointWind_settle Math_sin Math_cos
      (Sampler.forecast speed (Numbers.of_Z d) speeds dirs)
    = Some {| Sampler.spd := Some speed; Sampler.deg := Some (Numbers.of_Z d);
              Sampler.u := (Math_sin (Sampler.flow_radians d) * speed)%float;
              Sampler.v := (Math_cos (Sampler.flow_radians d) * speed)%float |}.
Proof.
  intros Math_sin Math_cos speed d speeds dirs Hd.
  split; [apply Z.mod_pos_bound; lia|].
  split.
  { destruct (Z_lt_le_dec d 180) as [Hlt|Hge].
    - rewrite Z.mod_small by lia. lia.
    - replace (d + 180) with (d - 180 + 1 * 360) by lia.
      rewrite Z.mod_add by lia. rewrite Z.mod_small by lia. lia. }
  split; [apply turns_exactly_all, Hd|].
  unfold Sampler.fetchPointWind_settle, Sampler.forecast,
    Sampler.fetchPointWind_try.
  cbn [Sampler.hourly Sampler.windspeed_10m Sampler.winddirection_10m
       Sampler.first Sampler.to_number try_catch Sampler.result].
  rewrite (turns_exactly_all d Hd). reflexivity.
Qed.

Lemma fetchPointWind_flow_bearing_witness :
  Sampler.fetchPointWind_settle Libm.sin Libm.cos
    (Sampler.forecast 5 (Numbers.of_Z 200) [] [])
  = Some {| Sampler.spd := Some 5%float; Sampler.deg := Some (Numbers.of_Z 200);
            Sampler.u := (Libm.sin (Sampler.flow_radians 200) * 5)%float;
            Sampler.v := (Libm.cos (Sampler.flow_radians 200) * 5)%float |}.
Proof.
  apply (fetchPointWind_flow_bearing Libm.sin Libm.cos 5%float 200 [] []). lia.
Defined.

(** fetchPointWind returns null exactly when the request failed or the
    document lacks one of the two hourly arrays. Empty arrays are not
    such a case: the sample is then an object whose speed and bearing
    are undefined and whose flow components are NaN, which the callers'
    test for null lets through. *)
Theorem fetchPointWind_null :
  forall Math_sin Math_cos : float -> float,
    (forall r : Timeline.FetchResult (option Sampler.Forecast),
        Sampler.fetchPointWind_settle Math_sin Math_cos r = None
        <-> SamplerSpec.has_arrays r = false) /\
    Sampler.fetchPointWind_settle Math_sin Math_cos SamplerSpec.empty_forecast
    = Some {| Sampler.spd := None; Sampler.deg := None;
              Sampler.u := nan; Sampler.v := nan |}.
Proof.
  intros Math_sin Math_cos. split.
  - intros r. unfold Sampler.fetchPointWind_settle, SamplerSpec.has_arrays.
    destruct r as [| |[data|]]; cbn; try tauto.
    destruct (Sampler.hourly data) as [h|]; cbn; [|tauto].
    destruct (Sampler.windspeed_10m h), (Sampler.winddirection_10m h); cbn;
      split; congruence.
  - unfold Sampler.fetchPointWind_settle, SamplerSpec.empty_forecast,
      Sampler.fetchPointWind_try.
    cbn [Sampler.hourly Sampler.windspeed_10m Sampler.winddirection_10m
         Sampler.first Sampler.to_number try_catch Sampler.result].
    rewrite !mul_nan_r. reflexivity.
Qed.

